(** * Liquidations analytics: fetch/merge pipeline, behaviour classifier
      and aggregation layer.

    A shallow embedding of [src/fetcher.py], [src/user_behavior_fetcher.py],
    [src/behavior_analyzer.py] and [src/data_processor.py].

    Conventions.
    - A DataFrame is the list of its rows, in frame order; [df.empty] is
      "the list is nil".
    - Integer columns (timestamps, block numbers) are [Z].
    - Float columns (amounts) are rationals [Q], the numbers the floats
      denote: comparisons of floats are comparisons of these numbers, and
      NaN does not occur in amounts. Sums and means of float columns are the
      exact ones where no property rests on their value; where one does
      (the ranking of the top-N functions), the float sum is a parameter.
    - [sort_values] promises the larger keys first and nothing on rows with
      equal keys: that order is kept open in the ranking of the top-N
      functions, and is frame order elsewhere, where no property rests on
      it.
    - String columns are [string]. *)

From Stdlib Require Import List ZArith QArith String Ascii Bool Lia Lqa.
From Stdlib Require Import Permutation Sorted.
From Stdlib Require OrderedTypeEx.
From Stdlib Require DecimalString.
Import ListNotations.

Local Open Scope string_scope.
Local Open Scope Z_scope.
Local Open Scope list_scope.

(** ** Rows *)

(** One row of the liquidation table ([_raw_to_dataframe]). The [datetime]
    column is a function of [timestamp] and is left out. *)
Module Liq.
Record t := mk {
  id : string;
  version : string;
  timestamp : Z;
  block_number : Z;
  tx_hash : string;
  liquidator : string;
  liquidatee : string;
  collateral_asset_symbol : string;
  collateral_asset_address : string;
  collateral_amount_raw : string;
  collateral_amount_btc : Q;
  collateral_amount_usd : Q;
  market_name : string;
  market_address : string
}.
End Liq.

(** One row of the action table ([_parse_events]). *)
Module Act.
Record t := mk {
  id : string;
  action_type : string;
  version : string;
  timestamp : Z;
  tx_hash : string;
  account : string;
  asset_symbol : string;
  asset_address : string;
  amount : Q;
  amount_usd : Q;
  market_name : string
}.
End Act.

(** ** The pandas operations the program calls *)

Module Pandas.

Definition Qltb (x y : Q) : bool := negb (Qle_bool y x).

(** A bin edge: a finite number or [float("inf")]. *)
Inductive edge := Fin (q : Q) | Inf.

(** [e < x] for a finite value [x]. *)
Definition edge_ltb (e : edge) (x : Q) : bool :=
  match e with
  | Fin q => Qltb q x
  | Inf => false
  end.

(** [bins.searchsorted(x, side="left")] on increasing [bins]: the first
    index whose edge is not below [x]. *)
Fixpoint searchsorted_left (bins : list edge) (x : Q) : nat :=
  match bins with
  | [] => O
  | e :: rest => if edge_ltb e x then S (searchsorted_left rest x) else O
  end.

(** [pd.cut(x, bins=bins, labels=labels)] with the defaults [right=True],
    [include_lowest=False]: index 0 (at or below the first edge) and
    index [len(bins)] (above the last edge) give no category. *)
Definition cut (bins : list edge) (labels : list string) (x : Q)
  : option string :=
  match searchsorted_left bins x with
  | O => None
  | S i => if Nat.eqb (S i) (List.length bins) then None else nth_error labels i
  end.

(** [Series.sum()], [Series.mean()], [Series.max()] on a float column.
    The sum and the mean here are the exact ones; the float64 results of
    pandas differ from them by rounding, and no property rests on their
    arithmetic. The maximum is one of the values of the column. *)
Definition Qsum (l : list Q) : Q := fold_right Qplus 0%Q l.

Definition Qmean (l : list Q) : Q :=
  (Qsum l / inject_Z (Z.of_nat (List.length l)))%Q.

Definition Qmax2 (x y : Q) : Q := if Qle_bool x y then y else x.

Definition Qmax_list (d : Q) (l : list Q) : Q :=
  match l with
  | [] => d
  | x :: rest => fold_left Qmax2 rest x
  end.

Definition opt_string_eqb (a : option string) (b : string) : bool :=
  match a with
  | Some s => String.eqb s b
  | None => false
  end.

(** [Series.unique()]: the distinct values, in order of first appearance. *)
Fixpoint unique (l : list string) : list string :=
  match l with
  | [] => []
  | x :: rest => x :: filter (fun y => negb (String.eqb y x)) (unique rest)
  end.

(** [Series.nunique()]. *)
Definition nunique (l : list string) : nat := List.length (unique l).

(** Stable insertion sort: [x] goes in front of the first element that
    does not come strictly before it, so rows with equal keys keep their
    frame order. *)
Section StableSort.
Context {A : Type} (before : A -> A -> bool).

Fixpoint insert_sorted (x : A) (l : list A) : list A :=
  match l with
  | [] => [x]
  | y :: rest =>
    if before y x then y :: insert_sorted x rest else x :: y :: rest
  end.

Definition stable_sort (l : list A) : list A :=
  fold_right insert_sorted [] l.
End StableSort.

(** [sorted(strings)] and the key order of [groupby(..., sort=True)]. *)
Definition sorted_strings (l : list string) : list string :=
  stable_sort String.ltb l.

(** [df.sort_values(col, ascending=False)] on an integer column and on a
    float column. pandas hands the column to numpy's default argsort,
    which is not a stable sort: the rows come out with the larger keys
    first, and the order of rows with equal keys is not promised. The
    sort here is one sort of that kind, the one that keeps such rows in
    frame order; the properties of the functions that use it rest only on
    the result being a permutation of the table with the larger keys
    first. *)
Definition sort_values_desc_Z {A : Type} (col : A -> Z) (df : list A)
  : list A :=
  stable_sort (fun y x => Z.ltb (col x) (col y)) df.

Definition sort_values_desc_Q {A : Type} (col : A -> Q) (df : list A)
  : list A :=
  stable_sort (fun y x => Qltb (col x) (col y)) df.

(** [df.drop_duplicates(subset=[col], keep="last")]: a row stays iff no
    later row has the same key. *)
Fixpoint drop_duplicates_last {A : Type} (col : A -> string) (df : list A)
  : list A :=
  match df with
  | [] => []
  | x :: rest =>
    if existsb (fun y => String.eqb (col y) (col x)) rest
    then drop_duplicates_last col rest
    else x :: drop_duplicates_last col rest
  end.

(** [df.groupby(col)] with the default [sort=True]: one group per distinct
    key, groups in ascending key order, rows of a group in frame order. *)
Definition groupby {A : Type} (col : A -> string) (df : list A)
  : list (string * list A) :=
  map (fun k => (k, filter (fun r => String.eqb (col r) k) df))
      (sorted_strings (unique (map col df))).

(** [df.head(n)]: the first [n] rows, or all but the last [-n] rows when
    [n] is negative. *)
Definition head {A : Type} (n : Z) (df : list A) : list A :=
  if 0 <=? n then firstn (Z.to_nat n) df
  else firstn (List.length df - Z.to_nat (- n)) df.

End Pandas.

Import Pandas.

(** ** [src/data_processor.py] *)

Module DataProcessor.

Definition size_bins : list edge :=
  [Fin 0; Fin (1#10); Fin (1#2); Fin 1; Fin 5; Fin 10; Fin 50; Inf]%Q.

Definition size_labels : list string :=
  ["<0.1"; "0.1-0.5"; "0.5-1"; "1-5"; "5-10"; "10-50"; ">50"].

(** The [size_bracket] column that [get_size_distribution] adds. *)
Definition size_bracket (r : Liq.t) : option string :=
  cut size_bins size_labels (Liq.collateral_amount_btc r).

Record size_row := mk_size_row {
  sr_bracket : string;
  sr_count : nat;
  sr_total_btc : Q;
  sr_total_usd : Q
}.

(** [groupby("size_bracket", observed=True).agg(...)]: one row per
    category that occurs, in category order; rows without a category are
    dropped. *)
Definition size_group (df : list Liq.t) (label : string) : list Liq.t :=
  filter (fun r => opt_string_eqb (size_bracket r) label) df.

Definition get_size_distribution (df : list Liq.t) : list size_row :=
  match df with
  | [] => []
  | _ =>
    flat_map
      (fun label =>
         match size_group df label with
         | [] => []
         | g =>
           [mk_size_row label (List.length g)
              (Qsum (map Liq.collateral_amount_btc g))
              (Qsum (map Liq.collateral_amount_usd g))]
         end)
      size_labels
  end.

Record kpi := mk_kpi {
  total_liquidations : nat;
  total_btc : Q;
  total_usd : Q;
  unique_liquidators : nat;
  unique_liquidatees : nat;
  avg_liquidation_usd : Q;
  max_liquidation_usd : Q;
  v2_count : nat;
  v3_count : nat
}.

Definition get_kpi_metrics (df : list Liq.t) : kpi :=
  match df with
  | [] => mk_kpi 0 0 0 0 0 0 0 0 0
  | _ =>
    mk_kpi
      (List.length df)
      (Qsum (map Liq.collateral_amount_btc df))
      (Qsum (map Liq.collateral_amount_usd df))
      (nunique (map Liq.liquidator df))
      (nunique (map Liq.liquidatee df))
      (Qmean (map Liq.collateral_amount_usd df))
      (Qmax_list 0 (map Liq.collateral_amount_usd df))
      (List.length (filter (fun r => String.eqb (Liq.version r) "V2") df))
      (List.length (filter (fun r => String.eqb (Liq.version r) "V3") df))
  end.

Record top_row := mk_top_row {
  tr_address : string;
  tr_count : nat;
  tr_total_btc : Q;
  tr_total_usd : Q
}.

(** The top-N functions rank groups by a sum of floats, and the code leaves
    two things to pandas and numpy: how the float64 sum of a column rounds,
    and where [sort_values], whose default kind is not a stable sort, puts
    rows with equal totals. Both are taken as they come: [float_sum] is
    the sum of a float column as a function of its values in frame order,
    and [sort_by_total_usd] is [sort_values("total_usd", ascending=False)]
    on a table of groups. *)
Section TopN.
Variable float_sum : list Q -> Q.
Variable sort_by_total_usd : list top_row -> list top_row.

(** [.agg(count=("tx_hash","count"), total_btc=(...,"sum"),
    total_usd=(...,"sum"))] on one group; [tx_hash] is never null, so the
    count is the number of rows. *)
Definition agg_group (g : string * list Liq.t) : top_row :=
  mk_top_row (fst g) (List.length (snd g))
    (float_sum (map Liq.collateral_amount_btc (snd g)))
    (float_sum (map Liq.collateral_amount_usd (snd g))).

Definition get_top_liquidators (df : list Liq.t) (top_n : Z)
  : list top_row :=
  match df with
  | [] => []
  | _ =>
    let agg := map agg_group (groupby Liq.liquidator df) in
    head top_n (sort_by_total_usd agg)
  end.

Definition get_top_liquidatees (df : list Liq.t) (top_n : Z)
  : list top_row :=
  match df with
  | [] => []
  | _ =>
    let agg := map agg_group (groupby Liq.liquidatee df) in
    head top_n (sort_by_total_usd agg)
  end.
End TopN.

(** [filter_data]. A date is the number of its day since the epoch, and the
    [datetime] of a row is its [timestamp] read as UTC, so the start of a
    day is [86400 * day] and the end of the range is one second before the
    start of the day after its last day. A date range takes effect only
    when it has exactly two dates, a version list only when it is not
    empty. *)
Definition filter_data (df : list Liq.t) (date_range : option (list Z))
           (versions : option (list string)) (min_usd max_usd : option Q)
  : list Liq.t :=
  match df with
  | [] => df
  | _ =>
    let filtered := df in
    let filtered :=
      match date_range with
      | Some [d0; d1] =>
        let start := 86400 * d0 in
        let end_ := 86400 * d1 + 86400 - 1 in
        filter (fun r => (start <=? Liq.timestamp r)
                         && (Liq.timestamp r <=? end_)) filtered
      | _ => filtered
      end in
    let filtered :=
      match versions with
      | Some (v :: vs) =>
        filter (fun r => existsb (String.eqb (Liq.version r)) (v :: vs))
               filtered
      | _ => filtered
      end in
    let filtered :=
      match min_usd with
      | Some m =>
        filter (fun r => Qle_bool m (Liq.collateral_amount_usd r)) filtered
      | None => filtered
      end in
    let filtered :=
      match max_usd with
      | Some m =>
        filter (fun r => Qle_bool (Liq.collateral_amount_usd r) m) filtered
      | None => filtered
      end in
    filtered
  end.

End DataProcessor.

(** ** [src/queries.py]: the asset registry *)

Module Queries.

Definition WBTC_ADDRESS := "0x2260fac5e5542a773aa44fbcfedf7c193bc2c599".
Definition CBBTC_ADDRESS := "0xcbb7c0000ab88b473b1f5afd9ef808440eed33bf".

Record asset_config := mk_asset_config {
  address : string;
  symbol : string;
  name : string;
  decimals : Z;
  subgraphs : list string
}.

Definition ASSETS : list (string * asset_config) :=
  [ ("wbtc", mk_asset_config WBTC_ADDRESS "wBTC" "Wrapped BTC" 8 ["V2"; "V3"]);
    ("cbbtc",
     mk_asset_config CBBTC_ADDRESS "cbBTC" "Coinbase Wrapped BTC" 8 ["V3"]) ].

(** [None] is the [KeyError] raised for an unknown key. *)
Definition get_asset_config (asset_key : string) : option asset_config :=
  option_map snd
    (find (fun kv => String.eqb (fst kv) asset_key) ASSETS).

End Queries.

(** ** [src/behavior_analyzer.py] *)

Module BehaviorAnalyzer.

(** One row of the classified table: the liquidation's own columns and
    the derived ones. *)
Record classified := mk_classified {
  liq : Liq.t;
  behavior : string;
  deposit_count : nat;
  repay_count : nat;
  deposit_usd : Q;
  repay_usd : Q;
  deposit_assets : string;
  deposited_collateral : bool;
  hours_before_last_action : option Q
}.

(** The rows [actions_df[(account == ...) & (timestamp >= ts_from) &
    (timestamp <= liq_ts)]]. *)
Definition user_actions (actions_df : list Act.t) (account : string)
           (ts_from liq_ts : Z) : list Act.t :=
  filter
    (fun a =>
       String.eqb (Act.account a) account
       && (ts_from <=? Act.timestamp a)
       && (Act.timestamp a <=? liq_ts))
    actions_df.

Definition of_type (ty : string) (acts : list Act.t) : list Act.t :=
  filter (fun a => String.eqb (Act.action_type a) ty) acts.

Definition Zmax_list (d : Z) (l : list Z) : Z :=
  match l with
  | [] => d
  | x :: rest => fold_left Z.max rest x
  end.

(** The body of the [for _, liq in big.iterrows()] loop. *)
Definition classify_row (actions_df : list Act.t) (target_address : string)
           (window_seconds : Z) (l : Liq.t) : classified :=
  let account := Liq.liquidatee l in
  let liq_ts := Liq.timestamp l in
  let ts_from := liq_ts - window_seconds in
  let ua := user_actions actions_df account ts_from liq_ts in
  let deposits := of_type "deposit" ua in
  let repays := of_type "repay" ua in
  let has_deposit := Nat.ltb 0 (List.length deposits) in
  let has_repay := Nat.ltb 0 (List.length repays) in
  mk_classified l
    (if has_deposit && has_repay then "Deposit + Repay"
     else if has_deposit then "Deposit Only"
     else if has_repay then "Repay Only"
     else "Passive")
    (List.length deposits)
    (List.length repays)
    (if has_deposit then Qsum (map Act.amount_usd deposits) else 0%Q)
    (if has_repay then Qsum (map Act.amount_usd repays) else 0%Q)
    (if has_deposit
     then String.concat ", "
            (sorted_strings (unique (map Act.asset_symbol deposits)))
     else "")
    (if has_deposit
     then existsb (String.eqb target_address) (map Act.asset_address deposits)
     else false)
    (if Nat.ltb 0 (List.length ua)
     then Some (inject_Z (liq_ts - Zmax_list 0 (map Act.timestamp ua))
                / 3600)%Q
     else None).

(** The row written on the [actions_df.empty] path. *)
Definition passive_row (l : Liq.t) : classified :=
  mk_classified l "Passive" 0 0 0 0 "" false None.

(** [None] is the [KeyError] of [get_asset_config]. *)
Definition classify_users (liq_df : list Liq.t) (actions_df : list Act.t)
           (asset_key : string) (min_wbtc : Q) (window_hours : Z)
  : option (list classified) :=
  match Queries.get_asset_config asset_key with
  | None => None
  | Some config =>
    let target_address := Queries.address config in
    let big :=
      filter (fun l => Qle_bool min_wbtc (Liq.collateral_amount_btc l))
             liq_df in
    match actions_df with
    | [] => Some (map passive_row big)
    | _ =>
      let window_seconds := window_hours * 3600 in
      Some (map (classify_row actions_df target_address window_seconds) big)
    end
  end.

Definition behavior_bins : list edge := [Fin 1; Fin 5; Fin 10; Fin 50; Inf]%Q.

Definition behavior_labels : list string :=
  ["1-5 BTC"; "5-10 BTC"; "10-50 BTC"; ">50 BTC"].

(** The [size_bracket] column that [get_behavior_by_size] adds. *)
Definition size_bracket (c : classified) : option string :=
  cut behavior_bins behavior_labels (Liq.collateral_amount_btc (liq c)).

Record by_size_row := mk_by_size_row {
  bs_bracket : string;
  bs_behavior : string;
  bs_count : nat
}.

(** [groupby(["size_bracket", "behavior"], observed=True).size()]: one row
    per pair that occurs, brackets in category order and behaviours in
    ascending order within a bracket; rows without a bracket are
    dropped. *)
Definition get_behavior_by_size (classified_df : list classified)
  : list by_size_row :=
  match classified_df with
  | [] => []
  | _ =>
    flat_map
      (fun label =>
         let g :=
           filter (fun c => opt_string_eqb (size_bracket c) label)
                  classified_df in
         map (fun b =>
                mk_by_size_row label b
                  (List.length
                     (filter (fun c => String.eqb (behavior c) b) g)))
             (sorted_strings (unique (map behavior g))))
      behavior_labels
  end.

(** The dict of [get_behavior_summary]. An average over no rows is NaN,
    here [None]. The typed table always has the [deposited_collateral]
    column, so the fallbacks for tables without it do not arise. *)
Record summary := mk_summary {
  sm_total : nat;
  sm_passive : nat;
  sm_deposit_only : nat;
  sm_repay_only : nat;
  sm_both : nat;
  sm_pct_tried_save : Q;
  sm_deposited_collateral_count : nat;
  sm_avg_deposit_usd : option Q;
  sm_avg_repay_usd : option Q
}.

Definition count_behavior (b : string) (classified_df : list classified)
  : nat :=
  List.length (filter (fun c => String.eqb (behavior c) b) classified_df).

(** [Series.mean()] of the positive values of a column. *)
Definition mean_of_positive (col : list Q) : option Q :=
  match filter (fun x => Qltb 0 x) col with
  | [] => None
  | positive => Some (Qmean positive)
  end.

(** [None] is the empty dict returned for an empty table. *)
Definition get_behavior_summary (classified_df : list classified)
  : option summary :=
  match classified_df with
  | [] => None
  | _ =>
    let total := List.length classified_df in
    Some (mk_summary
            total
            (count_behavior "Passive" classified_df)
            (count_behavior "Deposit Only" classified_df)
            (count_behavior "Repay Only" classified_df)
            (count_behavior "Deposit + Repay" classified_df)
            (inject_Z (Z.of_nat total
                       - Z.of_nat (count_behavior "Passive" classified_df))
             / inject_Z (Z.of_nat total) * 100)%Q
            (List.length (filter deposited_collateral classified_df))
            (mean_of_positive (map deposit_usd classified_df))
            (mean_of_positive (map repay_usd classified_df)))
  end.

Record breakdown_row := mk_breakdown_row {
  bd_asset_symbol : string;
  bd_count : nat;
  bd_total_usd : Q;
  bd_unique_users : nat
}.

(** [get_deposit_asset_breakdown]. On a classified table without rows the
    source may find no [liquidatee] column to read; the page stops before
    the call in that case, and the properties below take a table with
    rows. *)
Definition get_deposit_asset_breakdown (classified_df : list classified)
           (actions_df : list Act.t) : list breakdown_row :=
  match actions_df with
  | [] => []
  | _ =>
    let deposits :=
      filter (fun a => String.eqb (Act.action_type a) "deposit") actions_df in
    match deposits with
    | [] => []
    | _ =>
      let big_users :=
        unique (map (fun c => Liq.liquidatee (liq c)) classified_df) in
      let user_deposits :=
        filter (fun a => existsb (String.eqb (Act.account a)) big_users)
               deposits in
      sort_values_desc_Q bd_total_usd
        (map (fun g =>
                mk_breakdown_row (fst g)
                  (List.length (snd g))
                  (Qsum (map Act.amount_usd (snd g)))
                  (nunique (map Act.account (snd g))))
             (groupby Act.asset_symbol user_deposits))
    end
  end.

End BehaviorAnalyzer.

(** ** The upstream endpoint *)

Module Upstream.

(** A raw record is the JSON object the endpoint returns, a Python dict. *)
#[warnings="-register-all"]
Inductive json :=
| JStr (s : string)
| JObj (fields : list (string * json)).

Definition raw := list (string * json).

(** [d[k] = v]: an existing key keeps its place, a new key goes last. *)
Fixpoint dict_set (k : string) (v : json) (d : raw) : raw :=
  match d with
  | [] => [(k, v)]
  | (k', v') :: rest =>
    if String.eqb k' k then (k, v) :: rest
    else (k', v') :: dict_set k v rest
  end.

Definition dict_get {V : Type} (k : string) (d : list (string * V))
  : option V :=
  option_map snd (find (fun kv => String.eqb (fst kv) k) d).

(** The decoded body of a successful response: whether it carries an
    ["errors"] member, and its ["data"] member (empty when absent), which
    maps entity names to pages of records. *)
Record body := mk_body {
  has_errors : bool;
  data : list (string * list raw)
}.

(** What one [requests.post] gives: a [RequestException] (from the call or
    from [raise_for_status]), or a decoded body. *)
Inductive reply :=
| RequestException
| Json (b : body).

(** What the fetch does to the outside: posts with their [first] and
    [skip] variables, and sleeps. *)
Inductive event :=
| Post (first skip : Z)
| Sleep (seconds : Q).

(** The outcome of a fetch: the records returned, the trace of posts and
    sleeps, and the replies not consumed. *)
Record run := mk_run {
  returned : list raw;
  trace : list event;
  unread : list reply
}.

Definition MAX_RETRIES : Z := 3.
Definition BATCH_SIZE : Z := 1000.

(** The loop both fetchers run: [while True] over pages with the
    [for attempt in range(1, MAX_RETRIES + 1)] loop inside, as one
    recursion on the replies of the endpoint, one reply per post. The
    state is the attempt number, [skip] and the accumulated list. [None]
    means the replies ran out while the loop was still posting. *)
Section Paginate.
Variable RATE_LIMIT_DELAY : Q.
(** The page taken from a body. *)
Variable extract : body -> list raw.
(** What is done to each record of a page before it is accumulated. *)
Variable tag : raw -> raw.

Fixpoint paginate (replies : list reply) (attempt skip : Z)
         (acc : list raw) (log : list event) : option run :=
  match replies with
  | [] => None
  | r :: rest =>
    let log := log ++ [Post BATCH_SIZE skip] in
    match r with
    | RequestException =>
      if attempt =? MAX_RETRIES then Some (mk_run acc log rest)
      else
        paginate rest (attempt + 1) skip acc
          (log ++ [Sleep (RATE_LIMIT_DELAY * inject_Z attempt)])
    | Json b =>
      if has_errors b then Some (mk_run acc log rest)
      else
        match extract b with
        | [] => Some (mk_run acc log rest)
        | page =>
          let acc := acc ++ map tag page in
          if Z.of_nat (List.length page) <? BATCH_SIZE
          then Some (mk_run acc log rest)
          else
            paginate rest 1 (skip + BATCH_SIZE) acc
              (log ++ [Sleep RATE_LIMIT_DELAY])
        end
    end
  end.
End Paginate.

Definition posts (log : list event) : list Z :=
  flat_map (fun e => match e with Post _ skip => [skip] | Sleep _ => [] end)
           log.

(** Reading a raw record. [None] stands for an exception: a missing member
    ([KeyError]), a member that is not of the JSON kind the access needs,
    or a number that [int] or [float] rejects. *)
Definition as_str (j : json) : option string :=
  match j with
  | JStr s => Some s
  | JObj _ => None
  end.

Definition as_obj (j : json) : option raw :=
  match j with
  | JStr _ => None
  | JObj fields => Some fields
  end.

Definition bind {A B : Type} (c : option A) (k : A -> option B) : option B :=
  match c with
  | Some x => k x
  | None => None
  end.

Notation "x <- c ;; k" := (bind c (fun x => k))
  (at level 61, c at next level, right associativity).

(** [d[k1][k2]]. *)
Definition member2 (k1 k2 : string) (d : raw) : option json :=
  o <- dict_get k1 d ;; fields <- as_obj o ;; dict_get k2 fields.

(** Each element through a function that may fail, in order; the first
    failure fails the whole. *)
Fixpoint traverse {A B : Type} (f : A -> option B) (l : list A)
  : option (list B) :=
  match l with
  | [] => Some []
  | x :: rest => y <- f x ;; ys <- traverse f rest ;; Some (y :: ys)
  end.

(** [datetime.utcfromtimestamp(ts)]: the datetime is told by [ts]; [None]
    is the exception raised for a time outside the years 1 to 9999 (with
    a C library that takes times before 1970, as on Linux). *)
Definition utcfromtimestamp (ts : Z) : option Z :=
  if (-62135596800 <=? ts) && (ts <=? 253402300799) then Some ts else None.

End Upstream.

Import Upstream.

(** ** [src/fetcher.py] *)

Module Fetcher.

Definition RATE_LIMIT_DELAY : Q := 1 # 2.

(** [data.get("data", {}).get("liquidates", [])]. *)
Definition liquidates (b : body) : list raw :=
  match dict_get "liquidates" (data b) with
  | Some page => page
  | None => []
  end.

(** The endpoint is given by the replies it makes; [timestamp_from] and
    [asset_address] only travel in the request. Each record of a page gets
    [liq["version"] = version]. *)
Definition _fetch_liquidations_from_endpoint (endpoint : list reply)
           (version : string) : option run :=
  paginate RATE_LIMIT_DELAY liquidates (dict_set "version" (JStr version))
           endpoint 1 0 [] [].

(** [update_data] after [load_parquet] has given [existing] and
    [fetch_all_liquidations] has given [new_df]: the table that is saved
    and returned. *)
Definition update_data (existing new_df : list Liq.t) : list Liq.t :=
  match existing with
  | [] => new_df
  | _ =>
    match new_df with
    | [] => existing
    | _ =>
      let combined := existing ++ new_df in
      let combined := drop_duplicates_last Liq.id combined in
      sort_values_desc_Z Liq.timestamp combined
    end
  end.

Section Normalizer.
(** Python's [int] and [float] on a JSON scalar, [None] where they raise. *)
Variable py_int : json -> option Z.
Variable py_float : json -> option Q.

(** The body of the loop of [_raw_to_dataframe]: one row from one raw
    record. The [datetime] of the row is a function of [ts] and is not
    kept as a column, but the row is made only if it can be computed. *)
Definition liquidation_row (liq : raw) : option Liq.t :=
  decimals <- (j <- member2 "asset" "decimals" liq ;; py_int j) ;;
  amount <- dict_get "amount" liq ;;
  amount_f <- py_float amount ;;
  let amount_btc := (amount_f / (10 ^ decimals))%Q in
  ts <- (j <- dict_get "timestamp" liq ;; py_int j) ;;
  id <- (j <- dict_get "id" liq ;; as_str j) ;;
  version <- (j <- dict_get "version" liq ;; as_str j) ;;
  datetime <- utcfromtimestamp ts ;;
  block_number <- (j <- dict_get "blockNumber" liq ;; py_int j) ;;
  tx_hash <- (j <- dict_get "hash" liq ;; as_str j) ;;
  liquidator <- (j <- member2 "liquidator" "id" liq ;; as_str j) ;;
  liquidatee <- (j <- member2 "liquidatee" "id" liq ;; as_str j) ;;
  asset_symbol <- (j <- member2 "asset" "symbol" liq ;; as_str j) ;;
  asset_address <- (j <- member2 "asset" "id" liq ;; as_str j) ;;
  amount_raw <- as_str amount ;;
  amount_usd <- match dict_get "amountUSD" liq with
                | Some j => py_float j
                | None => Some 0%Q
                end ;;
  market_name <- (j <- member2 "market" "name" liq ;; as_str j) ;;
  market_address <- (j <- member2 "market" "id" liq ;; as_str j) ;;
  Some (Liq.mk id version ts block_number tx_hash liquidator liquidatee
               asset_symbol asset_address amount_raw amount_btc amount_usd
               market_name market_address).

Definition _raw_to_dataframe (raw_liquidations : list raw)
  : option (list Liq.t) :=
  rows <- traverse liquidation_row raw_liquidations ;;
  match rows with
  | [] => Some []
  | _ =>
    let df :=
      filter (fun r => Qltb 0 (Liq.collateral_amount_btc r)) rows in
    Some (sort_values_desc_Z Liq.timestamp df)
  end.

(** [fetch_all_liquidations], with the two subgraph endpoints given by
    their replies. [None]: the asset key is unknown, a record does not
    normalise, or the replies of an endpoint ran out. *)
Definition fetch_all_liquidations (asset_key : string)
           (v2_endpoint v3_endpoint : list reply) : option (list Liq.t) :=
  config <- Queries.get_asset_config asset_key ;;
  let all_raw := [] in
  all_raw <-
    (if existsb (String.eqb "V2") (Queries.subgraphs config)
     then
       v2 <- _fetch_liquidations_from_endpoint v2_endpoint "V2" ;;
       Some (all_raw ++ returned v2)
     else Some all_raw) ;;
  all_raw <-
    (if existsb (String.eqb "V3") (Queries.subgraphs config)
     then
       v3 <- _fetch_liquidations_from_endpoint v3_endpoint "V3" ;;
       Some (all_raw ++ returned v3)
     else Some all_raw) ;;
  _raw_to_dataframe all_raw.
End Normalizer.

(** The data directory: the table stored under each file name, if any.
    Tables are typed, so the renaming of the legacy amount column on
    reading does not show. *)
Definition data_dir := string -> option (list Liq.t).

Definition write_file (path : string) (df : list Liq.t) (fs : data_dir)
  : data_dir :=
  fun p => if String.eqb p path then Some df else fs p.

(** The file of an asset, told by its name in [DATA_DIR]. For the keys of
    the registry, which have no path separators in them, the name is the
    path: two of them give two files. *)
Definition _parquet_path (asset_key : string) : string :=
  asset_key ++ "_liquidations.parquet".

Definition legacy_path : string := "liquidations.parquet".

Definition path_or (path : option string) (asset_key : string) : string :=
  match path with
  | Some p => p
  | None => _parquet_path asset_key
  end.

(** [save_parquet]: the directory after the write, and the path written. *)
Definition save_parquet (df : list Liq.t) (asset_key : string)
           (path : option string) (fs : data_dir) : data_dir * string :=
  let path := path_or path asset_key in
  (write_file path df fs, path).

(** [load_parquet]: the directory after the call (the migration of the
    legacy file writes) and the table read, empty when there is no file. *)
Definition load_parquet (asset_key : string) (path : option string)
           (fs : data_dir) : data_dir * list Liq.t :=
  let path := path_or path asset_key in
  let migrated :=
    match fs path with
    | None =>
      if String.eqb asset_key "wbtc"
      then match fs legacy_path with
           | Some df => Some (write_file path df fs, df)
           | None => None
           end
      else None
    | Some _ => None
    end in
  match migrated with
  | Some out => out
  | None =>
    match fs path with
    | None => (fs, [])
    | Some df => (fs, df)
    end
  end.

(** [update_data] as a whole, the fetch given by its table: the directory
    after the run and the table returned. *)
Definition update_data_run (asset_key : string) (new_df : list Liq.t)
           (fs : data_dir) : data_dir * list Liq.t :=
  let (fs, existing) := load_parquet asset_key None fs in
  let combined := update_data existing new_df in
  let (fs, _) := save_parquet combined asset_key None fs in
  (fs, combined).

End Fetcher.

(** ** [src/user_behavior_fetcher.py] *)

Module UserBehaviorFetcher.

Definition RATE_LIMIT_DELAY : Q := 3 # 10.

(** The first of ["deposits"], ["repays"] that the data has. *)
Definition events (b : body) : list raw :=
  match dict_get "deposits" (data b) with
  | Some page => page
  | None =>
    match dict_get "repays" (data b) with
    | Some page => page
    | None => []
    end
  end.

Definition _fetch_user_events (endpoint : list reply) : option run :=
  paginate RATE_LIMIT_DELAY events (fun ev => ev) endpoint 1 0 [] [].

Section Normalizer.
(** Python's [int] and [float] on a JSON scalar, [None] where they raise. *)
Variable py_int : json -> option Z.
Variable py_float : json -> option Q.

(** The body of the loop of [_parse_events]. *)
Definition action_row (action_type version : string) (ev : raw)
  : option Act.t :=
  decimals <- (j <- member2 "asset" "decimals" ev ;; py_int j) ;;
  amount <- (j <- dict_get "amount" ev ;; py_float j) ;;
  let amount := (amount / (10 ^ decimals))%Q in
  ts <- (j <- dict_get "timestamp" ev ;; py_int j) ;;
  id <- (j <- dict_get "id" ev ;; as_str j) ;;
  datetime <- utcfromtimestamp ts ;;
  tx_hash <- (j <- dict_get "hash" ev ;; as_str j) ;;
  account <- (j <- member2 "account" "id" ev ;; as_str j) ;;
  asset_symbol <- (j <- member2 "asset" "symbol" ev ;; as_str j) ;;
  asset_address <- (j <- member2 "asset" "id" ev ;; as_str j) ;;
  amount_usd <- match dict_get "amountUSD" ev with
                | Some j => py_float j
                | None => Some 0%Q
                end ;;
  market_name <- (j <- member2 "market" "name" ev ;; as_str j) ;;
  Some (Act.mk id action_type version ts tx_hash account asset_symbol
               asset_address amount amount_usd market_name).

Definition _parse_events (raw_events : list raw)
           (action_type version : string) : option (list Act.t) :=
  traverse (action_row action_type version) raw_events.
End Normalizer.

(** The subgraph endpoints as [fetch_user_actions] meets them: the replies
    to one fetch, told by the version of the subgraph, the query (deposits
    or repays), the account and the time bounds of the request. *)
Definition endpoints := string -> string -> string -> Z -> Z -> list reply.

Definition Zmin_list (d : Z) (l : list Z) : Z :=
  match l with
  | [] => d
  | x :: rest => fold_left Z.min rest x
  end.

(** One row of [big.groupby(["liquidatee", "version"]).agg(min_ts, max_ts)]. *)
Record user_group := mk_user_group {
  ug_liquidatee : string;
  ug_version : string;
  ug_min_ts : Z;
  ug_max_ts : Z
}.

(** The groups in ascending order of liquidatee, then version. *)
Definition user_groups (big : list Liq.t) : list user_group :=
  flat_map
    (fun by_user =>
       map (fun by_version =>
              mk_user_group (fst by_user) (fst by_version)
                (Zmin_list 0 (map Liq.timestamp (snd by_version)))
                (BehaviorAnalyzer.Zmax_list
                   0 (map Liq.timestamp (snd by_version))))
           (groupby Liq.version (snd by_user)))
    (groupby Liq.liquidatee big).

Section FetchUserActions.
Variable py_int : json -> option Z.
Variable py_float : json -> option Q.
Variable endpoint : endpoints.

(** The loop over the groups: [all_rows] grows by the deposits and the
    repays of each group whose version has an endpoint. *)
Fixpoint fetch_groups (v2_endpoint v3_endpoint : bool) (window_seconds : Z)
         (groups : list user_group) (all_rows : list Act.t)
  : option (list Act.t) :=
  match groups with
  | [] => Some all_rows
  | row :: rest =>
    let account := ug_liquidatee row in
    let version := ug_version row in
    let ts_from := ug_min_ts row - window_seconds in
    let ts_to := ug_max_ts row in
    if (String.eqb version "V3" && v3_endpoint)
       || (String.eqb version "V2" && v2_endpoint)
    then
      raw_deposits <-
        _fetch_user_events (endpoint version "deposit" account ts_from ts_to) ;;
      deposits <-
        _parse_events py_int py_float (returned raw_deposits)
                      "deposit" version ;;
      let all_rows := all_rows ++ deposits in
      raw_repays <-
        _fetch_user_events (endpoint version "repay" account ts_from ts_to) ;;
      repays <-
        _parse_events py_int py_float (returned raw_repays) "repay" version ;;
      let all_rows := all_rows ++ repays in
      fetch_groups v2_endpoint v3_endpoint window_seconds rest all_rows
    else fetch_groups v2_endpoint v3_endpoint window_seconds rest all_rows
  end.

(** [None]: the asset key is unknown, an event does not parse, or the
    replies to a fetch ran out. *)
Definition fetch_user_actions (liquidations_df : list Liq.t)
           (asset_key : string) (min_wbtc : Q) (window_hours : Z)
  : option (list Act.t) :=
  config <- Queries.get_asset_config asset_key ;;
  let window_seconds := window_hours * 3600 in
  let big :=
    filter (fun l => Qle_bool min_wbtc (Liq.collateral_amount_btc l))
           liquidations_df in
  let v2_endpoint := existsb (String.eqb "V2") (Queries.subgraphs config) in
  let v3_endpoint := existsb (String.eqb "V3") (Queries.subgraphs config) in
  all_rows <-
    fetch_groups v2_endpoint v3_endpoint window_seconds (user_groups big) [] ;;
  match all_rows with
  | [] => Some []
  | _ =>
    let df := drop_duplicates_last Act.id all_rows in
    Some (sort_values_desc_Z Act.timestamp df)
  end.
End FetchUserActions.

End UserBehaviorFetcher.

(** * Vocabulary of the properties *)

Import DataProcessor.
Import BehaviorAnalyzer.
Import Fetcher.

(** The brackets as the specification words them: closed on the left,
    open on the right. *)
Definition half_open_bracket (v : Q) : option string :=
  if Qltb v 0 then None
  else if Qltb v (1#10) then Some "<0.1"
  else if Qltb v (1#2) then Some "0.1-0.5"
  else if Qltb v 1 then Some "0.5-1"
  else if Qltb v 5 then Some "1-5"
  else if Qltb v 10 then Some "5-10"
  else if Qltb v 50 then Some "10-50"
  else Some ">50".

(** A liquidation of a given size, for examples. *)
Definition liq_of_size (v : Q) : Liq.t :=
  Liq.mk "L1" "V3" 1000 1 "0xh" "0xA" "0xAA" "WBTC" Queries.WBTC_ADDRESS "0"
         v 0 "Aave" "0xm".

(** The liquidations the classifier keeps. *)
Definition qualifying (min_wbtc : Q) (liq_df : list Liq.t) : list Liq.t :=
  filter (fun l => Qle_bool min_wbtc (Liq.collateral_amount_btc l)) liq_df.

(** Sample data: a liquidation at time 1000 and two actions in its window. *)
Definition liq_L1 : Liq.t :=
  Liq.mk "L1" "V3" 1000 1 "0xh1" "0xA" "0xAA" "WBTC" Queries.WBTC_ADDRESS
         "200000000" 2 80000 "Aave" "0xm".

Definition act_A1 : Act.t :=
  Act.mk "A1" "deposit" "V3" 980 "0xh2" "0xAA" "WBTC" Queries.WBTC_ADDRESS
         1 5000 "Aave".

Definition act_A2 : Act.t :=
  Act.mk "A2" "repay" "V3" 950 "0xh3" "0xAA" "USDC" "0xusdc" 1000 1000 "Aave".

(** The four behaviour labels. *)
Definition behaviors : list string :=
  ["Passive"; "Deposit Only"; "Repay Only"; "Deposit + Repay"].

(** The label that goes with what the window holds. *)
Definition matches_window (deposits repays : list Act.t) (b : string) : Prop :=
  (deposits <> [] /\ repays <> [] -> b = "Deposit + Repay")
  /\ (deposits <> [] /\ repays = [] -> b = "Deposit Only")
  /\ (deposits = [] /\ repays <> [] -> b = "Repay Only")
  /\ (deposits = [] /\ repays = [] -> b = "Passive").

(** The window of liquidation [l] holds an action of type [ty]: a row of
    the action table for the liquidatee, of that type, not more than
    [window_hours] before the liquidation and not after it. *)
Definition window_has (actions_df : list Act.t) (window_hours : Z)
           (l : Liq.t) (ty : string) : Prop :=
  exists a,
    In a actions_df
    /\ Act.account a = Liq.liquidatee l
    /\ Liq.timestamp l - window_hours * 3600 <= Act.timestamp a
       <= Liq.timestamp l
    /\ Act.action_type a = ty.

(** The label that goes with the presence of deposits and of repays. *)
Definition label_for (has_deposit has_repay : Prop) (b : string) : Prop :=
  (b = "Deposit + Repay" <-> has_deposit /\ has_repay)
  /\ (b = "Deposit Only" <-> has_deposit /\ ~ has_repay)
  /\ (b = "Repay Only" <-> ~ has_deposit /\ has_repay)
  /\ (b = "Passive" <-> ~ has_deposit /\ ~ has_repay).

(** A table sorted by an integer column, largest first. *)
Definition descending {A : Type} (col : A -> Z) : list A -> Prop :=
  StronglySorted (fun a b => col b <= col a).

(** The last row of a table with a given key. *)
Definition last_with {A : Type} (col : A -> string) (k : string)
           (df : list A) : option A :=
  find (fun y => String.eqb (col y) k) (rev df).

(** A record with id ["X"], a timestamp and an amount. *)
Definition rec_X (ts : Z) (amount : Q) : Liq.t :=
  Liq.mk "X" "V3" ts 1 "0xh" "0xA" "0xAA" "WBTC" Queries.WBTC_ADDRESS "0"
         amount 0 "Aave" "0xm".

(** The trace of a fetch that gets [n] pages which do not stop it and then
    one that does, starting at offset [skip]: a post per page, a sleep
    after each page but the last. *)
Fixpoint page_trace (delay : Q) (skip : Z) (n : nat) : list event :=
  match n with
  | O => [Post BATCH_SIZE skip]
  | S n' =>
    Post BATCH_SIZE skip :: Sleep delay
         :: page_trace delay (skip + BATCH_SIZE) n'
  end.

(** The offsets [0, BATCH_SIZE, 2 * BATCH_SIZE, ...] of [n + 1] posts. *)
Definition offsets (n : nat) : list Z :=
  map (fun i => BATCH_SIZE * Z.of_nat i) (seq 0 (S n)).

(** A body without an error list whose page does not stop the loop, and
    one whose page does. *)
Definition full (extract : body -> list raw) (b : body) : Prop :=
  has_errors b = false /\ BATCH_SIZE <= Z.of_nat (List.length (extract b)).

Definition short (extract : body -> list raw) (b : body) : Prop :=
  has_errors b = false /\ Z.of_nat (List.length (extract b)) < BATCH_SIZE.

Definition liquidates_page (n : nat) : body :=
  mk_body false [("liquidates", repeat [("id", JStr "L")] n)].

(** A page of [n] events under the given entity name. *)
Definition events_page (key : string) (n : nat) : body :=
  mk_body false [(key, repeat [("id", JStr "E")] n)].

(** The page a body holds for each fetcher, read off its data. The data
    has [page] under [key], or has no such member and the page is empty. *)
Definition member_or_empty (key : string) (d : list (string * list raw))
           (page : list raw) : Prop :=
  dict_get key d = Some page \/ (dict_get key d = None /\ page = []).

(** A body without an error list whose page for the liquidation fetch is
    [page]: the member ["liquidates"] of its data. *)
Definition holds_liquidations (b : body) (page : list raw) : Prop :=
  has_errors b = false /\ member_or_empty "liquidates" (data b) page.

(** A body without an error list whose page for the user-events fetch is
    [page]: the member ["deposits"] of its data when there is one, the
    member ["repays"] otherwise. *)
Definition holds_events (b : body) (page : list raw) : Prop :=
  has_errors b = false
  /\ (dict_get "deposits" (data b) = Some page
      \/ (dict_get "deposits" (data b) = None
          /\ member_or_empty "repays" (data b) page)).

(** A page that does not stop the loop, and one that does. *)
Definition full_page (page : list raw) : Prop :=
  BATCH_SIZE <= Z.of_nat (List.length page).

Definition short_page (page : list raw) : Prop :=
  Z.of_nat (List.length page) < BATCH_SIZE.

(** Strictly ascending order of strings. *)
Definition ascending : list string -> Prop :=
  StronglySorted (fun a b => String.ltb a b = true).

(** What [sort_values(col, ascending=False)] promises whatever it does
    with equal keys: the rows of the table, those with the larger [col]
    first. *)
Definition sorts_descending {A : Type} (col : A -> Q)
           (sort : list A -> list A) : Prop :=
  forall df,
    Permutation (sort df) df
    /\ StronglySorted (fun a b => (col b <= col a)%Q) (sort df).

(** Two sorts within that promise: one leaves rows with equal totals in
    frame order, the other turns them round. *)
Definition ties_in_order (df : list top_row) : list top_row :=
  sort_values_desc_Q tr_total_usd df.

Definition ties_reversed (df : list top_row) : list top_row :=
  sort_values_desc_Q tr_total_usd (rev df).

(** The row of the ranking for one address: the number of its records and
    the sums of their amounts, taken in frame order. *)
Definition group_row (float_sum : list Q -> Q) (col : Liq.t -> string)
           (df : list Liq.t) (address : string) : top_row :=
  let g := filter (fun r => String.eqb (col r) address) df in
  mk_top_row address (List.length g)
    (float_sum (map Liq.collateral_amount_btc g))
    (float_sum (map Liq.collateral_amount_usd g)).

(** [ranked] is a full ranking of [df] by the address column [col]: one row
    for each address of the table, the larger total USD first. *)
Definition ranking (float_sum : list Q -> Q) (col : Liq.t -> string)
           (df : list Liq.t) (ranked : list top_row) : Prop :=
  (forall row, In row ranked <->
               In (tr_address row) (map col df)
               /\ row = group_row float_sum col df (tr_address row))
  /\ NoDup (map tr_address ranked)
  /\ StronglySorted
       (fun a b => (tr_total_usd b <= tr_total_usd a)%Q) ranked.

(** Two tables with the same rows for each address, in the same order:
    they differ at most in how the rows of different addresses follow one
    another. *)
Definition same_groups (col : Liq.t -> string) (df df' : list Liq.t)
  : Prop :=
  forall address,
    filter (fun r => String.eqb (col r) address) df'
    = filter (fun r => String.eqb (col r) address) df.

(** A liquidation by a given liquidator, of a given USD value. *)
Definition liq_by (liquidator : string) (usd : Q) : Liq.t :=
  Liq.mk "L" "V3" 1000 1 "0xh" liquidator "0xAA" "WBTC" Queries.WBTC_ADDRESS
         "100000000" 1 usd "Aave" "0xm".

(** The ranking with rows of equal totals left in the order in which their
    addresses first occur in the input table, as the specification words
    it. *)
Definition top_n_input_order (float_sum : list Q -> Q)
           (col : Liq.t -> string) (df : list Liq.t) (top_n : nat)
  : list top_row :=
  firstn top_n
    (sort_values_desc_Q tr_total_usd
       (map (group_row float_sum col df) (unique (map col df)))).

(** Sorted by [before], and by [S] between rows that [before] does not
    separate. *)
Definition sorted_then {A : Type} (before : A -> A -> bool)
           (S : A -> A -> Prop) (a b : A) : Prop :=
  before b a = false /\ (before a b = true \/ S a b).

(** * Vocabulary of the further properties *)

(** What a reply adds to the result of a fetch: the page of a body without
    an error list, nothing otherwise. *)
Definition page_of (extract : body -> list raw) (r : reply) : list raw :=
  match r with
  | RequestException => []
  | Json b => if has_errors b then [] else extract b
  end.

(** What a reply adds to the result of a fetch, [holds] telling the page
    of an error-free body: nothing for a failure or for a body with an
    error list. *)
Definition reply_gives (holds : body -> list raw -> Prop) (r : reply)
           (page : list raw) : Prop :=
  match r with
  | RequestException => page = []
  | Json b => if has_errors b then page = [] else holds b page
  end.

(** A body delivered after [k] failed attempts. *)
Definition retried (k : nat) (b : body) : list reply :=
  repeat RequestException k ++ [Json b].

(** A reply after which the loop posts again: a failure or a full page. *)
Definition goes_on (extract : body -> list raw) (r : reply) : Prop :=
  match r with
  | RequestException => True
  | Json b => full extract b
  end.

(** The trace of [n] pages that do not stop the loop, from offset [skip]. *)
Fixpoint full_trace (delay : Q) (skip : Z) (n : nat) : list event :=
  match n with
  | O => []
  | S n' =>
    Post BATCH_SIZE skip :: Sleep delay
         :: full_trace delay (skip + BATCH_SIZE) n'
  end.

(** The trace of [k] failed attempts at offset [skip], the first of them
    being attempt number [attempt]. *)
Fixpoint retry_trace (delay : Q) (skip attempt : Z) (k : nat) : list event :=
  match k with
  | O => []
  | S k' =>
    Post BATCH_SIZE skip :: Sleep (delay * inject_Z attempt)
         :: retry_trace delay skip (attempt + 1) k'
  end.

(** The offsets posted when the page at each offset comes after the given
    number of failed attempts. *)
Fixpoint retry_posts (skip : Z) (ks : list nat) : list Z :=
  match ks with
  | [] => []
  | k :: ks' => repeat skip (S k) ++ retry_posts (skip + BATCH_SIZE) ks'
  end.

(** What every stored liquidation table is meant to satisfy: positive
    amounts, newest first. *)
Definition well_kept (df : list Liq.t) : Prop :=
  Forall (fun r => (0 < Liq.collateral_amount_btc r)%Q) df
  /\ descending Liq.timestamp df.

(** Sample readings of [int] and [float], for examples: strings of decimal
    digits. *)
Definition digits_int (j : json) : option Z :=
  match j with
  | JStr s =>
    option_map Z.of_uint (DecimalString.NilEmpty.uint_of_string s)
  | JObj _ => None
  end.

Definition digits_float (j : json) : option Q :=
  option_map inject_Z (digits_int j).

(** A raw liquidation as the endpoint sends it and the fetcher tags it. *)
Definition raw_liq (id ts amount version : string) : raw :=
  [("id", JStr id); ("hash", JStr "0xh"); ("blockNumber", JStr "1");
   ("timestamp", JStr ts);
   ("liquidator", JObj [("id", JStr "0xA")]);
   ("liquidatee", JObj [("id", JStr "0xAA")]);
   ("market", JObj [("id", JStr "0xm"); ("name", JStr "Aave")]);
   ("asset", JObj [("id", JStr Queries.WBTC_ADDRESS);
                   ("symbol", JStr "WBTC"); ("decimals", JStr "8")]);
   ("amount", JStr amount); ("amountUSD", JStr "80000");
   ("version", JStr version)].

(** A raw deposit or repay as the endpoint sends it. *)
Definition raw_event (id ts amount : string) : raw :=
  [("id", JStr id); ("hash", JStr "0xh"); ("timestamp", JStr ts);
   ("account", JObj [("id", JStr "0xAA")]);
   ("market", JObj [("id", JStr "0xm"); ("name", JStr "Aave")]);
   ("asset", JObj [("id", JStr Queries.WBTC_ADDRESS);
                   ("symbol", JStr "WBTC"); ("decimals", JStr "8")]);
   ("amount", JStr amount); ("amountUSD", JStr "5000")].

(** An endpoint that answers with one page of liquidations. *)
Definition one_page (records : list raw) : list reply :=
  [Json (mk_body false [("liquidates", records)])].

(** A row passes the filters that are in effect. The end of a date range
    is worded as "before the start of the day after its last day". *)
Definition passes (date_range : option (list Z))
           (versions : option (list string)) (min_usd max_usd : option Q)
           (r : Liq.t) : bool :=
  match date_range with
  | Some [d0; d1] =>
    (86400 * d0 <=? Liq.timestamp r) && (Liq.timestamp r <? 86400 * (d1 + 1))
  | _ => true
  end
  && match versions with
     | Some (v :: vs) => existsb (String.eqb (Liq.version r)) (v :: vs)
     | _ => true
     end
  && match min_usd with
     | Some m => Qle_bool m (Liq.collateral_amount_usd r)
     | None => true
     end
  && match max_usd with
     | Some m => Qle_bool (Liq.collateral_amount_usd r) m
     | None => true
     end.

(** The table a top-N function cuts its rows from: the groups by the
    address column, aggregated and sorted. *)
Definition full_ranking (float_sum : list Q -> Q)
           (sort_by_total_usd : list top_row -> list top_row)
           (col : Liq.t -> string) (df : list Liq.t) : list top_row :=
  sort_by_total_usd (map (agg_group float_sum) (groupby col df)).

(** * Properties *)

(** ** Comparisons on amounts *)

Lemma Qltb_lt x y : Qltb x y = true <-> (x < y)%Q.
Proof.
  unfold Qltb. rewrite negb_true_iff, <- not_true_iff_false, Qle_bool_iff.
  split; [apply Qnot_le_lt | apply Qlt_not_le].
Qed.

Lemma Qltb_ge x y : Qltb x y = false <-> (y <= x)%Q.
Proof.
  unfold Qltb. rewrite negb_false_iff. apply Qle_bool_iff.
Qed.

(** Split on every amount comparison the goal tests, and turn the outcomes
    into order facts. *)
Ltac split_Qltb :=
  repeat match goal with
         | |- context [Qltb ?a ?b] =>
           let H := fresh "Hcmp" in
           destruct (Qltb a b) eqn:H;
           [apply Qltb_lt in H | apply Qltb_ge in H]; cbn
         end.

(** ** Size brackets of the size distribution *)

Lemma size_group_In df label r :
  In r (size_group df label) <->
  In r df /\ DataProcessor.size_bracket r = Some label.
Proof.
  unfold size_group. rewrite filter_In. unfold opt_string_eqb.
  destruct (DataProcessor.size_bracket r) as [s|].
  - rewrite String.eqb_eq. split; intros [? ?]; split; congruence.
  - split; intros [? ?]; split; congruence.
Qed.

(** The rows of the size distribution: one per bracket that has records,
    with the count and the sums of the records of that bracket. *)
Lemma get_size_distribution_rows df row :
  In row (get_size_distribution df) <->
  In (sr_bracket row) size_labels
  /\ size_group df (sr_bracket row) <> []
  /\ row = mk_size_row (sr_bracket row)
             (List.length (size_group df (sr_bracket row)))
             (Qsum (map Liq.collateral_amount_btc
                        (size_group df (sr_bracket row))))
             (Qsum (map Liq.collateral_amount_usd
                        (size_group df (sr_bracket row)))).
Proof.
  unfold get_size_distribution. destruct df as [|r0 df0].
  - split; [intros [] | intros (_ & H & _); now elim H].
  - set (df := r0 :: df0). rewrite in_flat_map. split.
    + intros (label & Hl & Hin).
      destruct (size_group df label) eqn:Hg; [destruct Hin|].
      destruct Hin as [<- | []]. cbn [sr_bracket]. rewrite Hg.
      repeat split; auto; discriminate.
    + intros (Hl & Hne & Hrow). exists (sr_bracket row). split; auto.
      destruct (size_group df (sr_bracket row)) eqn:Hg; [now elim Hne|].
      left. symmetry. exact Hrow.
Qed.

(** C1, as amended: the size bracket of a record is the interval open on
    the left and closed on the right that holds its amount, a record at or
    below 0 gets no bracket, and the size distribution has one row per
    bracket in use, counting and summing exactly the records of that
    bracket. An amount of exactly 0.1 is in the first bracket and an amount
    of exactly 50 in the bracket that ends at 50. *)
Theorem size_bracket_right_closed :
  (forall r : Liq.t,
     let v := Liq.collateral_amount_btc r in
     (DataProcessor.size_bracket r = None <-> v <= 0)%Q
     /\ (DataProcessor.size_bracket r = Some "<0.1" <-> 0 < v /\ v <= 1 # 10)%Q
     /\ (DataProcessor.size_bracket r = Some "0.1-0.5" <->
         1 # 10 < v /\ v <= 1 # 2)%Q
     /\ (DataProcessor.size_bracket r = Some "0.5-1" <-> 1 # 2 < v /\ v <= 1)%Q
     /\ (DataProcessor.size_bracket r = Some "1-5" <-> 1 < v /\ v <= 5)%Q
     /\ (DataProcessor.size_bracket r = Some "5-10" <-> 5 < v /\ v <= 10)%Q
     /\ (DataProcessor.size_bracket r = Some "10-50" <-> 10 < v /\ v <= 50)%Q
     /\ (DataProcessor.size_bracket r = Some ">50" <-> 50 < v)%Q)
  /\ (forall df row,
        In row (get_size_distribution df) <->
        In (sr_bracket row) size_labels
        /\ (exists r, In r df
                      /\ DataProcessor.size_bracket r = Some (sr_bracket row))
        /\ let g := filter
                      (fun r => opt_string_eqb (DataProcessor.size_bracket r)
                                               (sr_bracket row)) df in
           row = mk_size_row (sr_bracket row) (List.length g)
                   (Qsum (map Liq.collateral_amount_btc g))
                   (Qsum (map Liq.collateral_amount_usd g)))
  /\ DataProcessor.size_bracket (liq_of_size (1 # 10)) = Some "<0.1"
  /\ DataProcessor.size_bracket (liq_of_size 50) = Some "10-50".
Proof.
  split; [|split; [|split; reflexivity]].
  - intros r v. unfold DataProcessor.size_bracket. fold v.
    generalize v. clear. intro v.
    unfold cut, size_bins, size_labels.
    cbn [searchsorted_left edge_ltb].
    split_Qltb; repeat split; intros; try discriminate; try congruence;
      try lra.
  - intros df row. rewrite get_size_distribution_rows.
    fold (size_group df (sr_bracket row)).
    split; intros (Hl & Hne & Hrow); repeat split; auto.
    + destruct (size_group df (sr_bracket row)) as [|r g] eqn:Hg;
        [now elim Hne|].
      exists r. apply size_group_In. rewrite Hg. now left.
    + destruct Hne as (r & Hin & Hb). intro Hnil.
      assert (H : In r (size_group df (sr_bracket row)))
        by now apply size_group_In.
      now rewrite Hnil in H.
Qed.

(** C1 as the specification words it fails at the edges: the code puts an
    amount of exactly 0.1 in the bracket below 0.1 and an amount of exactly
    50 in the bracket from 10 to 50, where the half-open reading puts them
    in the next brackets up. *)
Lemma size_bracket_not_half_open :
  DataProcessor.size_bracket (liq_of_size (1 # 10)) = Some "<0.1"
  /\ half_open_bracket (1 # 10) = Some "0.1-0.5"
  /\ DataProcessor.size_bracket (liq_of_size 50) = Some "10-50"
  /\ half_open_bracket 50 = Some ">50"
  /\ get_size_distribution [liq_of_size (1 # 10)]
     = [mk_size_row "<0.1" 1 (1 # 10) 0]
  /\ ~ (forall r : Liq.t,
          DataProcessor.size_bracket r
          = half_open_bracket (Liq.collateral_amount_btc r)).
Proof.
  repeat split; try reflexivity.
  intro H. specialize (H (liq_of_size (1 # 10))). discriminate H.
Qed.

(** ** The behaviour classifier *)

Lemma qualifying_In min_wbtc liq_df l :
  In l (qualifying min_wbtc liq_df) <->
  In l liq_df /\ (min_wbtc <= Liq.collateral_amount_btc l)%Q.
Proof.
  unfold qualifying. now rewrite filter_In, Qle_bool_iff.
Qed.

Lemma Forall2_map_right {A B : Type} (P : A -> B -> Prop) (f : A -> B) l :
  (forall x, In x l -> P x (f x)) -> Forall2 P l (map f l).
Proof.
  induction l as [|x l IH]; intros H; cbn; constructor.
  - apply H. now left.
  - apply IH. intros y Hy. apply H. now right.
Qed.

Lemma user_actions_In actions_df account ts_from liq_ts a :
  In a (user_actions actions_df account ts_from liq_ts) <->
  In a actions_df /\ Act.account a = account
  /\ ts_from <= Act.timestamp a <= liq_ts.
Proof.
  unfold user_actions.
  rewrite filter_In, !andb_true_iff, String.eqb_eq, !Z.leb_le. tauto.
Qed.

Lemma length_pos_nonempty {A : Type} (l : list A) :
  Nat.ltb 0 (List.length l) = true <-> l <> [].
Proof.
  destruct l; cbn; split; intros; try discriminate; congruence.
Qed.

Lemma length_pos_empty {A : Type} (l : list A) :
  Nat.ltb 0 (List.length l) = false <-> l = [].
Proof.
  destruct l; cbn; split; intros; try discriminate; auto.
Qed.

(** The classifier either fails on the asset key or maps one of the two row
    builders over the qualifying liquidations. *)
Lemma classify_users_rows liq_df actions_df asset_key min_wbtc window_hours cs :
  classify_users liq_df actions_df asset_key min_wbtc window_hours = Some cs ->
  exists config,
    Queries.get_asset_config asset_key = Some config
    /\ cs = map (match actions_df with
                 | [] => passive_row
                 | _ => classify_row actions_df (Queries.address config)
                          (window_hours * 3600)
                 end)
                (qualifying min_wbtc liq_df).
Proof.
  unfold classify_users, qualifying.
  destruct (Queries.get_asset_config asset_key) as [config|]; [|discriminate].
  intros H. exists config. split; auto.
  destruct actions_df; now inversion H.
Qed.

(** C2: the window of a liquidation at time [t] with a lookback of
    [w = window_hours * 3600] seconds holds exactly the action rows of the
    liquidatee with a timestamp in the closed interval from [t - w] to [t],
    and it is this window that the classifier counts: a row at [t - w] is
    in, a row at [t - w - 1] is out, a row at [t] is in. *)
Theorem window_is_closed_interval
        (actions_df : list Act.t) (l : Liq.t) (window_hours : Z)
        (Hw : 0 <= window_hours) :
  let t := Liq.timestamp l in
  let w := window_hours * 3600 in
  let selected := user_actions actions_df (Liq.liquidatee l) (t - w) t in
  (forall a, In a selected <->
             In a actions_df /\ Act.account a = Liq.liquidatee l
             /\ t - w <= Act.timestamp a <= t)
  /\ (forall a, In a actions_df -> Act.account a = Liq.liquidatee l ->
                Act.timestamp a = t - w -> In a selected)
  /\ (forall a, Act.timestamp a = t - w - 1 -> ~ In a selected)
  /\ (forall a, In a actions_df -> Act.account a = Liq.liquidatee l ->
                Act.timestamp a = t -> In a selected)
  /\ (forall target_address,
        let c := classify_row actions_df target_address w l in
        deposit_count c = List.length (of_type "deposit" selected)
        /\ repay_count c = List.length (of_type "repay" selected)).
Proof.
  intros t w selected. subst selected.
  assert (0 <= w) by (subst w; lia).
  split; [intro a; apply user_actions_In|].
  split; [intros a Hin Hacc Hts; apply user_actions_In; intuition lia|].
  split; [intros a Hts Hin; apply user_actions_In in Hin; lia|].
  split; [intros a Hin Hacc Hts; apply user_actions_In; intuition lia|].
  intros target_address c. split; reflexivity.
Qed.

Lemma window_is_closed_interval_witness :
  0 <= 48
  /\ In act_A1 (user_actions [act_A1; act_A2] "0xAA" (1000 - 48 * 3600) 1000).
Proof.
  split; [lia|].
  apply (proj1 (window_is_closed_interval [act_A1; act_A2] liq_L1 48
                  ltac:(lia)) act_A1).
  cbn. repeat split; auto; lia.
Defined.

Lemma classify_row_behavior actions_df target_address window_seconds l :
  let ua := user_actions actions_df (Liq.liquidatee l)
              (Liq.timestamp l - window_seconds) (Liq.timestamp l) in
  let c := classify_row actions_df target_address window_seconds l in
  liq c = l
  /\ matches_window (of_type "deposit" ua) (of_type "repay" ua) (behavior c)
  /\ In (behavior c) behaviors.
Proof.
  intros ua c. subst c. unfold classify_row. fold ua. cbn [liq behavior].
  split; [reflexivity|].
  destruct (Nat.ltb 0 (List.length (of_type "deposit" ua))) eqn:Hd;
    destruct (Nat.ltb 0 (List.length (of_type "repay" ua))) eqn:Hr;
    cbn [andb];
    repeat match goal with
           | H : Nat.ltb 0 _ = true |- _ => apply length_pos_nonempty in H
           | H : Nat.ltb 0 _ = false |- _ => apply length_pos_empty in H
           end;
    (split; [unfold matches_window; intuition congruence
            | unfold behaviors; cbn; auto]).
Qed.

Lemma of_type_nonempty ty actions_df l window_hours :
  of_type ty (user_actions actions_df (Liq.liquidatee l)
                (Liq.timestamp l - window_hours * 3600) (Liq.timestamp l))
  <> []
  <-> window_has actions_df window_hours l ty.
Proof.
  unfold of_type, window_has. split.
  - intros Hne.
    destruct (filter _ _) as [|a rest] eqn:Hf; [congruence|].
    assert (Hin : In a (a :: rest)) by now left.
    rewrite <- Hf in Hin. apply filter_In in Hin. destruct Hin as [Hin Hty].
    apply user_actions_In in Hin. apply String.eqb_eq in Hty.
    exists a. tauto.
  - intros (a & Hin & Hacc & Hts & Hty) Hnil.
    assert (Ha : In a (filter (fun a0 => String.eqb (Act.action_type a0) ty)
                         (user_actions actions_df (Liq.liquidatee l)
                            (Liq.timestamp l - window_hours * 3600)
                            (Liq.timestamp l)))).
    { apply filter_In. split; [apply user_actions_In; tauto|].
      now apply String.eqb_eq. }
    now rewrite Hnil in Ha.
Qed.

Lemma label_for_bools (d r : bool) (D R : Prop) :
  (d = true <-> D) -> (r = true <-> R) ->
  label_for D R
    (if d && r then "Deposit + Repay"
     else if d then "Deposit Only"
     else if r then "Repay Only"
     else "Passive").
Proof.
  intros Hd Hr. unfold label_for.
  destruct d, r; cbn [andb]; repeat split; try discriminate; intros;
    intuition (try congruence; try discriminate).
Qed.

(** C3: every qualifying liquidation gets one row, in order, and the
    behaviour of the row is the one of the four labels that goes with what
    the action table holds for the window of the liquidation: a deposit and
    a repay of the liquidatee in the window give Deposit + Repay, a deposit
    and no repay Deposit Only, a repay and no deposit Repay Only, neither
    of them Passive, and no label is given in any other case; the four
    labels are pairwise distinct, so exactly one of them is assigned. *)
Theorem classification_matches_window
        (liq_df : list Liq.t) (actions_df : list Act.t) (asset_key : string)
        (min_wbtc : Q) (window_hours : Z) (cs : list classified)
        (Hrun : classify_users liq_df actions_df asset_key min_wbtc
                               window_hours = Some cs) :
  Forall2
    (fun l c =>
       liq c = l
       /\ label_for (window_has actions_df window_hours l "deposit")
                    (window_has actions_df window_hours l "repay")
                    (behavior c)
       /\ In (behavior c) behaviors)
    (qualifying min_wbtc liq_df) cs
  /\ NoDup behaviors.
Proof.
  split.
  - apply classify_users_rows in Hrun. destruct Hrun as (config & _ & ->).
    apply Forall2_map_right. intros l _.
    destruct actions_df as [|a0 acts].
    + cbn [passive_row liq behavior]. split; [reflexivity|].
      split; [|unfold behaviors; cbn; auto].
      assert (Hno : forall ty, ~ window_has [] window_hours l ty)
        by (intros ty (a & [] & _)).
      unfold label_for.
      repeat split; try discriminate; try apply Hno;
        intros [H1 H2]; exfalso; try (now apply (Hno _ H1));
        now apply (Hno _ H2).
    + split; [reflexivity|]. split; [|apply classify_row_behavior].
      unfold classify_row. cbn [behavior].
      apply label_for_bools;
        (rewrite length_pos_nonempty; apply of_type_nonempty).
  - unfold behaviors.
    repeat constructor; cbn; intuition discriminate.
Qed.

Lemma classification_matches_window_witness :
  exists cs,
    classify_users [liq_L1] [act_A1; act_A2] "wbtc" 1 48 = Some cs
    /\ Forall2 (fun l c => liq c = l /\ behavior c = "Deposit + Repay")
               [liq_L1] cs.
Proof.
  eexists. split; [reflexivity|].
  pose proof (proj1 (classification_matches_window
                       [liq_L1] [act_A1; act_A2] "wbtc" 1 48 _ eq_refl)) as H.
  cbn [qualifying filter] in H.
  inversion H as [|? ? ? ? (Hl & (Hboth & _) & _) Hrest]; subst.
  constructor; [|constructor]. split; [exact Hl|].
  apply Hboth. split.
  - exists act_A1. cbn. repeat split; auto; lia.
  - exists act_A2. cbn. repeat split; auto; lia.
Defined.

(** C6: with an empty action table and a registered asset key the
    classifier returns, for every qualifying liquidation and in their order,
    a row that is Passive with zero counts and amounts and no
    [hours_before_last_action]. *)
Theorem empty_actions_all_passive
        (liq_df : list Liq.t) (asset_key : string) (min_wbtc : Q)
        (window_hours : Z) (config : Queries.asset_config)
        (Hkey : Queries.get_asset_config asset_key = Some config) :
  exists cs,
    classify_users liq_df [] asset_key min_wbtc window_hours = Some cs
    /\ Forall2
         (fun l c =>
            liq c = l
            /\ behavior c = "Passive"
            /\ deposit_count c = 0%nat
            /\ repay_count c = 0%nat
            /\ deposit_usd c = 0%Q
            /\ repay_usd c = 0%Q
            /\ hours_before_last_action c = None)
         (qualifying min_wbtc liq_df) cs
    /\ (forall l, In l (qualifying min_wbtc liq_df) <->
                  In l liq_df
                  /\ (min_wbtc <= Liq.collateral_amount_btc l)%Q).
Proof.
  exists (map passive_row (qualifying min_wbtc liq_df)).
  split; [|split].
  - unfold classify_users. now rewrite Hkey.
  - apply Forall2_map_right. intros l _. cbn. repeat split.
  - intro l. apply qualifying_In.
Qed.

Lemma empty_actions_all_passive_witness :
  exists cs,
    classify_users [liq_L1] [] "wbtc" 1 48 = Some cs
    /\ Forall2 (fun l c => liq c = l /\ behavior c = "Passive"
                           /\ hours_before_last_action c = None)
               [liq_L1] cs.
Proof.
  destruct (empty_actions_all_passive [liq_L1] "wbtc" 1 48 _ eq_refl)
    as (cs & Hrun & Hall & _).
  exists cs. split; [exact Hrun|].
  cbn in Hall. inversion Hall as [|? ? ? ? Hc Hrest]; subst.
  inversion Hrest; subst.
  constructor; [|constructor]. intuition.
Defined.

(** ** KPI summary *)

(** C7: on the empty liquidation table the KPI summary is defined and all
    its figures are zero. *)
Theorem get_kpi_metrics_empty :
  let k := get_kpi_metrics [] in
  total_liquidations k = 0%nat
  /\ total_btc k = 0%Q
  /\ total_usd k = 0%Q
  /\ v2_count k = 0%nat
  /\ v3_count k = 0%nat
  /\ unique_liquidators k = 0%nat
  /\ unique_liquidatees k = 0%nat
  /\ avg_liquidation_usd k = 0%Q
  /\ max_liquidation_usd k = 0%Q.
Proof.
  cbn. repeat split.
Qed.

(** ** Sorting *)

Section StableSortFacts.
Context {A : Type} (before : A -> A -> bool).

Lemma insert_sorted_perm x l :
  Permutation (insert_sorted before x l) (x :: l).
Proof.
  induction l as [|y l IH]; cbn; [reflexivity|].
  destruct (before y x); [|reflexivity].
  rewrite IH. apply perm_swap.
Qed.

Lemma stable_sort_perm l : Permutation (stable_sort before l) l.
Proof.
  induction l as [|x l IH]; cbn; [reflexivity|].
  rewrite insert_sorted_perm. now constructor.
Qed.

Lemma stable_sort_In l x : In x (stable_sort before l) <-> In x l.
Proof.
  split; apply Permutation_in;
    [apply stable_sort_perm | symmetry; apply stable_sort_perm].
Qed.

Lemma stable_sort_length l :
  List.length (stable_sort before l) = List.length l.
Proof. apply Permutation_length, stable_sort_perm. Qed.

(** [before] is a strict weak order. *)
Hypothesis before_asym :
  forall a b, before a b = true -> before b a = false.
Hypothesis before_negtrans :
  forall a b c, before a b = false -> before b c = false ->
                before a c = false.

Variable S : A -> A -> Prop.

Lemma insert_sorted_sorted x l :
  Forall (S x) l ->
  StronglySorted (sorted_then before S) l ->
  StronglySorted (sorted_then before S) (insert_sorted before x l).
Proof.
  intros HS Hl. induction Hl as [|y l Hl IH Hy]; cbn.
  - repeat constructor.
  - inversion HS as [|? ? HSy HSl]; subst.
    destruct (before y x) eqn:Hyx.
    + constructor; [now apply IH|].
      apply (Permutation_Forall
               (Permutation_sym (insert_sorted_perm x l))).
      constructor; [|exact Hy].
      split; [now apply before_asym | now left].
    + constructor; [now constructor|].
      constructor; [split; auto|].
      rewrite Forall_forall in *. intros z Hz. split; [|right; auto].
      apply before_negtrans with y; [|exact Hyx]. apply Hy, Hz.
Qed.

Lemma stable_sort_sorted l :
  StronglySorted S l ->
  StronglySorted (sorted_then before S) (stable_sort before l).
Proof.
  induction 1 as [|x l Hl IH Hx]; cbn; [constructor|].
  apply insert_sorted_sorted; [|exact IH].
  apply (Permutation_Forall (Permutation_sym (stable_sort_perm l))), Hx.
Qed.
End StableSortFacts.

Lemma StronglySorted_trivial {A : Type} (l : list A) :
  StronglySorted (fun _ _ => True) l.
Proof.
  induction l; constructor; auto. now apply Forall_forall.
Qed.

Lemma StronglySorted_weaken {A : Type} (R R' : A -> A -> Prop) l :
  (forall a b, R a b -> R' a b) -> StronglySorted R l -> StronglySorted R' l.
Proof.
  intros HR. induction 1; constructor; auto.
  eapply Forall_impl; [|eassumption]. auto.
Qed.

Lemma sort_values_desc_Z_sorted {A : Type} (col : A -> Z) df :
  descending col (sort_values_desc_Z col df).
Proof.
  unfold descending, sort_values_desc_Z.
  eapply StronglySorted_weaken;
    [|apply stable_sort_sorted with (S := fun _ _ => True);
      [| |apply StronglySorted_trivial]].
  - intros a b [H _]. cbv beta in H. lia.
  - intros a b H. cbv beta in *. lia.
  - intros a b c H1 H2. cbv beta in *. lia.
Qed.

Lemma sort_values_desc_Q_sorted {A : Type} (col : A -> Q) df :
  StronglySorted (fun a b => (col b <= col a)%Q) (sort_values_desc_Q col df).
Proof.
  unfold sort_values_desc_Q.
  eapply StronglySorted_weaken;
    [|apply stable_sort_sorted with (S := fun _ _ => True);
      [| |apply StronglySorted_trivial]].
  - intros a b [H _]. cbv beta in H. now apply Qltb_ge in H.
  - intros a b H. cbv beta in *. apply Qltb_lt in H. apply Qltb_ge. lra.
  - intros a b c H1 H2. cbv beta in *.
    apply Qltb_ge in H1, H2. apply Qltb_ge. lra.
Qed.

(** ** Dropping duplicates *)

Section DropDuplicates.
Context {A : Type} (col : A -> string).

Lemma has_key_iff (k : string) (l : list A) :
  existsb (fun y => String.eqb (col y) k) l = true <-> In k (map col l).
Proof.
  rewrite existsb_exists, in_map_iff.
  split; intros (y & H1 & H2); exists y.
  - apply String.eqb_eq in H2. auto.
  - rewrite String.eqb_eq. auto.
Qed.

Lemma drop_duplicates_last_incl l x :
  In x (drop_duplicates_last col l) -> In x l.
Proof.
  induction l as [|y l IH]; cbn; [auto|].
  destruct (existsb _ l); cbn; intuition.
Qed.

Lemma drop_duplicates_last_NoDup l :
  NoDup (map col (drop_duplicates_last col l)).
Proof.
  induction l as [|y l IH]; cbn; [constructor|].
  destruct (existsb _ l) eqn:Hy; [exact IH|].
  cbn. constructor; [|exact IH].
  intros Hin. apply in_map_iff in Hin. destruct Hin as (z & Hz & Hin).
  apply drop_duplicates_last_incl in Hin.
  assert (Hk : In (col y) (map col l))
    by (rewrite <- Hz; now apply in_map).
  apply has_key_iff in Hk. congruence.
Qed.

Lemma find_app_last (p : A -> bool) l y :
  find p (l ++ [y]) =
  match find p l with
  | Some z => Some z
  | None => if p y then Some y else None
  end.
Proof.
  induction l as [|z l IH]; cbn; [reflexivity|].
  destruct (p z); auto.
Qed.

Lemma last_with_None k l :
  last_with col k l = None <-> ~ In k (map col l).
Proof.
  unfold last_with. rewrite <- has_key_iff. split.
  - intros Hf He. apply existsb_exists in He. destruct He as (y & Hy & Hk).
    apply in_rev in Hy.
    now rewrite (find_none _ _ Hf y Hy) in Hk.
  - intros Hn. destruct (find _ (rev l)) as [z|] eqn:Hf; [|reflexivity].
    apply find_some in Hf. destruct Hf as [Hz Hk].
    apply in_rev in Hz. elim Hn. apply existsb_exists. eauto.
Qed.

(** A row survives iff it is the last row with its key. *)
Lemma drop_duplicates_last_In l x :
  In x (drop_duplicates_last col l) <-> last_with col (col x) l = Some x.
Proof.
  induction l as [|y l IH]; cbn.
  - split; [intros [] | discriminate].
  - unfold last_with in *. cbn [rev]. rewrite find_app_last.
    fold (last_with col (col x) l) in *.
    destruct (existsb (fun z => String.eqb (col z) (col y)) l) eqn:Hy.
    + rewrite IH. apply has_key_iff in Hy.
      destruct (last_with col (col x) l) as [z|] eqn:Hl; [tauto|].
      apply last_with_None in Hl.
      destruct (String.eqb (col y) (col x)) eqn:Hyx.
      * apply String.eqb_eq in Hyx. rewrite Hyx in Hy. tauto.
      * split; discriminate.
    + assert (Hny : ~ In (col y) (map col l)).
      { intro H. apply has_key_iff in H. congruence. }
      cbn [In]. rewrite IH.
      destruct (last_with col (col x) l) as [z|] eqn:Hl.
      * split; [intros [-> | H]; [|exact H] | auto].
        assert (Hs : last_with col (col x) l <> None) by congruence.
        rewrite last_with_None in Hs. tauto.
      * destruct (String.eqb (col y) (col x)) eqn:Hyx.
        -- split; [intros [-> | H]; [reflexivity | discriminate]|].
           intros H. left. congruence.
        -- split; [intros [-> | H]; [|discriminate] | discriminate].
           now rewrite String.eqb_refl in Hyx.
Qed.

Lemma drop_duplicates_last_keys l k :
  In k (map col (drop_duplicates_last col l)) <-> In k (map col l).
Proof.
  split.
  - rewrite !in_map_iff. intros (x & Hk & Hx).
    exists x. split; auto. now apply drop_duplicates_last_incl.
  - intros Hk.
    destruct (last_with col k l) as [z|] eqn:Hl.
    + pose proof Hl as Hf. unfold last_with in Hf. apply find_some in Hf.
      destruct Hf as [_ Hz]. apply String.eqb_eq in Hz. subst k.
      apply in_map. now apply drop_duplicates_last_In.
    + apply last_with_None in Hl. tauto.
Qed.

Lemma drop_duplicates_last_id l :
  NoDup (map col l) -> drop_duplicates_last col l = l.
Proof.
  induction l as [|y l IH]; cbn; [auto|].
  intros Hnd. inversion Hnd as [|? ? Hy Hl]; subst.
  destruct (existsb _ l) eqn:He.
  - apply has_key_iff in He. tauto.
  - now rewrite IH.
Qed.

Lemma drop_duplicates_last_shadowed l1 l2 :
  (forall x, In x l1 -> In (col x) (map col l2)) ->
  drop_duplicates_last col (l1 ++ l2) = drop_duplicates_last col l2.
Proof.
  induction l1 as [|y l1 IH]; cbn; [auto|].
  intros H. rewrite existsb_app.
  assert (Hy : existsb (fun z => String.eqb (col z) (col y)) l2 = true)
    by (apply has_key_iff, H; now left).
  rewrite Hy, orb_true_r. apply IH. auto.
Qed.

(** Rows of the second table win over rows of the first. *)
Lemma last_with_app_right l1 l2 k :
  In k (map col l2) ->
  last_with col k (l1 ++ l2) = last_with col k l2.
Proof.
  intros Hk. unfold last_with. rewrite rev_app_distr.
  destruct (find _ (rev l2)) as [z|] eqn:Hf.
  - induction (rev l2) as [|w r IHr]; [discriminate|].
    cbn in *. destruct (String.eqb (col w) k); auto.
  - fold (last_with col k l2) in Hf. apply last_with_None in Hf. tauto.
Qed.
End DropDuplicates.

(** ** Merging a fetch into the stored table *)

Lemma update_data_both existing new_df :
  existing <> [] -> new_df <> [] ->
  update_data existing new_df =
  sort_values_desc_Z Liq.timestamp
    (drop_duplicates_last Liq.id (existing ++ new_df)).
Proof.
  destruct existing; [congruence|]. destruct new_df; [congruence|].
  reflexivity.
Qed.

(** C4, as amended: when both tables are non-empty the merge keeps, for
    each id of either table, exactly the last record with that id of the
    existing table followed by the incoming one, so an incoming record
    replaces an existing one with its id, and the result is sorted by
    timestamp, largest first; when the existing table is empty the incoming
    table is returned as it is, and when the incoming table is empty the
    existing one is. Merging a single existing record with a single
    incoming record of the same id gives the incoming record alone. *)
Theorem update_data_merge :
  (forall existing new_df,
     existing <> [] -> new_df <> [] ->
     let merged := update_data existing new_df in
     NoDup (map Liq.id merged)
     /\ (forall r, In r merged <->
                   last_with Liq.id (Liq.id r) (existing ++ new_df) = Some r)
     /\ (forall k, In k (map Liq.id merged) <->
                   In k (map Liq.id existing) \/ In k (map Liq.id new_df))
     /\ (forall r, In r merged -> In (Liq.id r) (map Liq.id new_df) ->
                   In r new_df)
     /\ descending Liq.timestamp merged)
  /\ (forall new_df, update_data [] new_df = new_df)
  /\ (forall existing, update_data existing [] = existing)
  /\ (forall r1 r2, Liq.id r1 = Liq.id r2 -> update_data [r1] [r2] = [r2])
  /\ update_data [rec_X 1000 1] [rec_X 1000 2] = [rec_X 1000 2].
Proof.
  split; [|split; [|split; [|split]]].
  - intros existing new_df He Hn merged. subst merged.
    rewrite (update_data_both _ _ He Hn).
    set (dd := drop_duplicates_last Liq.id (existing ++ new_df)).
    assert (Hperm : Permutation (sort_values_desc_Z Liq.timestamp dd) dd)
      by apply stable_sort_perm.
    assert (Hin : forall r, In r (sort_values_desc_Z Liq.timestamp dd) <->
                            last_with Liq.id (Liq.id r) (existing ++ new_df)
                            = Some r).
    { intro r. unfold sort_values_desc_Z. rewrite stable_sort_In.
      apply drop_duplicates_last_In. }
    split; [|split; [|split; [|split]]].
    + apply (Permutation_NoDup
               (Permutation_map Liq.id (Permutation_sym Hperm))).
      apply drop_duplicates_last_NoDup.
    + exact Hin.
    + intro k. rewrite <- in_app_iff, <- map_app.
      rewrite <- (drop_duplicates_last_keys Liq.id (existing ++ new_df) k).
      fold dd. split; apply Permutation_in; apply Permutation_map;
        [exact Hperm | symmetry; exact Hperm].
    + intros r Hr Hk. apply Hin in Hr.
      rewrite (last_with_app_right Liq.id existing new_df _ Hk) in Hr.
      unfold last_with in Hr. apply find_some in Hr.
      apply in_rev. tauto.
    + apply sort_values_desc_Z_sorted.
  - reflexivity.
  - intros [|r existing]; reflexivity.
  - intros r1 r2 Hid. cbn. rewrite Hid, String.eqb_refl. reflexivity.
  - reflexivity.
Qed.

Lemma update_data_merge_witness :
  [rec_X 1000 1] <> [] /\ [rec_X 2000 2] <> []
  /\ NoDup (map Liq.id (update_data [rec_X 1000 1] [rec_X 2000 2]))
  /\ In (rec_X 2000 2) (update_data [rec_X 1000 1] [rec_X 2000 2])
  /\ ~ In (rec_X 1000 1) (update_data [rec_X 1000 1] [rec_X 2000 2]).
Proof.
  assert (He : [rec_X 1000 1] <> []) by discriminate.
  assert (Hn : [rec_X 2000 2] <> []) by discriminate.
  destruct (proj1 update_data_merge _ _ He Hn) as (Hnd & Hin & _).
  split; [exact He|]. split; [exact Hn|]. split; [exact Hnd|].
  split; [now apply Hin|].
  intros H. apply Hin in H. discriminate H.
Defined.

(** C4 as stated fails when the existing table is empty: the incoming table
    is returned as it is, duplicates of an id included. *)
Lemma update_data_first_run_keeps_duplicates :
  update_data [] [rec_X 1000 1; rec_X 1000 2]
  = [rec_X 1000 1; rec_X 1000 2]
  /\ sort_values_desc_Z Liq.timestamp
       (drop_duplicates_last Liq.id ([] ++ [rec_X 1000 1; rec_X 1000 2]))
     = [rec_X 1000 2]
  /\ ~ NoDup (map Liq.id (update_data [] [rec_X 1000 1; rec_X 1000 2])).
Proof.
  split; [reflexivity|]. split; [reflexivity|].
  cbn. intro H. inversion H as [|? ? Hin _]; subst. apply Hin. now left.
Qed.

(** C5: merging a table with unique ids into itself gives back the same
    records: a permutation of the table, so no new rows, with unique ids. *)
Theorem update_data_idempotent (D : list Liq.t)
        (Hids : NoDup (map Liq.id D)) :
  Permutation (update_data D D) D
  /\ (forall r, In r (update_data D D) <-> In r D)
  /\ List.length (update_data D D) = List.length D
  /\ NoDup (map Liq.id (update_data D D)).
Proof.
  assert (Hperm : Permutation (update_data D D) D).
  { destruct D as [|r D']; [reflexivity|].
    rewrite update_data_both by discriminate.
    rewrite drop_duplicates_last_shadowed
      by (intros x Hx; now apply in_map).
    rewrite drop_duplicates_last_id by exact Hids.
    apply stable_sort_perm. }
  split; [exact Hperm|]. split; [|split].
  - intro r. split; apply Permutation_in; [|symmetry]; exact Hperm.
  - now apply Permutation_length.
  - apply (Permutation_NoDup (Permutation_map Liq.id (Permutation_sym Hperm))).
    exact Hids.
Qed.

Lemma update_data_idempotent_witness :
  NoDup (map Liq.id [liq_L1; rec_X 2000 1])
  /\ Permutation (update_data [liq_L1; rec_X 2000 1] [liq_L1; rec_X 2000 1])
                 [liq_L1; rec_X 2000 1].
Proof.
  assert (H : NoDup (map Liq.id [liq_L1; rec_X 2000 1])).
  { cbn. repeat constructor; cbn; intuition discriminate. }
  split; [exact H|].
  exact (proj1 (update_data_idempotent [liq_L1; rec_X 2000 1] H)).
Defined.

(** ** Pagination *)

Lemma posts_app l1 l2 : posts (l1 ++ l2) = posts l1 ++ posts l2.
Proof. unfold posts. apply flat_map_app. Qed.

Lemma posts_page_trace delay skip n :
  posts (page_trace delay skip n) =
  map (fun i => skip + BATCH_SIZE * Z.of_nat i) (seq 0 (S n)).
Proof.
  revert skip. induction n as [|n IH]; intro skip.
  - cbn. f_equal. lia.
  - cbn [page_trace]. change (posts (Post BATCH_SIZE skip :: Sleep delay :: ?l))
      with (skip :: posts l).
    rewrite IH. cbn [seq map]. f_equal; [lia|].
    rewrite <- !seq_shift, !map_map. f_equal; [lia|].
    apply map_ext. intro i. lia.
Qed.

Section PaginateFacts.
Variable delay : Q.
Variable extract : body -> list raw.
Variable tag : raw -> raw.

Lemma paginate_pages bodies last rest :
  Forall (full extract) bodies ->
  short extract last ->
  forall attempt skip acc log,
    paginate delay extract tag (map Json bodies ++ Json last :: rest)
             attempt skip acc log
    = Some (mk_run
              (acc ++ map tag (List.concat (map extract bodies)
                               ++ extract last))
              (log ++ page_trace delay skip (List.length bodies))
              rest).
Proof.
  intros Hfull [Herr Hshort].
  induction Hfull as [|b bodies [Hb Hlen] _ IH]; intros attempt skip acc log.
  - cbn [map app paginate List.concat List.length page_trace]. rewrite Herr.
    apply Z.ltb_lt in Hshort.
    destruct (extract last) as [|r page].
    + cbn [map]. now rewrite app_nil_r.
    + cbn [List.length map] in *. now rewrite Hshort.
  - cbn [map app paginate]. rewrite Hb.
    apply Z.ltb_ge in Hlen.
    destruct (extract b) as [|r page]; [discriminate Hlen|].
    cbn [List.length] in *. rewrite Hlen, IH.
    cbn [List.concat List.length page_trace map].
    rewrite !map_app, <- !app_assoc. reflexivity.
Qed.
End PaginateFacts.

(** The pages in the words of the data and in those of the fetchers. *)
Lemma holds_liquidations_iff b page :
  holds_liquidations b page <->
  has_errors b = false /\ liquidates b = page.
Proof.
  unfold holds_liquidations, member_or_empty, liquidates.
  destruct (dict_get "liquidates" (data b)) as [p|];
    intuition (try congruence; try discriminate).
Qed.

Lemma holds_events_iff b page :
  holds_events b page <->
  has_errors b = false /\ UserBehaviorFetcher.events b = page.
Proof.
  unfold holds_events, member_or_empty, UserBehaviorFetcher.events.
  destruct (dict_get "deposits" (data b)) as [p|];
    [|destruct (dict_get "repays" (data b)) as [p|]];
    intuition (try congruence; try discriminate).
Qed.

Section HeldPages.
Variable extract : body -> list raw.
Variable holds : body -> list raw -> Prop.
Hypothesis holds_iff :
  forall b page, holds b page <-> has_errors b = false /\ extract b = page.

Lemma held_full_pages bodies pages :
  Forall2 holds bodies pages -> Forall full_page pages ->
  Forall (full extract) bodies /\ map extract bodies = pages.
Proof.
  induction 1 as [|b page bodies pages Hb _ IH]; intros Hfull.
  - split; constructor.
  - inversion Hfull as [|? ? Hpage Hrest]; subst.
    destruct (IH Hrest) as [Hall Hmap].
    apply holds_iff in Hb. destruct Hb as [Herr Hex].
    split; [|cbn; congruence].
    constructor; [|exact Hall]. split; [exact Herr|]. now rewrite Hex.
Qed.

Lemma held_short_page b page :
  holds b page -> short_page page -> short extract b /\ extract b = page.
Proof.
  intros Hb Hshort. apply holds_iff in Hb. destruct Hb as [Herr Hex].
  split; [|exact Hex]. split; [exact Herr|]. now rewrite Hex.
Qed.

Lemma held_replies replies :
  Forall2 (reply_gives holds) replies (map (page_of extract) replies).
Proof.
  apply Forall2_map_right. intros [|b] _; cbn; [reflexivity|].
  destruct (has_errors b) eqn:Herr; [reflexivity|].
  apply holds_iff. now split.
Qed.
End HeldPages.

(** C9: when the endpoint answers with pages of at least the page size and
    then with a page below the page size (an empty page is one), each
    fetcher posts at the offsets 0, 1000, 2000, ... once per page, stops
    with the short page without reading a further reply, and returns the
    concatenation of the pages up to and including the short one (the
    liquidation fetcher having written its version into each record). The
    pages are those the bodies hold in their data: under ["liquidates"] for
    the liquidation fetcher, under ["deposits"] or else ["repays"] for the
    user-events fetcher. *)
Theorem pagination_stops_at_short_page
        (bodies : list body) (pages : list (list raw))
        (last : body) (last_page : list raw) (rest : list reply)
        (version : string)
        (Hfull : Forall full_page pages) (Hshort : short_page last_page) :
  (Forall2 holds_liquidations bodies pages ->
   holds_liquidations last last_page ->
   exists r,
     _fetch_liquidations_from_endpoint
       (map Json bodies ++ Json last :: rest) version = Some r
     /\ returned r = map (dict_set "version" (JStr version))
                         (List.concat pages ++ last_page)
     /\ posts (trace r) = offsets (List.length pages)
     /\ unread r = rest)
  /\ (Forall2 holds_events bodies pages ->
      holds_events last last_page ->
      exists r,
        UserBehaviorFetcher._fetch_user_events
          (map Json bodies ++ Json last :: rest) = Some r
        /\ returned r = List.concat pages ++ last_page
        /\ posts (trace r) = offsets (List.length pages)
        /\ unread r = rest).
Proof.
  split; intros Hbodies Hlast.
  - destruct (held_full_pages _ _ holds_liquidations_iff _ _ Hbodies Hfull)
      as [Hall Hmap].
    destruct (held_short_page _ _ holds_liquidations_iff _ _ Hlast Hshort)
      as [Hsh Hex].
    eexists. split.
    + unfold _fetch_liquidations_from_endpoint.
      apply paginate_pages; eassumption.
    + cbn [returned trace unread app]. rewrite Hmap, Hex.
      repeat split. rewrite posts_page_trace.
      rewrite <- Hmap, length_map. unfold offsets.
      apply map_ext. intro; lia.
  - destruct (held_full_pages _ _ holds_events_iff _ _ Hbodies Hfull)
      as [Hall Hmap].
    destruct (held_short_page _ _ holds_events_iff _ _ Hlast Hshort)
      as [Hsh Hex].
    eexists. split.
    + unfold UserBehaviorFetcher._fetch_user_events.
      apply paginate_pages; eassumption.
    + cbn [returned trace unread app]. rewrite Hmap, Hex.
      repeat split; [apply map_id|]. rewrite posts_page_trace.
      rewrite <- Hmap, length_map. unfold offsets.
      apply map_ext. intro; lia.
Qed.

Lemma pagination_stops_at_short_page_witness :
  (exists r,
     _fetch_liquidations_from_endpoint
       [Json (liquidates_page 1000); Json (liquidates_page 1)] "V3" = Some r
     /\ returned r
        = repeat [("id", JStr "L"); ("version", JStr "V3")] 1001
     /\ posts (trace r) = [0; 1000]
     /\ unread r = [])
  /\ (exists r,
        UserBehaviorFetcher._fetch_user_events
          [Json (events_page "repays" 1000); Json (events_page "deposits" 0);
           Json (events_page "deposits" 5)] = Some r
        /\ returned r = repeat [("id", JStr "E")] 1000
        /\ posts (trace r) = [0; 1000]
        /\ unread r = [Json (events_page "deposits" 5)]).
Proof.
  assert (Hfull : forall x : raw, Forall full_page [repeat x 1000]).
  { intro x. constructor; [|constructor]. unfold full_page.
    rewrite repeat_length. now vm_compute. }
  split.
  - destruct (proj1 (pagination_stops_at_short_page
                       [liquidates_page 1000] [repeat [("id", JStr "L")] 1000]
                       (liquidates_page 1) [[("id", JStr "L")]] [] "V3"
                       (Hfull _) ltac:(now vm_compute)))
      as (r & Hr & Hret & Hposts & Hrest).
    + constructor; [|constructor]. split; [reflexivity | now left].
    + split; [reflexivity | now left].
    + exists r. split; [exact Hr|]. split; [|split; assumption].
      rewrite Hret. now vm_compute.
  - destruct (proj2 (pagination_stops_at_short_page
                       [events_page "repays" 1000]
                       [repeat [("id", JStr "E")] 1000]
                       (events_page "deposits" 0) []
                       [Json (events_page "deposits" 5)] "V3"
                       (Hfull _) ltac:(now vm_compute)))
      as (r & Hr & Hret & Hposts & Hrest).
    + constructor; [|constructor].
      split; [reflexivity|]. right. split; [reflexivity | now left].
    + split; [reflexivity | now left].
    + exists r. split; [exact Hr|]. split; [|split; assumption].
      rewrite Hret. now rewrite app_nil_r.
Defined.

(** ** Order of strings *)

Lemma ltb_lt (a b : string) :
  String.ltb a b = true <-> OrderedTypeEx.String_as_OT.lt a b.
Proof.
  rewrite <- OrderedTypeEx.String_as_OT.cmp_lt.
  unfold String.ltb, OrderedTypeEx.String_as_OT.cmp.
  destruct (String.compare a b); split; congruence.
Qed.

Lemma ltb_trichotomy (a b : string) :
  String.ltb a b = true \/ a = b \/ String.ltb b a = true.
Proof.
  unfold String.ltb. rewrite (String.compare_antisym b a).
  destruct (String.compare a b) eqn:H; cbn; auto.
  right; left. now apply String.compare_eq_iff.
Qed.

Lemma ltb_asym (a b : string) :
  String.ltb a b = true -> String.ltb b a = false.
Proof.
  unfold String.ltb. rewrite (String.compare_antisym b a).
  destruct (String.compare a b); cbn; congruence.
Qed.

Lemma ltb_trans (a b c : string) :
  String.ltb a b = true -> String.ltb b c = true -> String.ltb a c = true.
Proof.
  rewrite !ltb_lt. apply OrderedTypeEx.String_as_OT.lt_trans.
Qed.

Lemma ltb_irrefl (a : string) : String.ltb a a = false.
Proof.
  destruct (String.ltb a a) eqn:H; [|reflexivity].
  now rewrite (ltb_asym _ _ H) in H.
Qed.

Lemma ltb_negtrans (a b c : string) :
  String.ltb a b = false -> String.ltb b c = false -> String.ltb a c = false.
Proof.
  intros Hab Hbc. destruct (String.ltb a c) eqn:Hac; [|reflexivity].
  destruct (ltb_trichotomy a b) as [H | [-> | H]]; [congruence|congruence|].
  rewrite (ltb_trans _ _ _ H Hac) in Hbc. discriminate.
Qed.

(** ** Distinct values and groups *)

Lemma unique_In l x : In x (unique l) <-> In x l.
Proof.
  induction l as [|y l IH]; cbn; [tauto|].
  rewrite filter_In, IH, negb_true_iff.
  destruct (String.eqb x y) eqn:Hxy.
  - apply String.eqb_eq in Hxy. subst. tauto.
  - apply String.eqb_neq in Hxy. intuition congruence.
Qed.

Lemma unique_NoDup l : NoDup (unique l).
Proof.
  induction l as [|y l IH]; cbn; constructor.
  - rewrite filter_In, String.eqb_refl. cbn. intros [_ H]. discriminate.
  - now apply NoDup_filter.
Qed.

Lemma NoDup_StronglySorted_neq {A : Type} (l : list A) :
  NoDup l -> StronglySorted (fun a b => a <> b) l.
Proof.
  induction 1 as [|x l Hx _ IH]; constructor; auto.
  apply Forall_forall. intros y Hy ->. auto.
Qed.

Lemma sorted_strings_ascending l : NoDup l -> ascending (sorted_strings l).
Proof.
  intros Hnd. unfold ascending, sorted_strings.
  eapply StronglySorted_weaken;
    [|apply stable_sort_sorted with (S := fun a b : string => a <> b);
      [apply ltb_asym | apply ltb_negtrans
       | now apply NoDup_StronglySorted_neq]].
  intros a b [H1 [H2 | H2]]; [exact H2|].
  destruct (ltb_trichotomy a b) as [H | [H | H]]; congruence.
Qed.

Lemma ascending_NoDup l : ascending l -> NoDup l.
Proof.
  induction 1 as [|x l _ IH Hx]; constructor; auto.
  intros Hin. rewrite Forall_forall in Hx. specialize (Hx x Hin).
  now rewrite ltb_irrefl in Hx.
Qed.

Lemma groupby_keys {A : Type} (col : A -> string) df :
  map fst (groupby col df) = sorted_strings (unique (map col df)).
Proof.
  unfold groupby. rewrite map_map. cbn. apply map_id.
Qed.

Lemma groupby_keys_ascending {A : Type} (col : A -> string) df :
  ascending (map fst (groupby col df)).
Proof.
  rewrite groupby_keys. apply sorted_strings_ascending, unique_NoDup.
Qed.

Lemma groupby_In {A : Type} (col : A -> string) df g :
  In g (groupby col df) <->
  In (fst g) (map col df)
  /\ snd g = filter (fun r => String.eqb (col r) (fst g)) df.
Proof.
  unfold groupby. rewrite in_map_iff. split.
  - intros (k & <- & Hk). cbn. split; [|reflexivity].
    now apply unique_In, (stable_sort_In String.ltb).
  - intros [Hk Hg]. exists (fst g). split.
    + destruct g; cbn in *. now subst.
    + now apply (stable_sort_In String.ltb), unique_In.
Qed.

(** Two ascending lists with the same elements are the same list. *)
Lemma ascending_ext l l' :
  ascending l -> ascending l' -> (forall x, In x l <-> In x l') -> l = l'.
Proof.
  intros Hl. revert l'.
  induction Hl as [|x l Hl IH Hx]; intros l' Hl' Hin.
  - destruct l' as [|y l']; [reflexivity|].
    destruct (proj2 (Hin y) (or_introl eq_refl)).
  - destruct Hl' as [|y l' Hl' Hy].
    { destruct (proj1 (Hin x) (or_introl eq_refl)). }
    rewrite Forall_forall in Hx, Hy.
    assert (Hxy : x = y).
    { destruct (proj1 (Hin x) (or_introl eq_refl)) as [H | H]; [now symmetry|].
      destruct (proj2 (Hin y) (or_introl eq_refl)) as [H' | H']; [exact H'|].
      apply Hy in H. apply Hx in H'. apply ltb_asym in H. congruence. }
    subst y. f_equal. apply IH; [exact Hl'|].
    intro z. split; intros Hz.
    + destruct (proj1 (Hin z) (or_intror Hz)) as [H | H]; [|exact H].
      subst z. apply Hx in Hz. now rewrite ltb_irrefl in Hz.
    + destruct (proj2 (Hin z) (or_intror Hz)) as [H | H]; [|exact H].
      subst z. apply Hy in Hz. now rewrite ltb_irrefl in Hz.
Qed.

Lemma In_col_filter {A : Type} (col : A -> string) df k :
  In k (map col df) <-> filter (fun r => String.eqb (col r) k) df <> [].
Proof.
  split.
  - intros Hk Hnil. apply in_map_iff in Hk. destruct Hk as (r & <- & Hr).
    assert (H : In r (filter (fun r0 => String.eqb (col r0) (col r)) df))
      by (apply filter_In; split; [exact Hr | apply String.eqb_refl]).
    now rewrite Hnil in H.
  - intros Hne.
    destruct (filter (fun r => String.eqb (col r) k) df) as [|r g] eqn:Hf;
      [congruence|].
    assert (Hin : In r (r :: g)) by now left.
    rewrite <- Hf in Hin. apply filter_In in Hin. destruct Hin as [Hin Hk].
    apply String.eqb_eq in Hk. subst k. now apply in_map.
Qed.

(** The groups depend on the rows of each key only, not on how the rows of
    different keys follow one another. *)
Lemma groupby_same_groups {A : Type} (col : A -> string) df df' :
  (forall k, filter (fun r => String.eqb (col r) k) df'
             = filter (fun r => String.eqb (col r) k) df) ->
  groupby col df' = groupby col df
  /\ (df' = [] <-> df = []).
Proof.
  intros Hsame.
  assert (Hkeys : forall k, In k (map col df') <-> In k (map col df))
    by (intro k; now rewrite !In_col_filter, Hsame).
  split.
  - unfold groupby.
    rewrite (ascending_ext (sorted_strings (unique (map col df')))
               (sorted_strings (unique (map col df)))).
    + apply map_ext. intro k. now rewrite Hsame.
    + apply sorted_strings_ascending, unique_NoDup.
    + apply sorted_strings_ascending, unique_NoDup.
    + intro k. unfold sorted_strings.
      now rewrite !(stable_sort_In String.ltb), !unique_In.
  - split; intros ->.
    + destruct df as [|r df]; [reflexivity|]. exfalso.
      apply (proj2 (Hkeys (col r))). now left.
    + destruct df' as [|r df']; [reflexivity|]. exfalso.
      apply (proj1 (Hkeys (col r))). now left.
Qed.

(** ** Top-N ranking *)

Lemma agg_group_rows float_sum (col : Liq.t -> string) df row :
  In row (map (agg_group float_sum) (groupby col df)) <->
  In (tr_address row) (map col df)
  /\ row = group_row float_sum col df (tr_address row).
Proof.
  rewrite in_map_iff. split.
  - intros (g & <- & Hg). apply groupby_In in Hg. destruct Hg as [Hk Hg].
    unfold agg_group, group_row. cbn [tr_address]. rewrite Hg. auto.
  - intros [Hk Hrow].
    exists (tr_address row,
            filter (fun r => String.eqb (col r) (tr_address row)) df).
    split; [symmetry; exact Hrow|].
    apply groupby_In. cbn. auto.
Qed.

Lemma agg_group_addresses float_sum (col : Liq.t -> string) df :
  map tr_address (map (agg_group float_sum) (groupby col df))
  = map fst (groupby col df).
Proof. rewrite map_map. reflexivity. Qed.

(** The sorts of the vocabulary keep the promise. *)
Lemma ties_in_order_sorts : sorts_descending tr_total_usd ties_in_order.
Proof.
  intro df. split.
  - apply stable_sort_perm.
  - apply sort_values_desc_Q_sorted.
Qed.

Lemma ties_reversed_sorts : sorts_descending tr_total_usd ties_reversed.
Proof.
  intro df. split.
  - unfold ties_reversed, sort_values_desc_Q.
    rewrite stable_sort_perm. symmetry. apply Permutation_rev.
  - apply sort_values_desc_Q_sorted.
Qed.

Lemma sorts_descending_nil {A : Type} (col : A -> Q) sort :
  sorts_descending col sort -> sort [] = [].
Proof.
  intros Hsort. destruct (Hsort []) as [Hperm _].
  now apply Permutation_sym, Permutation_nil in Hperm.
Qed.

Section Ranking.
Variable float_sum : list Q -> Q.
Variable sort_by_total_usd : list top_row -> list top_row.
Hypothesis Hsort : sorts_descending tr_total_usd sort_by_total_usd.

Lemma sorted_groups_ranking (col : Liq.t -> string) df :
  ranking float_sum col df
    (sort_by_total_usd (map (agg_group float_sum) (groupby col df))).
Proof.
  destruct (Hsort (map (agg_group float_sum) (groupby col df)))
    as [Hperm Hsorted].
  split; [|split].
  - intro row. rewrite <- agg_group_rows.
    split; apply Permutation_in; [exact Hperm | now symmetry].
  - apply (Permutation_NoDup
             (Permutation_map tr_address (Permutation_sym Hperm))).
    rewrite agg_group_addresses.
    apply ascending_NoDup, groupby_keys_ascending.
  - exact Hsorted.
Qed.

(** A table with the two addresses [a] and [b], and the totals of [b]
    above those of [a]: [b] is ranked first. *)
Lemma two_groups_ranked (col : Liq.t -> string) df a b :
  String.ltb a b = true ->
  Forall (fun r => col r = a \/ col r = b) df ->
  In a (map col df) -> In b (map col df) ->
  (tr_total_usd (group_row float_sum col df a)
   < tr_total_usd (group_row float_sum col df b))%Q ->
  sort_by_total_usd (map (agg_group float_sum) (groupby col df))
  = [group_row float_sum col df b; group_row float_sum col df a].
Proof.
  intros Hab Hall Ha Hb Hlt.
  assert (Hkeys : map fst (groupby col df) = [a; b]).
  { apply ascending_ext.
    - apply groupby_keys_ascending.
    - repeat constructor. exact Hab.
    - intro x. rewrite groupby_keys.
      rewrite (stable_sort_In String.ltb), unique_In. split.
      + intros Hx. apply in_map_iff in Hx. destruct Hx as (r & <- & Hr).
        rewrite Forall_forall in Hall.
        destruct (Hall r Hr) as [-> | ->]; cbn; auto.
      + intros [<- | [<- | []]]; assumption. }
  assert (Hagg : map (agg_group float_sum) (groupby col df)
                 = [group_row float_sum col df a;
                    group_row float_sum col df b]).
  { unfold groupby in *. rewrite map_map in Hkeys. cbn [fst] in Hkeys.
    rewrite map_id in Hkeys. rewrite Hkeys. reflexivity. }
  rewrite Hagg. destruct (Hsort [group_row float_sum col df a;
                                 group_row float_sum col df b])
    as [Hperm Hsorted].
  apply Permutation_sym, Permutation_length_2_inv in Hperm.
  destruct Hperm as [Heq | Heq]; [|exact Heq].
  rewrite Heq in Hsorted. exfalso.
  inversion Hsorted as [|? ? _ Hfst]; subst.
  inversion Hfst as [|? ? Hle _]; subst.
  apply (Qlt_not_le _ _ Hlt Hle).
Qed.
End Ranking.

Lemma head_firstn {A : Type} (n : Z) (l : list A) :
  0 <= n -> head n l = firstn (Z.to_nat n) l.
Proof.
  intros Hn. unfold head. apply Z.leb_le in Hn. now rewrite Hn.
Qed.

Lemma count_pos_In (col : Liq.t -> string) df k :
  (0 < List.length (filter (fun r => String.eqb (col r) k) df))%nat ->
  In k (map col df).
Proof.
  intros Hlen.
  destruct (filter (fun r => String.eqb (col r) k) df) as [|r g] eqn:Hf;
    [cbn in Hlen; lia|].
  assert (Hin : In r (r :: g)) by now left.
  rewrite <- Hf in Hin. apply filter_In in Hin. destruct Hin as [Hin Hk].
  apply String.eqb_eq in Hk. subst k. now apply in_map.
Qed.



Lemma Qltb_irrefl x : Qltb x x = false.
Proof. apply Qltb_ge, Qle_refl. Qed.


(** ** Behaviour by size *)

Lemma filter_length_disjoint {A : Type} (p q : A -> bool) l :
  (forall x, p x = true -> q x = false) ->
  List.length (filter (fun x => p x || q x) l)
  = (List.length (filter p l) + List.length (filter q l))%nat.
Proof.
  intros Hpq. induction l as [|x l IH]; cbn; [reflexivity|].
  destruct (p x) eqn:Hp; cbn.
  - rewrite (Hpq x Hp). cbn. now rewrite IH.
  - destruct (q x); cbn; rewrite IH; lia.
Qed.

Lemma filter_length_all {A : Type} (p : A -> bool) l :
  (forall x, In x l -> p x = true) -> List.length (filter p l) = List.length l.
Proof.
  induction l as [|x l IH]; cbn; intros H; [reflexivity|].
  rewrite (H x) by now left. cbn. rewrite IH; auto.
Qed.

(** Counting the rows of each key of a duplicate-free list of keys counts
    every row that has one of the keys once. *)
Lemma count_by_key {A : Type} (key : A -> option string) ks (df : list A) :
  NoDup ks ->
  list_sum
    (map (fun k => List.length (filter (fun r => opt_string_eqb (key r) k) df))
         ks)
  = List.length (filter (fun r => existsb (opt_string_eqb (key r)) ks) df).
Proof.
  induction 1 as [|k ks Hk _ IH]; cbn [map existsb].
  - induction df as [|r df IHdf]; cbn; auto.
  - change (list_sum (?a :: ?l)) with (a + list_sum l)%nat. rewrite IH.
    symmetry. apply filter_length_disjoint.
    intros r Hr. unfold opt_string_eqb in *.
    destruct (key r) as [s|]; [|discriminate].
    apply String.eqb_eq in Hr. subst s.
    destruct (existsb (String.eqb k) ks) eqn:He; [|reflexivity].
    apply existsb_exists in He. destruct He as (k' & Hin & Heq).
    apply String.eqb_eq in Heq. subst. contradiction.
Qed.

Lemma bracket_in_labels (c : classified) :
  existsb (opt_string_eqb (BehaviorAnalyzer.size_bracket c)) behavior_labels
  = Qltb 1 (Liq.collateral_amount_btc (liq c)).
Proof.
  unfold BehaviorAnalyzer.size_bracket, cut, behavior_bins, behavior_labels.
  generalize (Liq.collateral_amount_btc (liq c)). intro v.
  cbn [searchsorted_left edge_ltb].
  split_Qltb; try reflexivity; lra.
Qed.

Lemma behavior_counts_of_group (g : list classified) :
  list_sum
    (map (fun b => List.length (filter (fun c => String.eqb (behavior c) b) g))
         (sorted_strings (unique (map behavior g))))
  = List.length g.
Proof.
  rewrite (count_by_key (fun c => Some (behavior c)))
    by (apply ascending_NoDup, sorted_strings_ascending, unique_NoDup).
  apply filter_length_all. intros c Hc. apply existsb_exists.
  exists (behavior c). split; [|apply String.eqb_refl].
  apply (stable_sort_In String.ltb), unique_In. now apply in_map.
Qed.

Lemma behavior_labels_NoDup : NoDup behavior_labels.
Proof.
  unfold behavior_labels. repeat constructor; cbn; intuition discriminate.
Qed.

Lemma get_behavior_by_size_total df :
  list_sum (map bs_count (get_behavior_by_size df))
  = List.length
      (filter (fun c => Qltb 1 (Liq.collateral_amount_btc (liq c))) df).
Proof.
  rewrite <- (filter_ext _ _ bracket_in_labels).
  rewrite <- (count_by_key BehaviorAnalyzer.size_bracket)
    by apply behavior_labels_NoDup.
  unfold get_behavior_by_size. destruct df as [|c0 df0].
  - reflexivity.
  - set (df := c0 :: df0). generalize behavior_labels. intro labels.
    induction labels as [|label labels IH]; [reflexivity|].
    cbn [flat_map map]. rewrite map_app, list_sum_app, IH.
    change (list_sum (?a :: ?l)) with (a + list_sum l)%nat.
    f_equal. rewrite map_map. cbn [bs_count].
    apply behavior_counts_of_group.
Qed.

(** C10: the behaviour-by-size breakdown gives a bracket exactly to the rows
    above 1, so the counts of the breakdown add up to the number of rows
    with an amount above 1 and each count is over rows of its bracket; a
    liquidation of exactly 1, which the classifier keeps under the minimum
    size 1, has no bracket and is in none of the counts. *)
Theorem behavior_by_size_leaves_out_up_to_one :
  (forall c : classified,
     BehaviorAnalyzer.size_bracket c = None <->
     (Liq.collateral_amount_btc (liq c) <= 1)%Q)
  /\ (forall df,
        list_sum (map bs_count (get_behavior_by_size df))
        = List.length
            (filter (fun c => Qltb 1 (Liq.collateral_amount_btc (liq c))) df))
  /\ (forall df row,
        In row (get_behavior_by_size df) ->
        bs_count row
        = List.length
            (filter (fun c => String.eqb (behavior c) (bs_behavior row))
               (filter (fun c => opt_string_eqb
                                   (BehaviorAnalyzer.size_bracket c)
                                                (bs_bracket row)) df)))
  /\ (forall liq_df actions_df asset_key window_hours cs l,
        classify_users liq_df actions_df asset_key 1 window_hours = Some cs ->
        In l liq_df ->
        (Liq.collateral_amount_btc l == 1)%Q ->
        exists c,
          In c cs /\ liq c = l /\ BehaviorAnalyzer.size_bracket c = None
          /\ forall row, In row (get_behavior_by_size cs) ->
                         BehaviorAnalyzer.size_bracket c
                         <> Some (bs_bracket row)).
Proof.
  assert (Hnone : forall c : classified,
             BehaviorAnalyzer.size_bracket c = None <->
             (Liq.collateral_amount_btc (liq c) <= 1)%Q).
  { intro c. unfold BehaviorAnalyzer.size_bracket, cut, behavior_bins,
               behavior_labels.
    generalize (Liq.collateral_amount_btc (liq c)). intro v.
    cbn [searchsorted_left edge_ltb].
    split_Qltb; split; intros; try discriminate; try reflexivity; lra. }
  split; [exact Hnone|]. split; [exact get_behavior_by_size_total|].
  split.
  - intros df row Hrow. unfold get_behavior_by_size in Hrow.
    destruct df as [|c0 df0]; [destruct Hrow|].
    apply in_flat_map in Hrow. destruct Hrow as (label & _ & Hrow).
    apply in_map_iff in Hrow. destruct Hrow as (b & <- & _). reflexivity.
  - intros liq_df actions_df asset_key window_hours cs l Hrun Hl Hone.
    apply classify_users_rows in Hrun. destruct Hrun as (config & _ & ->).
    set (f := match actions_df with
              | [] => passive_row
              | _ => _
              end).
    assert (Hf : liq (f l) = l) by (subst f; now destruct actions_df).
    assert (Hb : BehaviorAnalyzer.size_bracket (f l) = None)
      by (apply Hnone; rewrite Hf, Hone; apply Qle_refl).
    exists (f l). split; [|split; [exact Hf|split; [exact Hb|]]].
    + apply in_map, qualifying_In. split; [exact Hl|].
      rewrite Hone. apply Qle_refl.
    + intros row _. rewrite Hb. discriminate.
Qed.

Lemma behavior_by_size_leaves_out_up_to_one_witness :
  exists c,
    classify_users [liq_of_size 1] [] "wbtc" 1 48 = Some [c]
    /\ liq c = liq_of_size 1
    /\ BehaviorAnalyzer.size_bracket c = None
    /\ get_behavior_by_size [c] = [].
Proof.
  destruct (proj2 (proj2 (proj2 behavior_by_size_leaves_out_up_to_one))
              [liq_of_size 1] [] "wbtc" 48 _ (liq_of_size 1)
              eq_refl (or_introl eq_refl) (Qeq_refl 1))
    as (c & Hc & Hl & Hb & _).
  destruct Hc as [<- | []].
  eexists. split; [reflexivity|]. split; [exact Hl|]. split; [exact Hb|].
  reflexivity.
Defined.

(** * Further properties *)

(** ** The fetch loop under failures and errors *)

Section PaginateMore.
Variable delay : Q.
Variable extract : body -> list raw.
Variable tag : raw -> raw.

(** Whatever the endpoint does, a fetch that returns has read a prefix of
    the replies, one per post, and returns the pages of that prefix. *)
Lemma paginate_reads_prefix replies :
  forall attempt skip acc log r,
    paginate delay extract tag replies attempt skip acc log = Some r ->
    exists consumed,
      replies = consumed ++ unread r
      /\ returned r = acc ++ map tag (flat_map (page_of extract) consumed)
      /\ List.length (posts (trace r))
         = (List.length (posts log) + List.length consumed)%nat.
Proof.
  induction replies as [|r0 rest IH]; intros attempt skip acc log r Hrun;
    [discriminate|].
  cbn [paginate] in Hrun.
  assert (Hstop : forall page,
             page_of extract r0 = page ->
             Some (mk_run (acc ++ map tag page)
                          (log ++ [Post BATCH_SIZE skip]) rest) = Some r ->
             exists consumed,
               r0 :: rest = consumed ++ unread r
               /\ returned r
                  = acc ++ map tag (flat_map (page_of extract) consumed)
               /\ List.length (posts (trace r))
                  = (List.length (posts log) + List.length consumed)%nat).
  { intros page Hpage H. inversion H; subst r. exists [r0].
    cbn [flat_map returned trace unread app List.length].
    rewrite Hpage, app_nil_r, posts_app, length_app. cbn. auto. }
  assert (Hnext : forall page attempt' skip' e,
             page_of extract r0 = page ->
             posts [e] = [] ->
             paginate delay extract tag rest attempt' skip'
                      (acc ++ map tag page)
                      ((log ++ [Post BATCH_SIZE skip]) ++ [e]) = Some r ->
             exists consumed,
               r0 :: rest = consumed ++ unread r
               /\ returned r
                  = acc ++ map tag (flat_map (page_of extract) consumed)
               /\ List.length (posts (trace r))
                  = (List.length (posts log) + List.length consumed)%nat).
  { intros page attempt' skip' e Hpage He H. apply IH in H.
    destruct H as (consumed & Hc & Hret & Hposts).
    exists (r0 :: consumed). cbn [app flat_map List.length].
    rewrite Hret, Hposts, Hpage, map_app, <- app_assoc, <- Hc.
    rewrite !posts_app, He, app_nil_r, length_app. cbn.
    repeat split. lia. }
  destruct r0 as [|b].
  - destruct (attempt =? MAX_RETRIES).
    + apply (Hstop [] eq_refl). cbn [map]. now rewrite app_nil_r.
    + apply (Hnext [] (attempt + 1) skip (Sleep (delay * inject_Z attempt))
                   eq_refl eq_refl).
      cbn [map]. now rewrite app_nil_r.
  - cbn [page_of] in Hstop, Hnext. destruct (has_errors b).
    + apply (Hstop [] eq_refl). cbn [map]. now rewrite app_nil_r.
    + destruct (extract b) as [|x page].
      * apply (Hstop [] eq_refl). cbn [map]. now rewrite app_nil_r.
      * destruct (Z.of_nat (List.length (x :: page)) <? BATCH_SIZE).
        -- apply (Hstop _ eq_refl Hrun).
        -- apply (Hnext _ 1 (skip + BATCH_SIZE) (Sleep delay)
                         eq_refl eq_refl Hrun).
Qed.

(** A fetch runs out of replies only if every reply lets it go on. *)
Lemma paginate_None_goes_on replies :
  forall attempt skip acc log,
    paginate delay extract tag replies attempt skip acc log = None ->
    Forall (goes_on extract) replies.
Proof.
  induction replies as [|r0 rest IH]; intros attempt skip acc log Hrun;
    [constructor|].
  cbn [paginate] in Hrun. destruct r0 as [|b].
  - destruct (attempt =? MAX_RETRIES); [discriminate|].
    constructor; [exact I | eapply IH, Hrun].
  - destruct (has_errors b) eqn:Herr; [discriminate|].
    destruct (extract b) as [|x page] eqn:Hpage; [discriminate|].
    destruct (Z.of_nat (List.length (x :: page)) <? BATCH_SIZE) eqn:Hlen;
      [discriminate|].
    constructor; [|eapply IH, Hrun].
    split; [exact Herr|]. rewrite Hpage. now apply Z.ltb_ge.
Qed.

(** Nor does it get past three failures in a row. *)
Lemma paginate_None_no_three_failures replies :
  forall attempt skip acc log l1 l2,
    1 <= attempt <= MAX_RETRIES ->
    paginate delay extract tag replies attempt skip acc log = None ->
    replies
    <> l1 ++ RequestException :: RequestException :: RequestException :: l2.
Proof.
  unfold MAX_RETRIES.
  induction replies as [|r0 rest IH];
    intros attempt skip acc log l1 l2 Ha Hrun Heq.
  - destruct l1; discriminate.
  - destruct l1 as [|x l1].
    + cbn in Heq. inversion Heq; subst.
      cbn [paginate] in Hrun. unfold MAX_RETRIES in Hrun.
      destruct (attempt =? 3) eqn:H3; [discriminate|].
      destruct (attempt + 1 =? 3) eqn:H2; [discriminate|].
      destruct (attempt + 1 + 1 =? 3) eqn:H1; [discriminate|].
      apply Z.eqb_neq in H3, H2, H1. lia.
    + cbn in Heq. inversion Heq; subst. cbn [paginate] in Hrun.
      unfold MAX_RETRIES in Hrun. destruct x as [|b].
      * destruct (attempt =? 3) eqn:H3; [discriminate|].
        apply Z.eqb_neq in H3.
        eapply (IH (attempt + 1)); [|exact Hrun|reflexivity]. lia.
      * destruct (has_errors b); [discriminate|].
        destruct (extract b) as [|y page]; [discriminate|].
        destruct (Z.of_nat (List.length (y :: page)) <? BATCH_SIZE);
          [discriminate|].
        eapply (IH 1); [|exact Hrun|reflexivity]. lia.
Qed.

(** Full pages are read one after the other, with a sleep after each. *)
Lemma paginate_full_prefix bodies rest :
  Forall (full extract) bodies ->
  forall skip acc log,
    paginate delay extract tag (map Json bodies ++ rest) 1 skip acc log
    = paginate delay extract tag rest 1
        (skip + BATCH_SIZE * Z.of_nat (List.length bodies))
        (acc ++ map tag (List.concat (map extract bodies)))
        (log ++ full_trace delay skip (List.length bodies)).
Proof.
  induction 1 as [|b bodies [Hb Hlen] _ IH]; intros skip acc log.
  - cbn. now rewrite Z.add_0_r, !app_nil_r.
  - cbn [map app paginate]. rewrite Hb. apply Z.ltb_ge in Hlen.
    destruct (extract b) as [|x page]; [discriminate Hlen|].
    cbn [List.length] in *. rewrite Hlen, IH.
    cbn [List.concat List.length full_trace map].
    rewrite !map_app, <- !app_assoc. cbn [app]. f_equal. lia.
Qed.

(** Failed attempts short of the last one are retried at the same offset,
    after a sleep that grows with the attempt number. *)
Lemma paginate_retries k rest :
  forall attempt skip acc log,
    attempt + Z.of_nat k <= MAX_RETRIES ->
    paginate delay extract tag (repeat RequestException k ++ rest)
             attempt skip acc log
    = paginate delay extract tag rest (attempt + Z.of_nat k) skip acc
               (log ++ retry_trace delay skip attempt k).
Proof.
  induction k as [|k IH]; intros attempt skip acc log Hk.
  - cbn. now rewrite Z.add_0_r, app_nil_r.
  - cbn [repeat app paginate retry_trace].
    assert (Hne : (attempt =? MAX_RETRIES) = false) by (apply Z.eqb_neq; lia).
    rewrite Hne, IH by lia. rewrite <- !app_assoc. cbn [app].
    f_equal. lia.
Qed.

Lemma posts_retry_trace skip attempt k :
  posts (retry_trace delay skip attempt k) = repeat skip k.
Proof.
  revert attempt. induction k as [|k IH]; intro attempt; [reflexivity|].
  cbn [retry_trace repeat].
  change (posts (Post BATCH_SIZE skip :: Sleep ?d :: ?l))
    with (skip :: posts l).
  now rewrite IH.
Qed.

(** Pages that each come after at most two failed attempts are read as if
    nothing had failed. *)
Lemma paginate_retried_pages ds kl last rest :
  Forall (fun kb => (fst kb <= 2)%nat /\ full extract (snd kb)) ds ->
  (kl <= 2)%nat ->
  short extract last ->
  forall skip acc log,
  exists log',
    paginate delay extract tag
      (flat_map (fun kb => retried (fst kb) (snd kb)) ds
       ++ retried kl last ++ rest) 1 skip acc log
    = Some (mk_run
              (acc ++ map tag (List.concat (map (fun kb => extract (snd kb)) ds)
                               ++ extract last))
              log' rest)
    /\ posts log' = posts log ++ retry_posts skip (map fst ds ++ [kl]).
Proof.
  intros Hds Hkl [Herr Hshort].
  induction Hds as [|[k b] ds [Hk [Hb Hlen]] _ IH]; intros skip acc log.
  - cbn [flat_map app map List.concat]. unfold retried.
    rewrite <- app_assoc, paginate_retries by (unfold MAX_RETRIES; lia).
    cbn [app paginate]. rewrite Herr. apply Z.ltb_lt in Hshort.
    eexists. split.
    + destruct (extract last) as [|x page].
      * cbn [map]. rewrite app_nil_r. reflexivity.
      * cbn [List.length] in *. rewrite Hshort. reflexivity.
    + rewrite !posts_app, posts_retry_trace.
      change (posts [Post BATCH_SIZE skip]) with [skip].
      cbn [map app retry_posts]. rewrite app_nil_r, <- app_assoc.
      f_equal. symmetry. apply repeat_cons.
  - cbn [flat_map fst snd] in *. unfold retried at 1.
    rewrite <- !app_assoc, paginate_retries by (unfold MAX_RETRIES; lia).
    cbn [app paginate]. rewrite Hb. apply Z.ltb_ge in Hlen.
    destruct (extract b) as [|x page] eqn:Hpage; [discriminate Hlen|].
    cbn [List.length] in *. rewrite Hlen.
    destruct (IH (skip + BATCH_SIZE) (acc ++ map tag (x :: page))
                 (((log ++ retry_trace delay skip 1 k)
                     ++ [Post BATCH_SIZE skip]) ++ [Sleep delay]))
      as (log' & Hrun & Hposts).
    exists log'. split.
    + rewrite Hrun. cbn [map List.concat snd]. rewrite Hpage.
      now rewrite !map_app, <- !app_assoc.
    + rewrite Hposts, !posts_app, posts_retry_trace.
      change (posts [Post BATCH_SIZE skip]) with [skip].
      change (posts [Sleep delay]) with (@nil Z).
      cbn [map fst app retry_posts]. rewrite app_nil_r, <- !app_assoc.
      f_equal. rewrite app_assoc. f_equal. symmetry. apply repeat_cons.
Qed.
End PaginateMore.

Lemma Forall2_In_l {A B : Type} (P : A -> B -> Prop) l l' x :
  Forall2 P l l' -> In x l -> exists y, In y l' /\ P x y.
Proof.
  induction 1 as [|a b l l' Hab _ IH]; intros Hin; [destruct Hin|].
  destruct Hin as [-> | Hin]; [exists b; cbn; auto|].
  destruct (IH Hin) as (y & Hy & Hp). exists y. cbn. auto.
Qed.

Lemma Forall2_In_r {A B : Type} (P : A -> B -> Prop) l l' y :
  Forall2 P l l' -> In y l' -> exists x, In x l /\ P x y.
Proof.
  induction 1 as [|a b l l' Hab _ IH]; intros Hin; [destruct Hin|].
  destruct Hin as [-> | Hin]; [exists a; cbn; auto|].
  destruct (IH Hin) as (x & Hx & Hp). exists x. cbn. auto.
Qed.

Lemma Forall2_length_eq {A B : Type} (P : A -> B -> Prop) l l' :
  Forall2 P l l' -> List.length l = List.length l'.
Proof. induction 1; cbn; auto. Qed.

Lemma dict_get_set_same k v d : dict_get k (dict_set k v d) = Some v.
Proof.
  unfold dict_get. induction d as [|[k' v'] d IH]; cbn.
  - now rewrite String.eqb_refl.
  - destruct (String.eqb k' k) eqn:Hk; cbn.
    + now rewrite String.eqb_refl.
    + now rewrite Hk.
Qed.

Lemma dict_get_set_other k k' v d :
  k' <> k -> dict_get k' (dict_set k v d) = dict_get k' d.
Proof.
  intros Hne. unfold dict_get. induction d as [|[k0 v0] d IH]; cbn.
  - apply String.eqb_neq in Hne. rewrite String.eqb_sym in Hne.
    now rewrite Hne.
  - destruct (String.eqb k0 k) eqn:Hk; cbn.
    + apply String.eqb_eq in Hk. subst k0.
      apply String.eqb_neq in Hne. rewrite String.eqb_sym in Hne.
      now rewrite Hne.
    + destruct (String.eqb k0 k'); [reflexivity | exact IH].
Qed.

(** X1: for every behaviour of the endpoint, a fetch that returns has read
    a prefix of the replies, one reply per post, and what it returns is the
    concatenation of the pages that the error-free bodies of that prefix
    hold in their data (for liquidations with the version written into
    each record): no record is lost, doubled or made up. *)
Theorem fetch_returns_the_pages_read (endpoint : list reply)
        (version : string) :
  (forall r,
     _fetch_liquidations_from_endpoint endpoint version = Some r ->
     exists consumed pages,
       endpoint = consumed ++ unread r
       /\ Forall2 (reply_gives holds_liquidations) consumed pages
       /\ returned r = map (dict_set "version" (JStr version))
                           (List.concat pages)
       /\ List.length (posts (trace r)) = List.length consumed)
  /\ (forall r,
        UserBehaviorFetcher._fetch_user_events endpoint = Some r ->
        exists consumed pages,
          endpoint = consumed ++ unread r
          /\ Forall2 (reply_gives holds_events) consumed pages
          /\ returned r = List.concat pages
          /\ List.length (posts (trace r)) = List.length consumed).
Proof.
  split; intros r Hrun; apply paginate_reads_prefix in Hrun;
    destruct Hrun as (consumed & Hc & Hret & Hposts);
    exists consumed.
  - exists (map (page_of liquidates) consumed).
    split; [exact Hc|].
    split; [apply held_replies, holds_liquidations_iff|].
    split; [|exact Hposts].
    rewrite Hret. cbn [app]. now rewrite flat_map_concat_map.
  - exists (map (page_of UserBehaviorFetcher.events) consumed).
    split; [exact Hc|].
    split; [apply held_replies, holds_events_iff|].
    split; [|exact Hposts].
    rewrite Hret. cbn [app]. rewrite map_id. apply flat_map_concat_map.
Qed.

Lemma fetch_returns_the_pages_read_witness :
  (exists r,
     _fetch_liquidations_from_endpoint
       [RequestException; Json (liquidates_page 2); RequestException] "V2"
     = Some r
     /\ returned r = [[("id", JStr "L"); ("version", JStr "V2")];
                      [("id", JStr "L"); ("version", JStr "V2")]]
     /\ unread r = [RequestException])
  /\ (exists r,
        UserBehaviorFetcher._fetch_user_events
          [Json (mk_body false [("repays", [[("id", JStr "R")]]);
                                ("deposits", [[("id", JStr "D")]])]);
           RequestException]
        = Some r
        /\ returned r = [[("id", JStr "D")]]
        /\ unread r = [RequestException]).
Proof.
  split.
  - eexists. split; [reflexivity|].
    destruct (proj1 (fetch_returns_the_pages_read
                       [RequestException; Json (liquidates_page 2);
                        RequestException] "V2") _ eq_refl)
      as (consumed & pages & Hc & Hpages & Hret & Hposts).
    cbn [unread] in Hc.
    assert (Hcons : consumed = [RequestException; Json (liquidates_page 2)]).
    { apply (app_inv_tail [RequestException]). now rewrite <- Hc. }
    subst consumed. split; [|reflexivity]. rewrite Hret.
    inversion Hpages as [|? p1 ? ? H1 Hrest]; subst.
    inversion Hrest as [|? p2 ? ? H2 Hnil]; subst.
    inversion Hnil; subst. cbn in H1, H2. subst p1.
    destruct H2 as [_ [H2 | [H2 _]]]; [|discriminate H2].
    inversion H2; subst. reflexivity.
  - eexists. split; [reflexivity|].
    destruct (proj2 (fetch_returns_the_pages_read
                       [Json (mk_body false
                                [("repays", [[("id", JStr "R")]]);
                                 ("deposits", [[("id", JStr "D")]])]);
                        RequestException] "V2") _ eq_refl)
      as (consumed & pages & Hc & Hpages & Hret & Hposts).
    cbn [unread] in Hc.
    assert (Hcons : consumed
                    = [Json (mk_body false
                               [("repays", [[("id", JStr "R")]]);
                                ("deposits", [[("id", JStr "D")]])])]).
    { apply (app_inv_tail [RequestException]). now rewrite <- Hc. }
    subst consumed. split; [|reflexivity]. rewrite Hret.
    inversion Hpages as [|? p1 ? ? H1 Hnil]; subst.
    inversion Hnil; subst. cbn in H1.
    destruct H1 as [_ [H1 | [H1 _]]]; [|discriminate H1].
    inversion H1; subst. reflexivity.
Defined.

(** X2: a fetch cannot run past a reply that stops it: if the replies hold
    a body with an error list or with a page below the page size, or three
    failures in a row, the fetch returns. *)
Theorem fetch_returns_when_a_reply_stops_it (endpoint : list reply)
        (version : string) :
  (Exists (fun r => ~ goes_on liquidates r) endpoint
   \/ (exists l1 l2,
         endpoint = l1 ++ RequestException :: RequestException
                       :: RequestException :: l2) ->
   exists r, _fetch_liquidations_from_endpoint endpoint version = Some r)
  /\ (Exists (fun r => ~ goes_on UserBehaviorFetcher.events r) endpoint
      \/ (exists l1 l2,
            endpoint = l1 ++ RequestException :: RequestException
                          :: RequestException :: l2) ->
      exists r, UserBehaviorFetcher._fetch_user_events endpoint = Some r).
Proof.
  split; intros Hstop.
  - destruct (_fetch_liquidations_from_endpoint endpoint version)
      as [r|] eqn:Hrun; [now exists r|]. exfalso.
    destruct Hstop as [Hex | (l1 & l2 & Heq)].
    + apply paginate_None_goes_on in Hrun.
      apply Exists_exists in Hex. destruct Hex as (x & Hin & Hx).
      rewrite Forall_forall in Hrun. auto.
    + revert Heq. eapply paginate_None_no_three_failures; [|exact Hrun].
      unfold MAX_RETRIES. lia.
  - destruct (UserBehaviorFetcher._fetch_user_events endpoint)
      as [r|] eqn:Hrun; [now exists r|]. exfalso.
    destruct Hstop as [Hex | (l1 & l2 & Heq)].
    + apply paginate_None_goes_on in Hrun.
      apply Exists_exists in Hex. destruct Hex as (x & Hin & Hx).
      rewrite Forall_forall in Hrun. auto.
    + revert Heq. eapply paginate_None_no_three_failures; [|exact Hrun].
      unfold MAX_RETRIES. lia.
Qed.

Lemma fetch_returns_when_a_reply_stops_it_witness :
  Exists (fun r => ~ goes_on liquidates r)
         [RequestException; Json (liquidates_page 2)]
  /\ exists r,
       _fetch_liquidations_from_endpoint
         [RequestException; Json (liquidates_page 2)] "V3" = Some r.
Proof.
  assert (H : Exists (fun r => ~ goes_on liquidates r)
                     [RequestException; Json (liquidates_page 2)]).
  { apply Exists_cons_tl, Exists_cons_hd. intros [_ Hlen].
    vm_compute in Hlen. now apply Hlen. }
  split; [exact H|].
  exact (proj1 (fetch_returns_when_a_reply_stops_it _ "V3") (or_introl H)).
Defined.

Section PartialResults.
Variable delay : Q.
Variable extract : body -> list raw.
Variable tag : raw -> raw.

Lemma paginate_three_failures bodies rest :
  Forall (full extract) bodies ->
  let skip := BATCH_SIZE * Z.of_nat (List.length bodies) in
  paginate delay extract tag
    (map Json bodies
     ++ RequestException :: RequestException :: RequestException :: rest)
    1 0 [] []
  = Some (mk_run
            (map tag (List.concat (map extract bodies)))
            (full_trace delay 0 (List.length bodies)
             ++ retry_trace delay skip 1 2 ++ [Post BATCH_SIZE skip])
            rest).
Proof.
  intros Hfull skip. rewrite paginate_full_prefix by exact Hfull.
  cbn [app]. fold skip.
  change (RequestException :: RequestException :: RequestException :: rest)
    with (repeat RequestException 2 ++ RequestException :: rest).
  rewrite paginate_retries by (unfold MAX_RETRIES; lia).
  cbn [paginate]. rewrite Z.add_0_l. cbn [Z.of_nat Z.add Z.eqb MAX_RETRIES].
  cbn. now rewrite <- !app_assoc.
Qed.

Lemma paginate_query_errors bodies e rest :
  Forall (full extract) bodies ->
  has_errors e = true ->
  let skip := BATCH_SIZE * Z.of_nat (List.length bodies) in
  paginate delay extract tag (map Json bodies ++ Json e :: rest) 1 0 [] []
  = Some (mk_run
            (map tag (List.concat (map extract bodies)))
            (full_trace delay 0 (List.length bodies) ++ [Post BATCH_SIZE skip])
            rest).
Proof.
  intros Hfull He skip. rewrite paginate_full_prefix by exact Hfull.
  cbn [app paginate]. now rewrite He, Z.add_0_l.
Qed.
End PartialResults.

(** X3: when a page request fails three times in a row, the fetch gives up
    and returns the pages accumulated so far, without raising: the failed
    offset is posted three times, with sleeps of one and two delays between
    the attempts, and the replies after the third failure are not read.
    The pages are those the bodies hold in their data. *)
Theorem fetch_gives_up_after_three_failures
        (bodies : list body) (pages : list (list raw)) (rest : list reply)
        (version : string) (Hfull : Forall full_page pages) :
  let skip := BATCH_SIZE * Z.of_nat (List.length pages) in
  let failures := [RequestException; RequestException; RequestException] in
  (Forall2 holds_liquidations bodies pages ->
   _fetch_liquidations_from_endpoint
     (map Json bodies ++ failures ++ rest) version
   = Some (mk_run
             (map (dict_set "version" (JStr version)) (List.concat pages))
             (full_trace Fetcher.RATE_LIMIT_DELAY 0 (List.length pages)
              ++ [Post BATCH_SIZE skip;
                  Sleep (Fetcher.RATE_LIMIT_DELAY * inject_Z 1);
                  Post BATCH_SIZE skip;
                  Sleep (Fetcher.RATE_LIMIT_DELAY * inject_Z 2);
                  Post BATCH_SIZE skip])
             rest))
  /\ (Forall2 holds_events bodies pages ->
      UserBehaviorFetcher._fetch_user_events
        (map Json bodies ++ failures ++ rest)
      = Some (mk_run
                (List.concat pages)
                (full_trace UserBehaviorFetcher.RATE_LIMIT_DELAY 0
                            (List.length pages)
                 ++ [Post BATCH_SIZE skip;
                     Sleep (UserBehaviorFetcher.RATE_LIMIT_DELAY * inject_Z 1);
                     Post BATCH_SIZE skip;
                     Sleep (UserBehaviorFetcher.RATE_LIMIT_DELAY * inject_Z 2);
                     Post BATCH_SIZE skip])
                rest)).
Proof.
  intros skip failures. subst skip. split; intros Hbodies.
  - destruct (held_full_pages _ _ holds_liquidations_iff _ _ Hbodies Hfull)
      as [Hall Hmap].
    unfold _fetch_liquidations_from_endpoint, failures. cbn [app].
    rewrite paginate_three_failures by exact Hall.
    rewrite Hmap, <- Hmap, length_map. reflexivity.
  - destruct (held_full_pages _ _ holds_events_iff _ _ Hbodies Hfull)
      as [Hall Hmap].
    unfold UserBehaviorFetcher._fetch_user_events, failures. cbn [app].
    rewrite paginate_three_failures by exact Hall.
    rewrite map_id, Hmap, <- Hmap, length_map. reflexivity.
Qed.

Lemma fetch_gives_up_after_three_failures_witness :
  (exists r,
     _fetch_liquidations_from_endpoint
       ([Json (liquidates_page 1000)]
        ++ [RequestException; RequestException; RequestException]
        ++ [Json (liquidates_page 1)]) "V3" = Some r
     /\ returned r
        = repeat [("id", JStr "L"); ("version", JStr "V3")] 1000
     /\ posts (trace r) = [0; 1000; 1000; 1000]
     /\ unread r = [Json (liquidates_page 1)])
  /\ (exists r,
        UserBehaviorFetcher._fetch_user_events
          ([Json (events_page "deposits" 1000)]
           ++ [RequestException; RequestException; RequestException]
           ++ [Json (events_page "deposits" 1)]) = Some r
        /\ returned r = repeat [("id", JStr "E")] 1000
        /\ posts (trace r) = [0; 1000; 1000; 1000]
        /\ unread r = [Json (events_page "deposits" 1)]).
Proof.
  assert (Hfull : forall x : raw, Forall full_page [repeat x 1000]).
  { intro x. constructor; [|constructor]. unfold full_page.
    rewrite repeat_length. now vm_compute. }
  split; eexists; (split; [|split; [|split]]).
  - apply (proj1 (fetch_gives_up_after_three_failures
                    [liquidates_page 1000] [repeat [("id", JStr "L")] 1000]
                    [Json (liquidates_page 1)] "V3" (Hfull _))).
    constructor; [|constructor]. split; [reflexivity | now left].
  - cbn [returned]. now vm_compute.
  - cbn [trace]. now vm_compute.
  - reflexivity.
  - apply (proj2 (fetch_gives_up_after_three_failures
                    [events_page "deposits" 1000]
                    [repeat [("id", JStr "E")] 1000]
                    [Json (events_page "deposits" 1)] "V3" (Hfull _))).
    constructor; [|constructor]. split; [reflexivity | now left].
  - cbn [returned]. now vm_compute.
  - cbn [trace]. now vm_compute.
  - reflexivity.
Defined.

(** X4: a body with an error list ends the fetch at once: the pages
    accumulated so far are returned, whatever data the body carries is
    ignored, and no further reply is read. The pages are those the bodies
    before it hold in their data. *)
Theorem fetch_stops_on_query_errors
        (bodies : list body) (pages : list (list raw)) (e : body)
        (rest : list reply) (version : string)
        (Hfull : Forall full_page pages) (He : has_errors e = true) :
  let skip := BATCH_SIZE * Z.of_nat (List.length pages) in
  (Forall2 holds_liquidations bodies pages ->
   _fetch_liquidations_from_endpoint
     (map Json bodies ++ Json e :: rest) version
   = Some (mk_run
             (map (dict_set "version" (JStr version)) (List.concat pages))
             (full_trace Fetcher.RATE_LIMIT_DELAY 0 (List.length pages)
              ++ [Post BATCH_SIZE skip])
             rest))
  /\ (Forall2 holds_events bodies pages ->
      UserBehaviorFetcher._fetch_user_events
        (map Json bodies ++ Json e :: rest)
      = Some (mk_run
                (List.concat pages)
                (full_trace UserBehaviorFetcher.RATE_LIMIT_DELAY 0
                            (List.length pages)
                 ++ [Post BATCH_SIZE skip])
                rest)).
Proof.
  intros skip. subst skip. split; intros Hbodies.
  - destruct (held_full_pages _ _ holds_liquidations_iff _ _ Hbodies Hfull)
      as [Hall Hmap].
    unfold _fetch_liquidations_from_endpoint.
    rewrite paginate_query_errors by assumption.
    rewrite Hmap, <- Hmap, length_map. reflexivity.
  - destruct (held_full_pages _ _ holds_events_iff _ _ Hbodies Hfull)
      as [Hall Hmap].
    unfold UserBehaviorFetcher._fetch_user_events.
    rewrite paginate_query_errors by assumption.
    rewrite map_id, Hmap, <- Hmap, length_map. reflexivity.
Qed.

Lemma fetch_stops_on_query_errors_witness :
  (exists r,
     _fetch_liquidations_from_endpoint
       [Json (liquidates_page 1000);
        Json (mk_body true [("liquidates", [[]; []])]);
        Json (liquidates_page 1)] "V3" = Some r
     /\ returned r
        = repeat [("id", JStr "L"); ("version", JStr "V3")] 1000
     /\ posts (trace r) = [0; 1000]
     /\ unread r = [Json (liquidates_page 1)])
  /\ (exists r,
        UserBehaviorFetcher._fetch_user_events
          [Json (events_page "repays" 1000);
           Json (mk_body true [("repays", [[]; []])]);
           Json (events_page "repays" 1)] = Some r
        /\ returned r = repeat [("id", JStr "E")] 1000
        /\ posts (trace r) = [0; 1000]
        /\ unread r = [Json (events_page "repays" 1)]).
Proof.
  assert (Hfull : forall x : raw, Forall full_page [repeat x 1000]).
  { intro x. constructor; [|constructor]. unfold full_page.
    rewrite repeat_length. now vm_compute. }
  split; eexists; (split; [|split; [|split]]).
  - apply (proj1 (fetch_stops_on_query_errors
                    [liquidates_page 1000] [repeat [("id", JStr "L")] 1000]
                    (mk_body true [("liquidates", [[]; []])])
                    [Json (liquidates_page 1)] "V3" (Hfull _) eq_refl)).
    constructor; [|constructor]. split; [reflexivity | now left].
  - cbn [returned]. now vm_compute.
  - cbn [trace]. now vm_compute.
  - reflexivity.
  - apply (proj2 (fetch_stops_on_query_errors
                    [events_page "repays" 1000]
                    [repeat [("id", JStr "E")] 1000]
                    (mk_body true [("repays", [[]; []])])
                    [Json (events_page "repays" 1)] "V3" (Hfull _) eq_refl)).
    constructor; [|constructor].
    split; [reflexivity|]. right. split; [reflexivity | now left].
  - cbn [returned]. now vm_compute.
  - cbn [trace]. now vm_compute.
  - reflexivity.
Defined.

Lemma held_retried_pages extract holds (ds : list (nat * body)) pages :
  (forall b page,
      holds b page <-> has_errors b = false /\ extract b = page) ->
  Forall2 (fun kb page => (fst kb <= 2)%nat /\ holds (snd kb) page)
          ds pages ->
  Forall full_page pages ->
  Forall (fun kb => (fst kb <= 2)%nat /\ full extract (snd kb)) ds
  /\ map (fun kb => extract (snd kb)) ds = pages.
Proof.
  intros holds_iff.
  induction 1 as [|kb page ds pages [Hk Hb] _ IH]; intros Hfull.
  - split; constructor.
  - inversion Hfull as [|? ? Hpage Hrest]; subst.
    destruct (IH Hrest) as [Hall Hmap].
    apply holds_iff in Hb. destruct Hb as [Herr Hex].
    split; [|cbn; congruence].
    constructor; [|exact Hall]. split; [exact Hk|].
    split; [exact Herr|]. now rewrite Hex.
Qed.

(** X5: failed attempts that stay within the retry budget do not show in
    the result: when every page comes after at most two failures, the
    fetch returns the same records as without failures, the pages the
    bodies hold in their data, and each offset is posted once per
    attempt. *)
Theorem fetch_retries_do_not_show
        (ds : list (nat * body)) (pages : list (list raw))
        (kl : nat) (last : body) (last_page : list raw)
        (rest : list reply) (version : string) (Hkl : (kl <= 2)%nat)
        (Hfull : Forall full_page pages) (Hshort : short_page last_page) :
  let endpoint :=
    flat_map (fun kb => retried (fst kb) (snd kb)) ds
    ++ retried kl last ++ rest in
  (Forall2 (fun kb page =>
              (fst kb <= 2)%nat /\ holds_liquidations (snd kb) page)
           ds pages ->
   holds_liquidations last last_page ->
   exists r,
     _fetch_liquidations_from_endpoint endpoint version = Some r
     /\ returned r
        = map (dict_set "version" (JStr version))
              (List.concat pages ++ last_page)
     /\ posts (trace r) = retry_posts 0 (map fst ds ++ [kl])
     /\ unread r = rest)
  /\ (Forall2 (fun kb page =>
                 (fst kb <= 2)%nat /\ holds_events (snd kb) page)
              ds pages ->
      holds_events last last_page ->
      exists r,
        UserBehaviorFetcher._fetch_user_events endpoint = Some r
        /\ returned r = List.concat pages ++ last_page
        /\ posts (trace r) = retry_posts 0 (map fst ds ++ [kl])
        /\ unread r = rest).
Proof.
  intros endpoint. split; intros Hpages Hlast.
  - destruct (held_retried_pages _ _ _ _ holds_liquidations_iff Hpages Hfull)
      as [Hds Hmap].
    destruct (held_short_page _ _ holds_liquidations_iff _ _ Hlast Hshort)
      as [Hsh Hex].
    destruct (paginate_retried_pages Fetcher.RATE_LIMIT_DELAY liquidates
                (dict_set "version" (JStr version)) ds kl last rest
                Hds Hkl Hsh 0 [] []) as (log' & Hrun & Hposts).
    eexists. split; [exact Hrun|]. cbn [returned trace unread app].
    rewrite Hmap, Hex. repeat split. exact Hposts.
  - destruct (held_retried_pages _ _ _ _ holds_events_iff Hpages Hfull)
      as [Hds Hmap].
    destruct (held_short_page _ _ holds_events_iff _ _ Hlast Hshort)
      as [Hsh Hex].
    destruct (paginate_retried_pages UserBehaviorFetcher.RATE_LIMIT_DELAY
                UserBehaviorFetcher.events (fun ev => ev) ds kl last rest
                Hds Hkl Hsh 0 [] []) as (log' & Hrun & Hposts).
    eexists. split; [exact Hrun|]. cbn [returned trace unread app].
    rewrite Hmap, Hex. repeat split; [apply map_id | exact Hposts].
Qed.

Lemma fetch_retries_do_not_show_witness :
  (exists r,
     _fetch_liquidations_from_endpoint
       ([RequestException; Json (liquidates_page 1000)]
        ++ [RequestException; RequestException; Json (liquidates_page 1)]
        ++ []) "V3" = Some r
     /\ returned r
        = repeat [("id", JStr "L"); ("version", JStr "V3")] 1001
     /\ posts (trace r) = [0; 0; 1000; 1000; 1000])
  /\ (exists r,
        UserBehaviorFetcher._fetch_user_events
          ([RequestException; Json (events_page "deposits" 1000)]
           ++ [RequestException; RequestException;
               Json (events_page "deposits" 1)]
           ++ []) = Some r
        /\ returned r = repeat [("id", JStr "E")] 1001
        /\ posts (trace r) = [0; 0; 1000; 1000; 1000]).
Proof.
  assert (Hfull : forall x : raw, Forall full_page [repeat x 1000]).
  { intro x. constructor; [|constructor]. unfold full_page.
    rewrite repeat_length. now vm_compute. }
  split.
  - destruct (proj1 (fetch_retries_do_not_show
                       [(1%nat, liquidates_page 1000)]
                       [repeat [("id", JStr "L")] 1000]
                       2 (liquidates_page 1) [[("id", JStr "L")]]
                       [] "V3" (le_n 2) (Hfull _) ltac:(now vm_compute)))
      as (r & Hrun & Hret & Hposts & _).
    + constructor; [|constructor]. split; [cbn; lia|].
      split; [reflexivity | now left].
    + split; [reflexivity | now left].
    + exists r. split; [exact Hrun|]. split; [|exact Hposts].
      rewrite Hret. now vm_compute.
  - destruct (proj2 (fetch_retries_do_not_show
                       [(1%nat, events_page "deposits" 1000)]
                       [repeat [("id", JStr "E")] 1000]
                       2 (events_page "deposits" 1) [[("id", JStr "E")]]
                       [] "V3" (le_n 2) (Hfull _) ltac:(now vm_compute)))
      as (r & Hrun & Hret & Hposts & _).
    + constructor; [|constructor]. split; [cbn; lia|].
      split; [reflexivity | now left].
    + split; [reflexivity | now left].
    + exists r. split; [exact Hrun|]. split; [|exact Hposts].
      rewrite Hret. now vm_compute.
Defined.

(** X6: whatever the endpoint does, every record the liquidation fetch
    returns carries the version it was fetched under, overriding a version
    member the endpoint may have sent, and every other member is as the
    endpoint sent it. *)
Theorem fetched_liquidations_carry_the_version
        (endpoint : list reply) (version : string) (r : run)
        (Hrun : _fetch_liquidations_from_endpoint endpoint version = Some r) :
  exists consumed,
    endpoint = consumed ++ unread r
    /\ Forall2
         (fun sent rec =>
            dict_get "version" rec = Some (JStr version)
            /\ forall k, k <> "version" -> dict_get k rec = dict_get k sent)
         (flat_map (page_of liquidates) consumed) (returned r).
Proof.
  apply paginate_reads_prefix in Hrun.
  destruct Hrun as (consumed & Hc & Hret & _).
  exists consumed. split; [exact Hc|]. rewrite Hret. cbn [app].
  apply Forall2_map_right. intros sent _. split.
  - apply dict_get_set_same.
  - intros k Hk. now apply dict_get_set_other.
Qed.

Lemma fetched_liquidations_carry_the_version_witness :
  exists r,
    _fetch_liquidations_from_endpoint
      (one_page [[("id", JStr "L1"); ("version", JStr "old")]]) "V3" = Some r
    /\ Forall (fun rec => dict_get "version" rec = Some (JStr "V3"))
              (returned r).
Proof.
  eexists. split; [reflexivity|].
  destruct (fetched_liquidations_carry_the_version
              (one_page [[("id", JStr "L1"); ("version", JStr "old")]])
              "V3" _ eq_refl) as (consumed & _ & Hall).
  apply Forall_forall. intros rec Hrec.
  destruct (Forall2_In_r _ _ _ _ Hall Hrec) as (sent & _ & Hv & _).
  exact Hv.
Defined.

(** ** Normalising raw records *)

Lemma traverse_Some {A B : Type} (f : A -> option B) l ys :
  traverse f l = Some ys -> Forall2 (fun x y => f x = Some y) l ys.
Proof.
  revert ys. induction l as [|x l IH]; cbn; intros ys H.
  - inversion H. constructor.
  - unfold bind in H. destruct (f x) as [y|] eqn:Hx; [|discriminate].
    destruct (traverse f l) as [ys'|]; [|discriminate].
    inversion H; subst. constructor; auto.
Qed.

Lemma traverse_None {A B : Type} (f : A -> option B) l x :
  In x l -> f x = None -> traverse f l = None.
Proof.
  induction l as [|y l IH]; cbn; intros Hin Hx; [destruct Hin|].
  unfold bind. destruct Hin as [-> | Hin].
  - now rewrite Hx.
  - destruct (f y); [|reflexivity]. now rewrite IH.
Qed.

(** Take a successful chain of reads apart. *)
Ltac invert_binds H :=
  unfold bind in H;
  repeat match type of H with
         | match ?c with _ => _ end = Some _ =>
           let E := fresh "Hread" in
           destruct c eqn:E; [|discriminate H]
         end.

Lemma read_str k (d : raw) s :
  (j <- dict_get k d ;; as_str j) = Some s -> dict_get k d = Some (JStr s).
Proof.
  unfold bind. destruct (dict_get k d) as [[s'|fields]|]; cbn; congruence.
Qed.

Section NormalizerFacts.
Variable py_int : json -> option Z.
Variable py_float : json -> option Q.

Lemma liquidation_row_reads liq r :
  liquidation_row py_int py_float liq = Some r ->
  dict_get "id" liq = Some (JStr (Liq.id r))
  /\ dict_get "version" liq = Some (JStr (Liq.version r)).
Proof.
  intros H. unfold liquidation_row in H. invert_binds H.
  inversion H; subst; cbn [Liq.id Liq.version].
  split; now apply read_str.
Qed.

(** The table of [_raw_to_dataframe]: the rows with a positive amount,
    newest first. *)
Lemma raw_to_dataframe_rows raws df :
  _raw_to_dataframe py_int py_float raws = Some df ->
  exists rows,
    Forall2 (fun liq r => liquidation_row py_int py_float liq = Some r)
            raws rows
    /\ Permutation df
         (filter (fun r => Qltb 0 (Liq.collateral_amount_btc r)) rows)
    /\ descending Liq.timestamp df.
Proof.
  unfold _raw_to_dataframe, bind.
  destruct (traverse _ raws) as [rows|] eqn:Ht; [|discriminate].
  apply traverse_Some in Ht. intros H. exists rows.
  split; [exact Ht|]. destruct rows as [|r0 rows0].
  - inversion H; subst. split; [reflexivity | constructor].
  - inversion H; subst. split.
    + apply stable_sort_perm.
    + apply sort_values_desc_Z_sorted.
Qed.

Lemma raw_to_dataframe_well_kept raws df :
  _raw_to_dataframe py_int py_float raws = Some df -> well_kept df.
Proof.
  intros H. apply raw_to_dataframe_rows in H.
  destruct H as (rows & _ & Hperm & Hdesc). split; [|exact Hdesc].
  apply Forall_forall. intros r Hr.
  apply (Permutation_in _ Hperm), filter_In in Hr.
  now apply Qltb_lt.
Qed.
End NormalizerFacts.

(** X7: the table that [_raw_to_dataframe] makes holds exactly the rows of
    the raw records whose scaled amount is positive, newest first: records
    with a zero or negative amount are dropped, nothing else is, and no
    row is made up. *)
Theorem raw_to_dataframe_keeps_the_positive_rows
        (py_int : json -> option Z) (py_float : json -> option Q)
        (raws : list raw) (df : list Liq.t)
        (Hrun : _raw_to_dataframe py_int py_float raws = Some df) :
  Forall (fun r => (0 < Liq.collateral_amount_btc r)%Q) df
  /\ descending Liq.timestamp df
  /\ (List.length df <= List.length raws)%nat
  /\ (forall r,
        In r df <->
        (exists liq,
           In liq raws /\ liquidation_row py_int py_float liq = Some r)
        /\ (0 < Liq.collateral_amount_btc r)%Q).
Proof.
  destruct (raw_to_dataframe_well_kept _ _ _ _ Hrun) as [Hpos Hdesc].
  apply raw_to_dataframe_rows in Hrun.
  destruct Hrun as (rows & Hrows & Hperm & _).
  split; [exact Hpos|]. split; [exact Hdesc|]. split.
  - rewrite (Permutation_length Hperm), (Forall2_length_eq _ _ _ Hrows).
    apply filter_length_le.
  - intro r. split.
    + intros Hr. apply (Permutation_in _ Hperm), filter_In in Hr.
      destruct Hr as [Hr Hp]. split; [|now apply Qltb_lt].
      destruct (Forall2_In_r _ _ _ _ Hrows Hr) as (liq & Hliq & Hrow).
      eauto.
    + intros [(liq & Hliq & Hrow) Hp].
      apply (Permutation_in _ (Permutation_sym Hperm)), filter_In.
      split; [|now apply Qltb_lt].
      destruct (Forall2_In_l _ _ _ _ Hrows Hliq) as (r' & Hr' & Hrow').
      congruence.
Qed.

Lemma raw_to_dataframe_keeps_the_positive_rows_witness :
  exists df,
    _raw_to_dataframe digits_int digits_float
      [raw_liq "L0" "2000" "0" "V3"; raw_liq "L1" "1000" "200000000" "V3"]
    = Some df
    /\ map Liq.id df = ["L1"]
    /\ Forall (fun r => (0 < Liq.collateral_amount_btc r)%Q) df.
Proof.
  eexists. split; [reflexivity|]. split; [reflexivity|].
  exact (proj1 (raw_to_dataframe_keeps_the_positive_rows
                  digits_int digits_float
                  [raw_liq "L0" "2000" "0" "V3";
                   raw_liq "L1" "1000" "200000000" "V3"] _ eq_refl)).
Defined.

(** X8: normalising is all or nothing: one raw record that cannot be read,
    for one a record without the version member that the fetcher writes or
    without an id, fails the whole conversion, and no partial table comes
    back. *)
Theorem raw_to_dataframe_is_all_or_nothing
        (py_int : json -> option Z) (py_float : json -> option Q)
        (raws : list raw) (liq : raw) (Hin : In liq raws) :
  (liquidation_row py_int py_float liq = None ->
   _raw_to_dataframe py_int py_float raws = None)
  /\ (dict_get "version" liq = None \/ dict_get "id" liq = None ->
      _raw_to_dataframe py_int py_float raws = None).
Proof.
  assert (Hnone : liquidation_row py_int py_float liq = None ->
                  _raw_to_dataframe py_int py_float raws = None).
  { intros H. unfold _raw_to_dataframe.
    now rewrite (traverse_None _ _ _ Hin H). }
  split; [exact Hnone|]. intros Hmiss. apply Hnone.
  destruct (liquidation_row py_int py_float liq) as [r|] eqn:Hrow;
    [|reflexivity].
  apply liquidation_row_reads in Hrow. destruct Hrow as [Hid Hv].
  destruct Hmiss; congruence.
Qed.

Lemma raw_to_dataframe_is_all_or_nothing_witness :
  In [("id", JStr "L2")]
     [raw_liq "L1" "1000" "200000000" "V3"; [("id", JStr "L2")]]
  /\ _raw_to_dataframe digits_int digits_float
       [raw_liq "L1" "1000" "200000000" "V3"; [("id", JStr "L2")]] = None.
Proof.
  assert (Hin : In [("id", JStr "L2")]
                   [raw_liq "L1" "1000" "200000000" "V3";
                    [("id", JStr "L2")]])
    by (right; left; reflexivity).
  split; [exact Hin|].
  exact (proj2 (raw_to_dataframe_is_all_or_nothing
                  digits_int digits_float _ _ Hin) (or_introl eq_refl)).
Defined.

Lemma fetched_version endpoint version r :
  _fetch_liquidations_from_endpoint endpoint version = Some r ->
  Forall (fun rec => dict_get "version" rec = Some (JStr version))
         (returned r).
Proof.
  intros Hrun. apply paginate_reads_prefix in Hrun.
  destruct Hrun as (consumed & _ & Hret & _). rewrite Hret. cbn [app].
  apply Forall_forall. intros rec Hrec. apply in_map_iff in Hrec.
  destruct Hrec as (sent & <- & _). apply dict_get_set_same.
Qed.

Lemma existsb_eqb_In (s : string) l :
  existsb (String.eqb s) l = true <-> In s l.
Proof.
  rewrite existsb_exists. split.
  - intros (x & Hx & Heq). apply String.eqb_eq in Heq. now subst.
  - intros H. exists s. split; [exact H | apply String.eqb_refl].
Qed.

(** X9: a full fetch that returns gives a table with positive amounts,
    newest first, in which every row carries a protocol version that the
    asset is configured for. *)
Theorem fetch_all_liquidations_versions
        (py_int : json -> option Z) (py_float : json -> option Q)
        (asset_key : string) (v2_endpoint v3_endpoint : list reply)
        (df : list Liq.t)
        (Hrun : fetch_all_liquidations py_int py_float asset_key
                                       v2_endpoint v3_endpoint = Some df) :
  exists config,
    Queries.get_asset_config asset_key = Some config
    /\ well_kept df
    /\ Forall (fun r => In (Liq.version r) (Queries.subgraphs config)) df.
Proof.
  unfold fetch_all_liquidations, bind in Hrun.
  destruct (Queries.get_asset_config asset_key) as [config|];
    [|discriminate].
  exists config. split; [reflexivity|].
  set (sub := Queries.subgraphs config) in *.
  assert (Hall : exists all_raw,
             _raw_to_dataframe py_int py_float all_raw = Some df
             /\ Forall (fun rec => exists v,
                            dict_get "version" rec = Some (JStr v)
                            /\ In v sub) all_raw).
  { destruct (existsb (String.eqb "V2") sub) eqn:H2;
      destruct (existsb (String.eqb "V3") sub) eqn:H3;
      repeat match type of Hrun with
             | match match ?c with _ => _ end with _ => _ end = _ =>
               let E := fresh "Hf" in
               destruct c eqn:E; [apply fetched_version in E|discriminate]
             end;
      try apply existsb_eqb_In in H2; try apply existsb_eqb_In in H3;
      eexists; (split; [exact Hrun|]); cbn [app];
      rewrite ?Forall_app; repeat split; try constructor;
      try (eapply Forall_impl; [|eassumption]; cbv beta; eauto). }
  destruct Hall as (all_raw & Hdf & Hver).
  split; [eapply raw_to_dataframe_well_kept; eassumption|].
  apply raw_to_dataframe_rows in Hdf.
  destruct Hdf as (rows & Hrows & Hperm & _).
  apply Forall_forall. intros r Hr.
  apply (Permutation_in _ Hperm), filter_In in Hr. destruct Hr as [Hr _].
  destruct (Forall2_In_r _ _ _ _ Hrows Hr) as (liq & Hliq & Hrow).
  apply liquidation_row_reads in Hrow. destruct Hrow as [_ Hv].
  rewrite Forall_forall in Hver. destruct (Hver liq Hliq) as (v & Hv' & Hin).
  congruence.
Qed.

Lemma fetch_all_liquidations_versions_witness :
  exists df,
    fetch_all_liquidations digits_int digits_float "wbtc"
      (one_page [raw_liq "L1" "1000" "200000000" "x"])
      (one_page [raw_liq "L2" "3000" "500000000" "x"])
    = Some df
    /\ map Liq.id df = ["L2"; "L1"]
    /\ map Liq.version df = ["V3"; "V2"]
    /\ well_kept df.
Proof.
  eexists. split; [reflexivity|]. split; [reflexivity|].
  split; [reflexivity|].
  destruct (fetch_all_liquidations_versions
              digits_int digits_float "wbtc"
              (one_page [raw_liq "L1" "1000" "200000000" "x"])
              (one_page [raw_liq "L2" "3000" "500000000" "x"])
              _ eq_refl)
    as (config & _ & Hkept & _).
  exact Hkept.
Defined.

(** X10: a subgraph the asset is not configured for is never queried: the
    outcome of a full fetch does not depend on the replies of that
    endpoint; and for an unknown asset key the fetch fails whatever the
    endpoints are. *)
Theorem fetch_all_liquidations_leaves_unconfigured_subgraphs_alone
        (py_int : json -> option Z) (py_float : json -> option Q)
        (asset_key : string) :
  (forall config v2 v2' v3,
     Queries.get_asset_config asset_key = Some config ->
     ~ In "V2" (Queries.subgraphs config) ->
     fetch_all_liquidations py_int py_float asset_key v2 v3
     = fetch_all_liquidations py_int py_float asset_key v2' v3)
  /\ (forall config v2 v3 v3',
        Queries.get_asset_config asset_key = Some config ->
        ~ In "V3" (Queries.subgraphs config) ->
        fetch_all_liquidations py_int py_float asset_key v2 v3
        = fetch_all_liquidations py_int py_float asset_key v2 v3')
  /\ (forall v2 v3,
        Queries.get_asset_config asset_key = None ->
        fetch_all_liquidations py_int py_float asset_key v2 v3 = None).
Proof.
  split; [|split].
  - intros config v2 v2' v3 Hc Hn. unfold fetch_all_liquidations.
    rewrite Hc. cbn [bind].
    rewrite <- existsb_eqb_In in Hn. apply not_true_is_false in Hn.
    now rewrite Hn.
  - intros config v2 v3 v3' Hc Hn. unfold fetch_all_liquidations.
    rewrite Hc. cbn [bind].
    rewrite <- existsb_eqb_In in Hn. apply not_true_is_false in Hn.
    now rewrite Hn.
  - intros v2 v3 Hc. unfold fetch_all_liquidations. now rewrite Hc.
Qed.

Lemma fetch_all_liquidations_leaves_unconfigured_subgraphs_alone_witness :
  fetch_all_liquidations digits_int digits_float "cbbtc"
    [RequestException; RequestException; RequestException]
    [Json (liquidates_page 0)]
  = fetch_all_liquidations digits_int digits_float "cbbtc"
      [] [Json (liquidates_page 0)].
Proof.
  apply (proj1 (fetch_all_liquidations_leaves_unconfigured_subgraphs_alone
                  digits_int digits_float "cbbtc")
               (Queries.mk_asset_config Queries.CBBTC_ADDRESS "cbBTC"
                  "Coinbase Wrapped BTC" 8 ["V3"])).
  - reflexivity.
  - cbn. intros [H | []]. discriminate H.
Defined.

(** X11: the stored table stays well kept through an update: if the
    existing table has positive amounts and is sorted newest first, so is
    the table that [update_data] saves after merging a normalised fetch
    into it, in each of its three branches. *)
Theorem update_data_keeps_the_table_well_kept
        (py_int : json -> option Z) (py_float : json -> option Q)
        (existing : list Liq.t) (raws : list raw) (new_df : list Liq.t)
        (Hexisting : well_kept existing)
        (Hfetch : _raw_to_dataframe py_int py_float raws = Some new_df) :
  well_kept (update_data existing new_df).
Proof.
  apply raw_to_dataframe_well_kept in Hfetch.
  destruct existing as [|e existing']; [exact Hfetch|].
  destruct new_df as [|n new_df']; [exact Hexisting|].
  rewrite update_data_both by discriminate.
  destruct Hexisting as [He _]. destruct Hfetch as [Hn _].
  split; [|apply sort_values_desc_Z_sorted].
  apply Forall_forall. intros r Hr.
  unfold sort_values_desc_Z in Hr. rewrite stable_sort_In in Hr.
  apply drop_duplicates_last_incl, in_app_iff in Hr.
  rewrite Forall_forall in He, Hn. destruct Hr; auto.
Qed.

Lemma update_data_keeps_the_table_well_kept_witness :
  well_kept [liq_L1]
  /\ exists new_df,
       _raw_to_dataframe digits_int digits_float
         [raw_liq "L2" "3000" "500000000" "V3"] = Some new_df
       /\ well_kept (update_data [liq_L1] new_df).
Proof.
  assert (Hk : well_kept [liq_L1]).
  { split; repeat constructor. }
  split; [exact Hk|]. eexists. split; [reflexivity|].
  exact (update_data_keeps_the_table_well_kept
           digits_int digits_float [liq_L1]
           [raw_liq "L2" "3000" "500000000" "V3"] _ Hk eq_refl).
Defined.

Lemma action_row_reads py_int py_float action_type version ev row :
  UserBehaviorFetcher.action_row py_int py_float action_type version ev
  = Some row ->
  Act.action_type row = action_type
  /\ Act.version row = version
  /\ dict_get "id" ev = Some (JStr (Act.id row)).
Proof.
  intros H. unfold UserBehaviorFetcher.action_row in H. invert_binds H.
  inversion H; subst; cbn [Act.action_type Act.version Act.id].
  repeat split. now apply read_str.
Qed.

(** X12: [_parse_events] gives one row per raw event, in the same order,
    each with the action type and version it was called with; it drops
    nothing, zero amounts included, and the classifier sees rows parsed as
    one action type as that type and no other. One event that cannot be
    read fails the whole parse. *)
Theorem parse_events_keeps_every_event
        (py_int : json -> option Z) (py_float : json -> option Q)
        (raw_events : list raw) (action_type version : string) :
  (forall rows,
     UserBehaviorFetcher._parse_events py_int py_float raw_events
                                       action_type version = Some rows ->
     Forall2
       (fun ev row =>
          dict_get "id" ev = Some (JStr (Act.id row))
          /\ Act.action_type row = action_type
          /\ Act.version row = version)
       raw_events rows
     /\ List.length rows = List.length raw_events
     /\ of_type action_type rows = rows
     /\ (forall other, other <> action_type -> of_type other rows = []))
  /\ (forall ev,
        In ev raw_events ->
        UserBehaviorFetcher.action_row py_int py_float action_type version ev
        = None ->
        UserBehaviorFetcher._parse_events py_int py_float raw_events
                                          action_type version = None).
Proof.
  split.
  - intros rows Hrun. unfold UserBehaviorFetcher._parse_events in Hrun.
    apply traverse_Some in Hrun.
    assert (Hrows : Forall (fun row => Act.action_type row = action_type)
                           rows).
    { apply Forall_forall. intros row Hrow.
      destruct (Forall2_In_r _ _ _ _ Hrun Hrow) as (ev & _ & Hev).
      now apply action_row_reads in Hev. }
    split; [|split; [|split]].
    + eapply Forall2_impl; [|exact Hrun]. intros ev row Hev.
      apply action_row_reads in Hev. tauto.
    + symmetry. eapply Forall2_length_eq, Hrun.
    + unfold of_type. clear Hrun.
      induction Hrows as [|row rows Hrow _ IH]; cbn; [reflexivity|].
      rewrite Hrow, String.eqb_refl. now f_equal.
    + intros other Hother. unfold of_type. clear Hrun.
      induction Hrows as [|row rows Hrow _ IH]; cbn; [reflexivity|].
      rewrite Hrow. apply not_eq_sym, String.eqb_neq in Hother.
      now rewrite Hother.
  - intros ev Hin Hnone. unfold UserBehaviorFetcher._parse_events.
    exact (traverse_None _ _ _ Hin Hnone).
Qed.

Lemma parse_events_keeps_every_event_witness :
  exists rows,
    UserBehaviorFetcher._parse_events digits_int digits_float
      [raw_event "A1" "980" "0"; raw_event "A2" "950" "100000000"]
      "deposit" "V3" = Some rows
    /\ map Act.id rows = ["A1"; "A2"]
    /\ of_type "deposit" rows = rows
    /\ of_type "repay" rows = [].
Proof.
  eexists. split; [reflexivity|]. split; [reflexivity|].
  destruct (proj1 (parse_events_keeps_every_event
                     digits_int digits_float
                     [raw_event "A1" "980" "0";
                      raw_event "A2" "950" "100000000"] "deposit" "V3")
                  _ eq_refl) as (_ & _ & Hsame & Hother).
  split; [exact Hsame|]. apply Hother. discriminate.
Defined.

(** ** More on the classifier *)

Lemma user_actions_app l1 l2 account ts_from liq_ts :
  user_actions (l1 ++ l2) account ts_from liq_ts
  = user_actions l1 account ts_from liq_ts
    ++ user_actions l2 account ts_from liq_ts.
Proof. unfold user_actions. apply filter_app. Qed.

Lemma user_actions_none l account ts_from liq_ts :
  (forall a, In a l ->
             Act.account a <> account
             \/ Act.timestamp a < ts_from \/ liq_ts < Act.timestamp a) ->
  user_actions l account ts_from liq_ts = [].
Proof.
  intros H. destruct (user_actions l account ts_from liq_ts) as [|a ua] eqn:E;
    [reflexivity|].
  assert (Ha : In a (user_actions l account ts_from liq_ts))
    by (rewrite E; now left).
  apply user_actions_In in Ha. destruct Ha as (Hin & Hacc & Hts).
  destruct (H a Hin) as [? | [? | ?]]; [contradiction | lia | lia].
Qed.

Lemma user_actions_idem l account ts_from liq_ts :
  user_actions (user_actions l account ts_from liq_ts) account ts_from liq_ts
  = user_actions l account ts_from liq_ts.
Proof.
  unfold user_actions. induction l as [|a l IH]; cbn; [reflexivity|].
  destruct (_ && _ && _) eqn:E; cbn; [rewrite E|]; now rewrite IH.
Qed.

(** The row of a liquidation is a function of its window alone. *)
Lemma classify_row_window actions1 actions2 target_address window_seconds l :
  user_actions actions1 (Liq.liquidatee l)
               (Liq.timestamp l - window_seconds) (Liq.timestamp l)
  = user_actions actions2 (Liq.liquidatee l)
                 (Liq.timestamp l - window_seconds) (Liq.timestamp l) ->
  classify_row actions1 target_address window_seconds l
  = classify_row actions2 target_address window_seconds l.
Proof.
  intros H. unfold classify_row. now rewrite H.
Qed.

(** X13: the row of a liquidation depends only on the actions of its
    liquidatee inside its window: adding actions of other accounts, or
    actions before the window or after the liquidation, changes nothing,
    and classifying against the window itself gives the same row. *)
Theorem classification_depends_on_the_window_only
        (actions_df extra : list Act.t) (target_address : string)
        (window_seconds : Z) (l : Liq.t)
        (Hextra : forall a,
            In a extra ->
            Act.account a <> Liq.liquidatee l
            \/ Act.timestamp a < Liq.timestamp l - window_seconds
            \/ Liq.timestamp l < Act.timestamp a) :
  classify_row (actions_df ++ extra) target_address window_seconds l
  = classify_row actions_df target_address window_seconds l
  /\ classify_row (extra ++ actions_df) target_address window_seconds l
     = classify_row actions_df target_address window_seconds l
  /\ classify_row
       (user_actions actions_df (Liq.liquidatee l)
                     (Liq.timestamp l - window_seconds) (Liq.timestamp l))
       target_address window_seconds l
     = classify_row actions_df target_address window_seconds l.
Proof.
  split; [|split]; apply classify_row_window.
  - now rewrite user_actions_app, (user_actions_none extra), app_nil_r.
  - now rewrite user_actions_app, (user_actions_none extra).
  - apply user_actions_idem.
Qed.

Lemma classification_depends_on_the_window_only_witness :
  classify_row ([act_A1; act_A2]
                  ++ [Act.mk "A3" "deposit" "V3" 990 "0xh" "0xBB" "WBTC"
                             Queries.WBTC_ADDRESS 1 7000 "Aave"])
               Queries.WBTC_ADDRESS (48 * 3600) liq_L1
  = classify_row [act_A1; act_A2] Queries.WBTC_ADDRESS (48 * 3600) liq_L1.
Proof.
  apply (classification_depends_on_the_window_only [act_A1; act_A2]).
  intros a [<- | []]. left. discriminate.
Defined.

(** X14: the short cut for an empty action table is the general path at
    the empty table: for every action table the classifier fails exactly
    on an unknown asset key and otherwise maps the per-liquidation
    classification over the qualifying liquidations, in their order, one
    row each. *)
Theorem classify_users_is_a_map
        (liq_df : list Liq.t) (actions_df : list Act.t) (asset_key : string)
        (min_wbtc : Q) (window_hours : Z) :
  classify_users liq_df actions_df asset_key min_wbtc window_hours
  = option_map
      (fun config =>
         map (classify_row actions_df (Queries.address config)
                           (window_hours * 3600))
             (qualifying min_wbtc liq_df))
      (Queries.get_asset_config asset_key)
  /\ (classify_users liq_df actions_df asset_key min_wbtc window_hours = None
      <-> Queries.get_asset_config asset_key = None)
  /\ (forall l target_address window_seconds,
        classify_row [] target_address window_seconds l = passive_row l).
Proof.
  assert (Hmap : classify_users liq_df actions_df asset_key min_wbtc
                                window_hours
                 = option_map
                     (fun config =>
                        map (classify_row actions_df (Queries.address config)
                                          (window_hours * 3600))
                            (qualifying min_wbtc liq_df))
                     (Queries.get_asset_config asset_key)).
  { unfold classify_users, qualifying.
    destruct (Queries.get_asset_config asset_key) as [config|];
      [|reflexivity].
    destruct actions_df; reflexivity. }
  split; [exact Hmap|]. split; [|reflexivity].
  rewrite Hmap.
  destruct (Queries.get_asset_config asset_key); cbn; split; congruence.
Qed.

Lemma fold_left_Zmax_ge l x : x <= fold_left Z.max l x.
Proof.
  revert x. induction l as [|y l IH]; intro x; cbn; [lia|].
  specialize (IH (Z.max x y)). lia.
Qed.

Lemma fold_left_Zmax_In l x :
  fold_left Z.max l x = x \/ In (fold_left Z.max l x) l.
Proof.
  revert x. induction l as [|y l IH]; intro x; cbn; [now left|].
  destruct (IH (Z.max x y)) as [H | H]; [|now right; right].
  rewrite H. destruct (Z.max_spec x y) as [[_ ->] | [_ ->]]; auto.
Qed.

Lemma fold_left_Zmax_upper l x z :
  In z l -> z <= fold_left Z.max l x.
Proof.
  revert x. induction l as [|y l IH]; intros x Hz; [destruct Hz|].
  cbn. destruct Hz as [-> | Hz]; [|now apply IH].
  pose proof (fold_left_Zmax_ge l (Z.max x z)). lia.
Qed.

(** On a non-empty list [Zmax_list] is the largest element. *)
Lemma Zmax_list_spec d l :
  l <> [] ->
  In (Zmax_list d l) l /\ forall z, In z l -> z <= Zmax_list d l.
Proof.
  destruct l as [|x l]; [congruence|]. intros _. cbn [Zmax_list]. split.
  - destruct (fold_left_Zmax_In l x) as [-> | H]; [now left | now right].
  - intros z [<- | Hz]; [apply fold_left_Zmax_ge|].
    now apply fold_left_Zmax_upper.
Qed.



Lemma filter_length_mono {A : Type} (p q : A -> bool) l :
  (forall x, In x l -> p x = true -> q x = true) ->
  (List.length (filter p l) <= List.length (filter q l))%nat.
Proof.
  induction l as [|x l IH]; intros H; cbn; [lia|].
  assert (IH' := IH (fun y Hy => H y (or_intror Hy))).
  destruct (p x) eqn:Hp.
  - rewrite (H x (or_introl eq_refl) Hp). cbn. lia.
  - destruct (q x); cbn; lia.
Qed.

Lemma filter_twice {A : Type} (p q : A -> bool) l :
  filter p (filter q l) = filter (fun x => q x && p x) l.
Proof.
  induction l as [|x l IH]; cbn; [reflexivity|].
  destruct (q x); cbn; [destruct (p x)|]; now rewrite IH.
Qed.

Lemma of_type_window_length ty actions_df account t w1 w2 :
  w1 <= w2 ->
  (List.length (of_type ty (user_actions actions_df account (t - w1) t))
   <= List.length (of_type ty (user_actions actions_df account (t - w2) t)))
  %nat.
Proof.
  intros Hw. unfold of_type, user_actions.
  rewrite !filter_twice. apply filter_length_mono.
  intros a _. rewrite !andb_true_iff, !Z.leb_le. intuition lia.
Qed.

(** X16: a longer lookback never loses an action: with a window of more
    hours the deposit and repay counts of a liquidation do not go down, and
    a liquidation that is Passive under the longer window is Passive under
    the shorter one. *)
Theorem longer_window_never_counts_less
        (actions_df : list Act.t) (target_address : string)
        (hours1 hours2 : Z) (l : Liq.t) (Hhours : hours1 <= hours2) :
  let c1 := classify_row actions_df target_address (hours1 * 3600) l in
  let c2 := classify_row actions_df target_address (hours2 * 3600) l in
  (deposit_count c1 <= deposit_count c2)%nat
  /\ (repay_count c1 <= repay_count c2)%nat
  /\ (behavior c2 = "Passive" -> behavior c1 = "Passive").
Proof.
  intros c1 c2. subst c1 c2. unfold classify_row.
  cbn [deposit_count repay_count behavior].
  assert (Hw : hours1 * 3600 <= hours2 * 3600) by lia.
  pose proof (of_type_window_length "deposit" actions_df (Liq.liquidatee l)
                (Liq.timestamp l) _ _ Hw) as Hd.
  pose proof (of_type_window_length "repay" actions_df (Liq.liquidatee l)
                (Liq.timestamp l) _ _ Hw) as Hr.
  split; [exact Hd|]. split; [exact Hr|].
  repeat match goal with
         | |- context [Nat.ltb 0 ?n] =>
           let E := fresh "E" in
           destruct (Nat.ltb 0 n) eqn:E;
           [apply Nat.ltb_lt in E | apply Nat.ltb_ge in E]
         end; cbn [andb]; intros H; try discriminate H; try reflexivity; lia.
Qed.

Lemma longer_window_never_counts_less_witness :
  1 <= 48
  /\ (deposit_count
        (classify_row [act_A1; act_A2] Queries.WBTC_ADDRESS (1 * 3600) liq_L1)
      <= deposit_count
           (classify_row [act_A1; act_A2] Queries.WBTC_ADDRESS (48 * 3600)
                         liq_L1))%nat.
Proof.
  split; [lia|].
  exact (proj1 (longer_window_never_counts_less
                  [act_A1; act_A2] Queries.WBTC_ADDRESS 1 48 liq_L1
                  ltac:(lia))).
Defined.

(** X17: the derived columns of a row agree with its behaviour: the row is
    Passive exactly when both counts are zero; a row without deposits has
    a zero deposit amount, no deposit assets and no collateral deposit (and
    likewise for repays); the collateral flag is set exactly when a deposit
    of the window is of the target asset, and then the behaviour is one of
    the two deposit behaviours; and when the window holds only deposits
    and repays, the row is Passive exactly when
    [hours_before_last_action] is absent. *)
Theorem derived_columns_agree_with_behavior
        (actions_df : list Act.t) (target_address : string)
        (window_seconds : Z) (l : Liq.t) :
  let ua := user_actions actions_df (Liq.liquidatee l)
              (Liq.timestamp l - window_seconds) (Liq.timestamp l) in
  let c := classify_row actions_df target_address window_seconds l in
  (behavior c = "Passive" <->
   deposit_count c = 0%nat /\ repay_count c = 0%nat)
  /\ (deposit_count c = 0%nat ->
      deposit_usd c = 0%Q /\ deposit_assets c = ""
      /\ deposited_collateral c = false)
  /\ (repay_count c = 0%nat -> repay_usd c = 0%Q)
  /\ (deposited_collateral c = true <->
      exists a, In a (of_type "deposit" ua)
                /\ Act.asset_address a = target_address)
  /\ (deposited_collateral c = true ->
      behavior c = "Deposit Only" \/ behavior c = "Deposit + Repay")
  /\ ((forall a, In a ua ->
                 Act.action_type a = "deposit"
                 \/ Act.action_type a = "repay") ->
      (behavior c = "Passive" <-> hours_before_last_action c = None)).
Proof.
  intros ua c. subst c. unfold classify_row. fold ua.
  cbn [behavior deposit_count repay_count deposit_usd repay_usd
       deposit_assets deposited_collateral hours_before_last_action].
  assert (Hcoll : existsb (String.eqb target_address)
                          (map Act.asset_address (of_type "deposit" ua))
                  = true <->
                  exists a, In a (of_type "deposit" ua)
                            /\ Act.asset_address a = target_address).
  { rewrite existsb_eqb_In, in_map_iff.
    split; intros (a & H1 & H2); exists a; tauto. }
  assert (Hall : (forall a, In a ua ->
                            Act.action_type a = "deposit"
                            \/ Act.action_type a = "repay") ->
                 of_type "deposit" ua = [] -> of_type "repay" ua = [] ->
                 ua = []).
  { intros Hty Hd Hr. destruct ua as [|a ua']; [reflexivity|]. exfalso.
    assert (Ha : In a (a :: ua')) by now left.
    destruct (Hty a Ha) as [Hdep | Hrep].
    - assert (H : In a (of_type "deposit" (a :: ua')))
        by (apply filter_In; split; [exact Ha | now apply String.eqb_eq]).
      now rewrite Hd in H.
    - assert (H : In a (of_type "repay" (a :: ua')))
        by (apply filter_In; split; [exact Ha | now apply String.eqb_eq]).
      now rewrite Hr in H. }
  destruct (of_type "deposit" ua) as [|d ds] eqn:Hd;
    destruct (of_type "repay" ua) as [|r rs] eqn:Hr;
    cbn [List.length Nat.ltb Nat.leb andb];
    (split; [split; [intros H; try discriminate H; auto
                    | intros [H1 H2]; try discriminate; auto]|]);
    (split; [intros H; try discriminate H; auto|]);
    (split; [intros H; try discriminate H; auto|]);
    (split; [first [exact Hcoll
                   | split; [discriminate | intros (a & [] & _)]]|]);
    (split; [intros H; try discriminate H; auto|]);
    intros Hty.
  - rewrite (Hall Hty eq_refl eq_refl). cbn. split; reflexivity.
  - destruct ua as [|a ua']; [discriminate Hr|].
    cbn. split; discriminate.
  - destruct ua as [|a ua']; [discriminate Hd|].
    cbn. split; discriminate.
  - destruct ua as [|a ua']; [discriminate Hd|].
    cbn. split; discriminate.
Qed.

Lemma derived_columns_agree_with_behavior_witness :
  deposited_collateral
    (classify_row [act_A1; act_A2] Queries.WBTC_ADDRESS (48 * 3600) liq_L1)
  = true
  /\ (behavior (classify_row [act_A1; act_A2] Queries.WBTC_ADDRESS
                             (48 * 3600) liq_L1) = "Deposit Only"
      \/ behavior (classify_row [act_A1; act_A2] Queries.WBTC_ADDRESS
                                (48 * 3600) liq_L1) = "Deposit + Repay").
Proof.
  split; [reflexivity|].
  apply (derived_columns_agree_with_behavior
           [act_A1; act_A2] Queries.WBTC_ADDRESS (48 * 3600) liq_L1).
  reflexivity.
Defined.

Lemma filter_map_commute {A B : Type} (f : A -> B) (p : B -> bool) l :
  filter p (map f l) = map f (filter (fun x => p (f x)) l).
Proof.
  induction l as [|x l IH]; cbn; [reflexivity|].
  destruct (p (f x)); cbn; now rewrite IH.
Qed.

(** X18: each liquidation is classified on its own: raising the minimum
    size only removes rows. The table classified under a larger threshold
    is the table classified under a smaller one, restricted to the rows
    that reach the larger threshold; the rows that stay are unchanged. *)
Theorem raising_the_threshold_only_removes_rows
        (liq_df : list Liq.t) (actions_df : list Act.t) (asset_key : string)
        (min1 min2 : Q) (window_hours : Z) (Hmin : (min1 <= min2)%Q) :
  classify_users liq_df actions_df asset_key min2 window_hours
  = option_map
      (filter (fun c => Qle_bool min2 (Liq.collateral_amount_btc (liq c))))
      (classify_users liq_df actions_df asset_key min1 window_hours).
Proof.
  unfold classify_users.
  destruct (Queries.get_asset_config asset_key) as [config|]; [|reflexivity].
  assert (Hq : filter (fun l => Qle_bool min2 (Liq.collateral_amount_btc l))
                      liq_df
               = filter (fun l => Qle_bool min2 (Liq.collateral_amount_btc l))
                   (filter (fun l => Qle_bool min1
                                       (Liq.collateral_amount_btc l)) liq_df)).
  { rewrite filter_twice. apply filter_ext_in. intros l _.
    destruct (Qle_bool min2 (Liq.collateral_amount_btc l)) eqn:H2;
      [|now rewrite andb_false_r].
    apply Qle_bool_iff in H2.
    assert (H1 : Qle_bool min1 (Liq.collateral_amount_btc l) = true)
      by (apply Qle_bool_iff; eapply Qle_trans; eassumption).
    now rewrite H1. }
  destruct actions_df as [|a0 acts]; cbn [option_map];
    rewrite filter_map_commute; cbn [liq passive_row classify_row];
    now rewrite Hq.
Qed.

Lemma raising_the_threshold_only_removes_rows_witness :
  (1 <= 5)%Q
  /\ classify_users [liq_L1; liq_of_size 7] [act_A1] "wbtc" 5 48
     = option_map
         (filter (fun c => Qle_bool 5 (Liq.collateral_amount_btc (liq c))))
         (classify_users [liq_L1; liq_of_size 7] [act_A1] "wbtc" 1 48).
Proof.
  assert (H : (1 <= 5)%Q) by (apply Qle_bool_iff; reflexivity).
  split; [exact H|].
  exact (raising_the_threshold_only_removes_rows
           [liq_L1; liq_of_size 7] [act_A1] "wbtc" 1 5 48 H).
Defined.

(** ** The behaviour summary *)

Lemma classify_users_behaviors liq_df actions_df asset_key min_wbtc
      window_hours cs :
  classify_users liq_df actions_df asset_key min_wbtc window_hours = Some cs ->
  Forall (fun c => In (behavior c) behaviors
                   /\ (deposited_collateral c = true ->
                       behavior c = "Deposit Only"
                       \/ behavior c = "Deposit + Repay")) cs.
Proof.
  intros Hrun. apply classify_users_rows in Hrun.
  destruct Hrun as (config & _ & ->).
  apply Forall_forall. intros c Hc. apply in_map_iff in Hc.
  destruct Hc as (l & <- & _). destruct actions_df as [|a0 acts].
  - cbn. split; [auto | discriminate].
  - split; [apply classify_row_behavior|].
    unfold classify_row. cbn [behavior deposited_collateral].
    destruct (Nat.ltb 0 (List.length (of_type "deposit" _)));
      [|discriminate].
    destruct (Nat.ltb 0 (List.length (of_type "repay" _))); cbn; auto.
Qed.

Lemma count_behavior_le b cs : (count_behavior b cs <= List.length cs)%nat.
Proof. apply filter_length_le. Qed.

Lemma behaviors_NoDup : NoDup behaviors.
Proof.
  unfold behaviors. repeat constructor; cbn; intuition discriminate.
Qed.

Lemma count_behaviors_total cs :
  Forall (fun c => In (behavior c) behaviors) cs ->
  (count_behavior "Passive" cs + count_behavior "Deposit Only" cs
   + count_behavior "Repay Only" cs + count_behavior "Deposit + Repay" cs
   = List.length cs)%nat.
Proof.
  intros Hall.
  pose proof (count_by_key (fun c => Some (behavior c)) behaviors cs
                           behaviors_NoDup) as H.
  rewrite filter_length_all in H.
  - rewrite <- H. unfold behaviors, count_behavior. cbn. lia.
  - rewrite Forall_forall in Hall. intros c Hc.
    apply existsb_exists. exists (behavior c).
    split; [now apply Hall | apply String.eqb_refl].
Qed.

Lemma get_behavior_summary_nonempty cs :
  cs <> [] ->
  get_behavior_summary cs
  = Some (mk_summary
            (List.length cs)
            (count_behavior "Passive" cs)
            (count_behavior "Deposit Only" cs)
            (count_behavior "Repay Only" cs)
            (count_behavior "Deposit + Repay" cs)
            (inject_Z (Z.of_nat (List.length cs)
                       - Z.of_nat (count_behavior "Passive" cs))
             / inject_Z (Z.of_nat (List.length cs)) * 100)%Q
            (List.length (filter deposited_collateral cs))
            (mean_of_positive (map deposit_usd cs))
            (mean_of_positive (map repay_usd cs))).
Proof.
  destruct cs; [congruence | reflexivity].
Qed.

(** X19: the summary of a classified table splits it: the four behaviour
    counts add up to the total, the share of liquidations with any action
    lies between 0 and 100 and is 0 exactly when every liquidation is
    Passive, and the liquidations with a collateral deposit are among the
    two deposit behaviours. The summary of the empty table is the empty
    dict, and only that one. *)
Theorem behavior_summary_splits_the_table
        (liq_df : list Liq.t) (actions_df : list Act.t) (asset_key : string)
        (min_wbtc : Q) (window_hours : Z) (cs : list classified)
        (Hrun : classify_users liq_df actions_df asset_key min_wbtc
                               window_hours = Some cs) :
  (get_behavior_summary cs = None <-> cs = [])
  /\ (forall s,
        get_behavior_summary cs = Some s ->
        sm_total s = List.length cs
        /\ (sm_passive s + sm_deposit_only s + sm_repay_only s + sm_both s
            = sm_total s)%nat
        /\ (0 <= sm_pct_tried_save s)%Q
        /\ (sm_pct_tried_save s <= 100)%Q
        /\ (sm_pct_tried_save s == 0 <-> sm_passive s = sm_total s)%Q
        /\ (sm_deposited_collateral_count s
            <= sm_deposit_only s + sm_both s)%nat).
Proof.
  apply classify_users_behaviors in Hrun.
  split; [destruct cs; cbn; split; congruence|].
  intros s Hs.
  assert (Htot : (0 < List.length cs)%nat)
    by (destruct cs; [discriminate | cbn; lia]).
  rewrite get_behavior_summary_nonempty in Hs
    by (intros ->; cbn in Htot; lia).
  inversion Hs; subst s; clear Hs.
  cbn [sm_total sm_passive sm_deposit_only sm_repay_only sm_both
       sm_pct_tried_save sm_deposited_collateral_count].
  pose proof (count_behavior_le "Passive" cs) as Hp.
  set (T := List.length cs) in *. set (P := count_behavior "Passive" cs) in *.
  assert (HT : (0 < inject_Z (Z.of_nat T))%Q)
    by (change 0%Q with (inject_Z 0); rewrite <- Zlt_Qlt; lia).
  assert (Hnum0 : (0 <= inject_Z (Z.of_nat T - Z.of_nat P))%Q)
    by (change 0%Q with (inject_Z 0); rewrite <- Zle_Qle; lia).
  assert (Hnum1 : (inject_Z (Z.of_nat T - Z.of_nat P)
                   <= inject_Z (Z.of_nat T))%Q)
    by (rewrite <- Zle_Qle; lia).
  split; [reflexivity|]. split.
  { apply count_behaviors_total. eapply Forall_impl; [|exact Hrun].
    cbv beta. tauto. }
  split; [|split; [|split]].
  - apply Qmult_le_0_compat; [|discriminate].
    apply Qle_shift_div_l; [exact HT|]. now rewrite Qmult_0_l.
  - assert (H1 : (inject_Z (Z.of_nat T - Z.of_nat P) / inject_Z (Z.of_nat T)
                  <= 1)%Q)
      by (apply Qle_shift_div_r; [exact HT | now rewrite Qmult_1_l]).
    revert H1.
    generalize (inject_Z (Z.of_nat T - Z.of_nat P) / inject_Z (Z.of_nat T))%Q.
    intros q H1. lra.
  - split.
    + intros Hz.
      assert (Hq : (inject_Z (Z.of_nat T - Z.of_nat P)
                    / inject_Z (Z.of_nat T) == 0)%Q).
      { revert Hz.
        generalize (inject_Z (Z.of_nat T - Z.of_nat P)
                    / inject_Z (Z.of_nat T))%Q.
        intros q Hz. lra. }
      assert (Hn : (inject_Z (Z.of_nat T - Z.of_nat P) == 0)%Q).
      { rewrite <- (Qmult_div_r (inject_Z (Z.of_nat T - Z.of_nat P))
                                (inject_Z (Z.of_nat T)))
          by (intro H0; rewrite H0 in HT; now apply Qlt_irrefl in HT).
        rewrite Hq. apply Qmult_0_r. }
      unfold Qeq in Hn. cbn [Qnum Qden inject_Z] in Hn. lia.
    + intros Heq. rewrite Heq, Z.sub_diag.
      unfold Qdiv. now rewrite !Qmult_0_l.
  - unfold count_behavior.
    rewrite <- filter_length_disjoint.
    + apply filter_length_mono. intros c Hc Hd.
      rewrite Forall_forall in Hrun.
      destruct (proj2 (Hrun c Hc) Hd) as [-> | ->]; reflexivity.
    + intros c Hc. apply String.eqb_eq in Hc. now rewrite Hc.
Qed.

Lemma behavior_summary_splits_the_table_witness :
  exists cs s,
    classify_users [liq_L1; liq_of_size 7] [act_A1; act_A2] "wbtc" 1 48
    = Some cs
    /\ get_behavior_summary cs = Some s
    /\ (sm_passive s + sm_deposit_only s + sm_repay_only s + sm_both s
        = sm_total s)%nat
    /\ (sm_pct_tried_save s <= 100)%Q.
Proof.
  eexists. eexists. split; [reflexivity|]. split; [reflexivity|].
  destruct (proj2 (behavior_summary_splits_the_table
                     [liq_L1; liq_of_size 7] [act_A1; act_A2] "wbtc" 1 48
                     _ eq_refl) _ eq_refl)
    as (_ & Hsum & _ & Hpct & _).
  split; [exact Hsum | exact Hpct].
Defined.

(** ** The data directory *)

Lemma write_file_same path df fs : write_file path df fs path = Some df.
Proof. unfold write_file. now rewrite String.eqb_refl. Qed.

Lemma write_file_other path df fs p :
  p <> path -> write_file path df fs p = fs p.
Proof.
  intros H. unfold write_file. apply String.eqb_neq in H. now rewrite H.
Qed.

Lemma load_parquet_present asset_key path fs df :
  fs (path_or path asset_key) = Some df ->
  load_parquet asset_key path fs = (fs, df).
Proof. intros H. unfold load_parquet. now rewrite H. Qed.

(** X20: what is saved is what is loaded: after [save_parquet] has written
    a table, [load_parquet] for the same asset and path returns that table,
    empty or not, and leaves the directory as it is; a later save replaces
    an earlier one. *)
Theorem load_after_save_returns_the_table
        (df : list Liq.t) (asset_key : string) (path : option string)
        (fs : data_dir) :
  let saved := fst (save_parquet df asset_key path fs) in
  snd (save_parquet df asset_key path fs) = path_or path asset_key
  /\ load_parquet asset_key path saved = (saved, df)
  /\ (forall df',
        load_parquet asset_key path
                     (fst (save_parquet df' asset_key path saved))
        = (fst (save_parquet df' asset_key path saved), df')).
Proof.
  intros saved. split; [reflexivity|]. split.
  - apply load_parquet_present. apply write_file_same.
  - intros df'. apply load_parquet_present. apply write_file_same.
Qed.

(** X21: loading never fails for want of a file. With no file at the path
    the result is the empty table and the directory is untouched, except
    for the asset wbtc when the legacy file exists: then the legacy table
    is returned and also written to the path, so that the next load reads
    it from there; the legacy file stays. A file at the path always wins
    over the legacy file, and for every other asset the legacy file is
    ignored. *)
Theorem load_parquet_missing_file_and_migration
        (asset_key : string) (path : option string) (fs : data_dir) :
  let p := path_or path asset_key in
  (fs p = None ->
   asset_key <> "wbtc" \/ fs legacy_path = None ->
   load_parquet asset_key path fs = (fs, []))
  /\ (forall df,
        fs p = None -> asset_key = "wbtc" -> fs legacy_path = Some df ->
        load_parquet asset_key path fs = (write_file p df fs, df)
        /\ load_parquet asset_key path (write_file p df fs)
           = (write_file p df fs, df)
        /\ write_file p df fs legacy_path = Some df)
  /\ (forall df,
        fs p = Some df -> load_parquet asset_key path fs = (fs, df)).
Proof.
  intros p. split; [|split].
  - intros Hp Hno. unfold load_parquet. fold p. rewrite Hp.
    destruct Hno as [Hk | Hl].
    + apply String.eqb_neq in Hk. now rewrite Hk.
    + rewrite Hl. now destruct (String.eqb asset_key "wbtc").
  - intros df Hp Hk Hl. split; [|split].
    + unfold load_parquet. fold p. rewrite Hp, Hl.
      apply String.eqb_eq in Hk. now rewrite Hk.
    + apply load_parquet_present. apply write_file_same.
    + unfold write_file. destruct (String.eqb legacy_path p) eqn:E;
        [|exact Hl].
      apply String.eqb_eq in E. rewrite <- E in Hp. congruence.
  - intros df Hp. now apply load_parquet_present.
Qed.

Lemma load_parquet_missing_file_and_migration_witness :
  load_parquet "wbtc" None
    (fun p => if String.eqb p legacy_path then Some [liq_L1] else None)
  = (write_file (_parquet_path "wbtc") [liq_L1]
       (fun p => if String.eqb p legacy_path then Some [liq_L1] else None),
     [liq_L1])
  /\ load_parquet "cbbtc" None
       (fun p => if String.eqb p legacy_path then Some [liq_L1] else None)
     = ((fun p => if String.eqb p legacy_path then Some [liq_L1] else None),
        []).
Proof.
  split.
  - apply (proj1 (proj2 (load_parquet_missing_file_and_migration
                           "wbtc" None _))); reflexivity.
  - apply (proj1 (load_parquet_missing_file_and_migration "cbbtc" None _));
      [reflexivity | left; discriminate].
Defined.

Lemma load_parquet_table asset_key fs :
  snd (load_parquet asset_key None fs)
  = match fs (_parquet_path asset_key) with
    | Some df => df
    | None =>
      if String.eqb asset_key "wbtc"
      then match fs legacy_path with
           | Some df => df
           | None => []
           end
      else []
    end.
Proof.
  unfold load_parquet. cbn [path_or].
  destruct (fs (_parquet_path asset_key)); [reflexivity|].
  destruct (String.eqb asset_key "wbtc"); [|reflexivity].
  destruct (fs legacy_path); reflexivity.
Qed.

(** X22: the files of the registered assets do not meet: saving the table
    of one registered asset under its default path changes neither what
    [load_parquet] returns for another registered asset nor the legacy
    file. *)
Theorem saving_one_asset_leaves_the_others
        (df : list Liq.t) (asset_key other : string) (fs : data_dir)
        (Hkey : In asset_key (map fst Queries.ASSETS))
        (Hreg : In other (map fst Queries.ASSETS))
        (Hother : other <> asset_key) :
  let saved := fst (save_parquet df asset_key None fs) in
  snd (load_parquet other None saved) = snd (load_parquet other None fs)
  /\ saved legacy_path = fs legacy_path.
Proof.
  intros saved. subst saved. cbn [save_parquet fst path_or].
  assert (Hpaths : _parquet_path other <> _parquet_path asset_key
                   /\ legacy_path <> _parquet_path asset_key).
  { cbn in Hkey, Hreg.
    destruct Hkey as [<- | [<- | []]]; destruct Hreg as [<- | [<- | []]];
      try contradiction; split; discriminate. }
  destruct Hpaths as [Hp Hl].
  assert (Hleg : write_file (_parquet_path asset_key) df fs legacy_path
                 = fs legacy_path)
    by now apply write_file_other.
  split; [|exact Hleg].
  rewrite !load_parquet_table, Hleg.
  now rewrite write_file_other.
Qed.

Lemma saving_one_asset_leaves_the_others_witness :
  In "cbbtc" (map fst Queries.ASSETS)
  /\ In "wbtc" (map fst Queries.ASSETS)
  /\ "wbtc" <> "cbbtc"
  /\ snd (load_parquet "wbtc" None
            (fst (save_parquet [liq_L1] "cbbtc" None
                    (write_file legacy_path [liq_by "0xA" 100]
                                (fun _ => None)))))
     = [liq_by "0xA" 100].
Proof.
  assert (Hkey : In "cbbtc" (map fst Queries.ASSETS)) by (cbn; auto).
  assert (Hreg : In "wbtc" (map fst Queries.ASSETS)) by (cbn; auto).
  assert (H : "wbtc" <> "cbbtc") by discriminate.
  split; [exact Hkey|]. split; [exact Hreg|]. split; [exact H|].
  rewrite (proj1 (saving_one_asset_leaves_the_others
                    [liq_L1] "cbbtc" "wbtc" _ Hkey Hreg H)).
  reflexivity.
Defined.

(** X23: an update is persisted: after [update_data] has run for an asset,
    [load_parquet] of that asset returns the table that the run returned,
    which is the merge of the fetch into what [load_parquet] returned
    before the run; with nothing stored before and the legacy file absent
    the fetched table is stored as it is. *)
Theorem update_data_run_is_persisted
        (asset_key : string) (new_df : list Liq.t) (fs : data_dir) :
  let after := fst (update_data_run asset_key new_df fs) in
  let combined := snd (update_data_run asset_key new_df fs) in
  combined = update_data (snd (load_parquet asset_key None fs)) new_df
  /\ load_parquet asset_key None after = (after, combined)
  /\ (fs (_parquet_path asset_key) = None -> fs legacy_path = None ->
      combined = new_df).
Proof.
  intros after combined. subst after combined. unfold update_data_run.
  destruct (load_parquet asset_key None fs) as [fs1 existing] eqn:Hload.
  cbn [save_parquet fst snd path_or]. split; [reflexivity|]. split.
  - apply load_parquet_present. apply write_file_same.
  - intros Hp Hl.
    assert (He : existing = snd (load_parquet asset_key None fs))
      by now rewrite Hload.
    rewrite load_parquet_table, Hp, Hl in He.
    destruct (String.eqb asset_key "wbtc"); now subst existing.
Qed.

Lemma update_data_run_is_persisted_witness :
  snd (update_data_run "wbtc" [liq_L1] (fun _ => None)) = [liq_L1].
Proof.
  apply (proj2 (proj2 (update_data_run_is_persisted
                         "wbtc" [liq_L1] (fun _ => None)))); reflexivity.
Defined.

(** ** Filtering and aggregating *)

Lemma filter_idem {A : Type} (p : A -> bool) l :
  filter p (filter p l) = filter p l.
Proof.
  rewrite filter_twice. apply filter_ext. intro x. now destruct (p x).
Qed.

Lemma filter_true {A : Type} (l : list A) : filter (fun _ => true) l = l.
Proof. induction l; cbn; congruence. Qed.

(** The filters of [filter_data], applied one after the other, keep the
    rows that pass all of them. *)
Lemma filter_data_passes df date_range versions min_usd max_usd :
  filter_data df date_range versions min_usd max_usd
  = filter (passes date_range versions min_usd max_usd) df.
Proof.
  unfold filter_data. destruct df as [|r0 df0]; [reflexivity|].
  generalize (r0 :: df0). intro df.
  transitivity
    (filter (fun r => match max_usd with
                      | Some m => Qle_bool (Liq.collateral_amount_usd r) m
                      | None => true
                      end)
       (filter (fun r => match min_usd with
                         | Some m => Qle_bool m (Liq.collateral_amount_usd r)
                         | None => true
                         end)
          (filter (fun r => match versions with
                            | Some (v :: vs) =>
                              existsb (String.eqb (Liq.version r)) (v :: vs)
                            | _ => true
                            end)
             (filter (fun r => match date_range with
                               | Some [d0; d1] =>
                                 (86400 * d0 <=? Liq.timestamp r)
                                 && (Liq.timestamp r
                                     <=? 86400 * d1 + 86400 - 1)
                               | _ => true
                               end) df)))).
  - destruct date_range as [[|d0 [|d1 [|d2 ds]]]|];
      destruct versions as [[|v vs]|]; destruct min_usd; destruct max_usd;
      rewrite ?filter_true; reflexivity.
  - rewrite !filter_twice. apply filter_ext. intro r. unfold passes.
    rewrite !andb_assoc.
    destruct date_range as [[|d0 [|d1 [|d2 ds]]]|]; try reflexivity.
    do 4 f_equal.
    destruct (Z.leb_spec (Liq.timestamp r) (86400 * d1 + 86400 - 1));
      destruct (Z.ltb_spec (Liq.timestamp r) (86400 * (d1 + 1)));
      try reflexivity; lia.
Qed.

(** X24: [filter_data] keeps, in their order, exactly the rows that pass
    every filter in effect, the last day of a date range included up to its
    last second; so filtering twice is filtering once, filters given in two
    calls can be given in either order, a date range that is not a pair of
    dates and an empty version list filter nothing, and no row is added. *)
Theorem filter_data_keeps_the_rows_that_pass
        (df : list Liq.t) (date_range : option (list Z))
        (versions : option (list string)) (min_usd max_usd : option Q) :
  filter_data df date_range versions min_usd max_usd
  = filter (passes date_range versions min_usd max_usd) df
  /\ filter_data (filter_data df date_range versions min_usd max_usd)
                 date_range versions min_usd max_usd
     = filter_data df date_range versions min_usd max_usd
  /\ (forall date_range' versions' min_usd' max_usd',
        filter_data (filter_data df date_range versions min_usd max_usd)
                    date_range' versions' min_usd' max_usd'
        = filter_data (filter_data df date_range' versions' min_usd' max_usd')
                      date_range versions min_usd max_usd)
  /\ (forall d, filter_data df (Some [d]) versions min_usd max_usd
                = filter_data df None versions min_usd max_usd)
  /\ filter_data df date_range (Some []) min_usd max_usd
     = filter_data df date_range None min_usd max_usd
  /\ (List.length (filter_data df date_range versions min_usd max_usd)
      <= List.length df)%nat.
Proof.
  rewrite !filter_data_passes.
  split; [reflexivity|]. split; [apply filter_idem|]. split; [|split; [|split]].
  - intros date_range' versions' min_usd' max_usd'.
    rewrite !filter_data_passes, !filter_twice.
    apply filter_ext. intro r. apply andb_comm.
  - intro d. now rewrite !filter_data_passes.
  - reflexivity.
  - apply filter_length_le.
Qed.

Lemma size_labels_NoDup : NoDup size_labels.
Proof.
  unfold size_labels. repeat constructor; cbn; intuition discriminate.
Qed.

Lemma size_bracket_in_labels (r : Liq.t) :
  existsb (opt_string_eqb (DataProcessor.size_bracket r)) size_labels
  = Qltb 0 (Liq.collateral_amount_btc r).
Proof.
  unfold DataProcessor.size_bracket, cut, size_bins, size_labels.
  generalize (Liq.collateral_amount_btc r). intro v.
  cbn [searchsorted_left edge_ltb].
  split_Qltb; try reflexivity; lra.
Qed.

(** X25: the size distribution accounts for every record with a positive
    amount once: its counts add up to the number of such records, so for a
    table as the normaliser makes it, where every amount is positive, they
    add up to the length of the table; the brackets come in ascending
    order, each at most once. *)
Theorem size_distribution_counts_every_positive_record (df : list Liq.t) :
  list_sum (map sr_count (get_size_distribution df))
  = List.length
      (filter (fun r => Qltb 0 (Liq.collateral_amount_btc r)) df)
  /\ (well_kept df ->
      list_sum (map sr_count (get_size_distribution df)) = List.length df)
  /\ (exists keep,
        map sr_bracket (get_size_distribution df)
        = filter keep size_labels).
Proof.
  assert (Htotal : list_sum (map sr_count (get_size_distribution df))
                   = List.length
                       (filter (fun r => Qltb 0 (Liq.collateral_amount_btc r))
                               df)).
  { rewrite <- (filter_ext _ _ size_bracket_in_labels).
    rewrite <- (count_by_key DataProcessor.size_bracket)
      by apply size_labels_NoDup.
    unfold get_size_distribution. destruct df as [|r0 df0].
    - reflexivity.
    - generalize (r0 :: df0). intro df. generalize size_labels.
      intro labels. induction labels as [|label labels IH]; [reflexivity|].
      cbn [flat_map]. rewrite map_app, list_sum_app, IH, map_cons.
      change (list_sum (?a :: ?l)) with (a + list_sum l)%nat.
      f_equal. unfold size_group.
      destruct (filter _ df); cbn; lia. }
  split; [exact Htotal|]. split.
  - intros [Hpos _]. rewrite Htotal. apply filter_length_all.
    rewrite Forall_forall in Hpos. intros r Hr. now apply Qltb_lt, Hpos.
  - exists (fun label => match size_group df label with
                         | [] => false
                         | _ => true
                         end).
    unfold get_size_distribution. destruct df as [|r0 df0].
    + cbn. reflexivity.
    + generalize (r0 :: df0). intro df. generalize size_labels.
      intro labels. induction labels as [|label labels IH]; [reflexivity|].
      cbn [flat_map filter]. rewrite map_app, IH.
      destruct (size_group df label); reflexivity.
Qed.

Lemma size_distribution_counts_every_positive_record_witness :
  well_kept [liq_L1]
  /\ list_sum (map sr_count (get_size_distribution [liq_L1])) = 1%nat.
Proof.
  assert (Hk : well_kept [liq_L1]) by (split; repeat constructor).
  split; [exact Hk|].
  exact (proj1 (proj2 (size_distribution_counts_every_positive_record
                         [liq_L1])) Hk).
Defined.

Lemma list_sum_perm l l' : Permutation l l' -> list_sum l = list_sum l'.
Proof.
  induction 1; unfold list_sum in *; cbn; lia.
Qed.

Lemma groupby_length {A : Type} (col : A -> string) df :
  List.length (groupby col df) = nunique (map col df).
Proof.
  unfold groupby, nunique, sorted_strings.
  now rewrite length_map, stable_sort_length.
Qed.

(** The groups of a table share out its rows. *)
Lemma groupby_counts {A : Type} (col : A -> string) df :
  list_sum (map (fun g => List.length (snd g)) (groupby col df))
  = List.length df.
Proof.
  unfold groupby. rewrite map_map. cbn [snd].
  rewrite (count_by_key (fun r => Some (col r)))
    by (apply ascending_NoDup, sorted_strings_ascending, unique_NoDup).
  apply filter_length_all. intros r Hr. apply existsb_exists.
  exists (col r). split; [|apply String.eqb_refl].
  apply (stable_sort_In String.ltb), unique_In. now apply in_map.
Qed.

Lemma groupby_nonempty {A : Type} (col : A -> string) df g :
  In g (groupby col df) -> snd g <> [].
Proof.
  intros Hg. apply groupby_In in Hg. destruct Hg as [Hk Hg].
  apply in_map_iff in Hk. destruct Hk as (r & Hr & Hin).
  assert (H : In r (snd g)).
  { rewrite Hg. apply filter_In. split; [exact Hin|].
    now apply String.eqb_eq. }
  intros E. now rewrite E in H.
Qed.

Lemma unique_length_le l : (nunique l <= List.length l)%nat.
Proof.
  unfold nunique. induction l as [|x l IH]; cbn; [lia|].
  pose proof (filter_length_le (fun y => negb (String.eqb y x)) (unique l)).
  lia.
Qed.

Lemma unique_length_pos l : l <> [] -> (1 <= nunique l)%nat.
Proof.
  unfold nunique. destruct l; [congruence|]. cbn. lia.
Qed.

Lemma head_length {A : Type} (n : Z) (l : list A) :
  0 <= n ->
  List.length (head n l) = Nat.min (Z.to_nat n) (List.length l).
Proof.
  intros Hn. rewrite head_firstn by exact Hn. apply length_firstn.
Qed.

Section TopFacts.
Variable float_sum : list Q -> Q.
Variable sort_by_total_usd : list top_row -> list top_row.
Hypothesis Hsort : sorts_descending tr_total_usd sort_by_total_usd.
Variable col : Liq.t -> string.
Variable df : list Liq.t.

Lemma get_top_liquidators_head top_n :
  get_top_liquidators float_sum sort_by_total_usd df top_n
  = head top_n (full_ranking float_sum sort_by_total_usd Liq.liquidator df).
Proof.
  unfold get_top_liquidators, full_ranking. destruct df; [|reflexivity].
  cbn. rewrite (sorts_descending_nil _ _ Hsort).
  unfold head. now destruct (0 <=? top_n); rewrite ?firstn_nil.
Qed.

Lemma get_top_liquidatees_head top_n :
  get_top_liquidatees float_sum sort_by_total_usd df top_n
  = head top_n (full_ranking float_sum sort_by_total_usd Liq.liquidatee df).
Proof.
  unfold get_top_liquidatees, full_ranking. destruct df; [|reflexivity].
  cbn. rewrite (sorts_descending_nil _ _ Hsort).
  unfold head. now destruct (0 <=? top_n); rewrite ?firstn_nil.
Qed.

Lemma ranked_length :
  List.length (full_ranking float_sum sort_by_total_usd col df)
  = nunique (map col df).
Proof.
  unfold full_ranking.
  rewrite (Permutation_length (proj1 (Hsort _))).
  now rewrite length_map, groupby_length.
Qed.

Lemma ranked_counts :
  list_sum (map tr_count (full_ranking float_sum sort_by_total_usd col df))
  = List.length df.
Proof.
  unfold full_ranking.
  rewrite (list_sum_perm _ _ (Permutation_map tr_count (proj1 (Hsort _)))).
  rewrite map_map. cbn [tr_count agg_group]. apply groupby_counts.
Qed.

Lemma head_ranked top_n :
  let ranked := full_ranking float_sum sort_by_total_usd col df in
  (0 <= top_n ->
   List.length (head top_n ranked)
   = Nat.min (Z.to_nat top_n) (nunique (map col df))
   /\ (Z.of_nat (nunique (map col df)) <= top_n ->
       list_sum (map tr_count (head top_n ranked)) = List.length df)
   /\ (forall k, 0 <= k <= top_n ->
                 head k ranked = firstn (Z.to_nat k) (head top_n ranked)))
  /\ (top_n < 0 ->
      head top_n ranked
      = firstn (nunique (map col df) - Z.to_nat (- top_n))
               (head (Z.of_nat (nunique (map col df))) ranked)).
Proof.
  intros ranked. subst ranked. split.
  - intros Hn. split; [|split].
    + rewrite head_length by exact Hn. now rewrite ranked_length.
    + intros Hall. rewrite head_firstn by exact Hn.
      rewrite firstn_all2 by (rewrite ranked_length; lia).
      apply ranked_counts.
    + intros k Hk. rewrite !head_firstn by lia.
      rewrite firstn_firstn. f_equal. lia.
  - intros Hn. unfold head at 1.
    assert (H : (0 <=? top_n) = false) by (apply Z.leb_gt; exact Hn).
    rewrite H, ranked_length. rewrite head_firstn by lia.
    rewrite Nat2Z.id.
    now rewrite (firstn_all2 (n := nunique (map col df)))
      by (rewrite ranked_length; lia).
Qed.
End TopFacts.



Lemma Qmax2_cases x y :
  (Qmax2 x y = x \/ Qmax2 x y = y)
  /\ (x <= Qmax2 x y)%Q /\ (y <= Qmax2 x y)%Q.
Proof.
  unfold Qmax2. destruct (Qle_bool x y) eqn:E.
  - apply Qle_bool_iff in E. repeat split; auto. apply Qle_refl.
  - assert (H : (y <= x)%Q).
    { destruct (Qlt_le_dec y x) as [H | H]; [now apply Qlt_le_weak|].
      apply Qle_bool_iff in H. congruence. }
    repeat split; auto. apply Qle_refl.
Qed.

Lemma fold_left_Qmax2_spec l x :
  (fold_left Qmax2 l x = x \/ In (fold_left Qmax2 l x) l)
  /\ (x <= fold_left Qmax2 l x)%Q
  /\ forall z, In z l -> (z <= fold_left Qmax2 l x)%Q.
Proof.
  revert x. induction l as [|y l IH]; intro x; cbn.
  - split; [now left|]. split; [apply Qle_refl | intros z []].
  - destruct (IH (Qmax2 x y)) as (Hin & Hge & Hall).
    destruct (Qmax2_cases x y) as (Hc & Hx & Hy).
    split; [|split].
    + destruct Hin as [H | H]; [|now right; right].
      rewrite H. destruct Hc as [-> | ->]; auto.
    + eapply Qle_trans; eassumption.
    + intros z [<- | Hz]; [eapply Qle_trans; eassumption | now apply Hall].
Qed.

(** On a non-empty list [Qmax_list] is a largest element. *)
Lemma Qmax_list_spec d l :
  l <> [] ->
  In (Qmax_list d l) l /\ forall z, In z l -> (z <= Qmax_list d l)%Q.
Proof.
  destruct l as [|x l]; [congruence|]. intros _. cbn [Qmax_list].
  destruct (fold_left_Qmax2_spec l x) as (Hin & Hge & Hall). split.
  - destruct Hin as [-> | H]; [now left | now right].
  - intros z [<- | Hz]; auto.
Qed.

(** X27: the KPI summary of a non-empty table: the total is the number of
    rows and is positive; the V2 and V3 counts together do not exceed it
    and reach it exactly when every row is V2 or V3; the numbers of
    distinct liquidators and liquidatees lie between 1 and the total; the
    maximum USD value is the value of some row and no row exceeds it. *)
Theorem kpi_metrics_of_a_nonempty_table (df : list Liq.t) (Hdf : df <> []) :
  let k := get_kpi_metrics df in
  total_liquidations k = List.length df
  /\ (0 < total_liquidations k)%nat
  /\ (v2_count k + v3_count k <= total_liquidations k)%nat
  /\ ((v2_count k + v3_count k)%nat = total_liquidations k <->
      Forall (fun r => Liq.version r = "V2" \/ Liq.version r = "V3") df)
  /\ (1 <= unique_liquidators k <= total_liquidations k)%nat
  /\ (1 <= unique_liquidatees k <= total_liquidations k)%nat
  /\ (exists r, In r df
                /\ max_liquidation_usd k = Liq.collateral_amount_usd r)
  /\ (forall r, In r df ->
                (Liq.collateral_amount_usd r <= max_liquidation_usd k)%Q).
Proof.
  intros k. subst k.
  assert (Hk : get_kpi_metrics df
               = mk_kpi
                   (List.length df)
                   (Qsum (map Liq.collateral_amount_btc df))
                   (Qsum (map Liq.collateral_amount_usd df))
                   (nunique (map Liq.liquidator df))
                   (nunique (map Liq.liquidatee df))
                   (Qmean (map Liq.collateral_amount_usd df))
                   (Qmax_list 0 (map Liq.collateral_amount_usd df))
                   (List.length
                      (filter (fun r => String.eqb (Liq.version r) "V2") df))
                   (List.length
                      (filter (fun r => String.eqb (Liq.version r) "V3") df)))
    by (destruct df; [congruence | reflexivity]).
  rewrite Hk.
  cbn [total_liquidations total_btc total_usd unique_liquidators
       unique_liquidatees avg_liquidation_usd max_liquidation_usd
       v2_count v3_count].
  assert (Hlen : (0 < List.length df)%nat)
    by (destruct df; [congruence | cbn; lia]).
  assert (Hvv : (List.length
                   (filter (fun r => String.eqb (Liq.version r) "V2") df)
                 + List.length
                     (filter (fun r => String.eqb (Liq.version r) "V3") df)
                 = List.length
                     (filter (fun r => String.eqb (Liq.version r) "V2"
                                       || String.eqb (Liq.version r) "V3")
                             df))%nat).
  { symmetry. apply filter_length_disjoint. intros r Hr.
    apply String.eqb_eq in Hr. now rewrite Hr. }
  assert (Hmap : forall f : Liq.t -> string, map f df <> [])
    by (intro f; destruct df; [congruence | discriminate]).
  assert (Husd : map Liq.collateral_amount_usd df <> [])
    by (destruct df; [congruence | discriminate]).
  destruct (Qmax_list_spec 0 _ Husd) as [Hin Hmax].
  split; [reflexivity|]. split; [exact Hlen|]. split; [|split].
  - rewrite Hvv. apply filter_length_le.
  - rewrite Hvv. split.
    + intros Hall. apply filter_length_forallb in Hall.
      rewrite forallb_forall in Hall. apply Forall_forall. intros r Hr.
      specialize (Hall r Hr). apply orb_true_iff in Hall.
      now rewrite !String.eqb_eq in Hall.
    + intros Hall. apply filter_length_all. rewrite Forall_forall in Hall.
      intros r Hr. apply orb_true_iff. rewrite !String.eqb_eq. auto.
  - split; [|split; [|split]].
    + split; [now apply unique_length_pos|].
      rewrite <- (length_map Liq.liquidator df). apply unique_length_le.
    + split; [now apply unique_length_pos|].
      rewrite <- (length_map Liq.liquidatee df). apply unique_length_le.
    + apply in_map_iff in Hin. destruct Hin as (r & Hr & Hin).
      exists r. split; [exact Hin | now symmetry].
    + intros r Hr. apply Hmax. now apply in_map.
Qed.

Lemma kpi_metrics_of_a_nonempty_table_witness :
  [liq_L1; liq_of_size 7] <> []
  /\ (v2_count (get_kpi_metrics [liq_L1; liq_of_size 7])
      + v3_count (get_kpi_metrics [liq_L1; liq_of_size 7])
      <= total_liquidations (get_kpi_metrics [liq_L1; liq_of_size 7]))%nat.
Proof.
  assert (H : [liq_L1; liq_of_size 7] <> []) by discriminate.
  split; [exact H|].
  exact (proj1 (proj2 (proj2 (kpi_metrics_of_a_nonempty_table _ H)))).
Defined.

Lemma existsb_unique (x : string) l :
  existsb (String.eqb x) (unique l) = existsb (String.eqb x) l.
Proof.
  apply eq_true_iff_eq. rewrite !existsb_eqb_In. apply unique_In.
Qed.

Lemma breakdown_unfold classified_df actions_df :
  get_deposit_asset_breakdown classified_df actions_df
  = sort_values_desc_Q bd_total_usd
      (map (fun g =>
              mk_breakdown_row (fst g) (List.length (snd g))
                (Qsum (map Act.amount_usd (snd g)))
                (nunique (map Act.account (snd g))))
           (groupby Act.asset_symbol
              (filter (fun a =>
                         String.eqb (Act.action_type a) "deposit"
                         && existsb (String.eqb (Act.account a))
                              (map (fun c => Liq.liquidatee (liq c))
                                   classified_df))
                      actions_df))).
Proof.
  unfold get_deposit_asset_breakdown.
  rewrite <- (filter_ext _ _
                (fun a => f_equal (andb (String.eqb (Act.action_type a)
                                                    "deposit"))
                                  (existsb_unique (Act.account a) _))).
  rewrite <- filter_twice.
  destruct actions_df as [|a0 acts]; [reflexivity|].
  destruct (filter _ (a0 :: acts)); reflexivity.
Qed.

(** X28: for a non-empty classified table (the page calls the breakdown
    with no other), the deposit breakdown counts, per asset symbol, the
    deposits in the action table made by accounts that are the liquidatee
    of some classified row, wherever in time they lie, with no regard to any
    liquidation window: its counts add up to the number of those deposits.
    Each symbol has one row, the rows are ordered by total USD, largest
    first, and each row has at least one and at most [count] distinct
    users. *)
Theorem deposit_breakdown_counts_all_deposits_of_the_users
        (classified_df : list classified) (actions_df : list Act.t)
        (Hclassified : classified_df <> []) :
  let rows := get_deposit_asset_breakdown classified_df actions_df in
  list_sum (map bd_count rows)
  = List.length
      (filter (fun a =>
                 String.eqb (Act.action_type a) "deposit"
                 && existsb (String.eqb (Act.account a))
                      (map (fun c => Liq.liquidatee (liq c)) classified_df))
              actions_df)
  /\ NoDup (map bd_asset_symbol rows)
  /\ StronglySorted (fun a b => (bd_total_usd b <= bd_total_usd a)%Q) rows
  /\ Forall (fun row =>
               (1 <= bd_unique_users row <= bd_count row)%nat) rows.
Proof.
  intros rows. subst rows. rewrite breakdown_unfold.
  set (ud := filter _ actions_df).
  set (mk := fun g : string * list Act.t => mk_breakdown_row _ _ _ _).
  assert (Hperm : Permutation
                    (sort_values_desc_Q bd_total_usd
                       (map mk (groupby Act.asset_symbol ud)))
                    (map mk (groupby Act.asset_symbol ud)))
    by apply stable_sort_perm.
  split; [|split; [|split]].
  - rewrite (list_sum_perm _ _ (Permutation_map bd_count Hperm)).
    rewrite map_map. apply groupby_counts.
  - apply (Permutation_NoDup
             (Permutation_map bd_asset_symbol (Permutation_sym Hperm))).
    rewrite map_map.
    apply ascending_NoDup, (groupby_keys_ascending Act.asset_symbol ud).
  - apply sort_values_desc_Q_sorted.
  - apply Forall_forall. intros row Hrow.
    apply (Permutation_in _ Hperm), in_map_iff in Hrow.
    destruct Hrow as (g & <- & Hg). subst mk. cbn [bd_unique_users bd_count].
    apply groupby_nonempty in Hg. split.
    + apply unique_length_pos. destruct (snd g); [congruence | discriminate].
    + rewrite <- (length_map Act.account (snd g)). apply unique_length_le.
Qed.

Lemma deposit_breakdown_counts_all_deposits_of_the_users_witness :
  [passive_row liq_L1] <> []
  /\ list_sum
       (map bd_count
            (get_deposit_asset_breakdown [passive_row liq_L1]
                                         [act_A1; act_A2]))
     = 1%nat.
Proof.
  assert (H : [passive_row liq_L1] <> []) by discriminate.
  split; [exact H|].
  rewrite (proj1 (deposit_breakdown_counts_all_deposits_of_the_users
                    [passive_row liq_L1] [act_A1; act_A2] H)).
  reflexivity.
Defined.

(** ** Fetching the actions of the liquidated users *)

Section FetchUserActionsFacts.
Variable py_int : json -> option Z.
Variable py_float : json -> option Q.
Variable endpoint : UserBehaviorFetcher.endpoints.

Lemma parse_events_rows raws action_type version rows :
  UserBehaviorFetcher._parse_events py_int py_float raws action_type version
  = Some rows ->
  Forall (fun row => Act.action_type row = action_type
                     /\ Act.version row = version) rows.
Proof.
  intros H. unfold UserBehaviorFetcher._parse_events in H.
  apply traverse_Some in H. apply Forall_forall. intros row Hrow.
  destruct (Forall2_In_r _ _ _ _ H Hrow) as (ev & _ & Hev).
  apply action_row_reads in Hev. tauto.
Qed.

Lemma fetch_groups_rows v2 v3 window_seconds (P : Act.t -> Prop) groups :
  (forall row, (Act.action_type row = "deposit"
                \/ Act.action_type row = "repay") ->
               (Act.version row = "V3" /\ v3 = true
                \/ Act.version row = "V2" /\ v2 = true) ->
               P row) ->
  forall all_rows out,
    Forall P all_rows ->
    UserBehaviorFetcher.fetch_groups py_int py_float endpoint v2 v3
      window_seconds groups all_rows = Some out ->
    Forall P out.
Proof.
  intros HP. induction groups as [|g groups IH]; intros all_rows out Hall Hrun.
  - cbn in Hrun. now inversion Hrun; subst.
  - cbn [UserBehaviorFetcher.fetch_groups] in Hrun.
    destruct ((String.eqb (UserBehaviorFetcher.ug_version g) "V3" && v3)
              || (String.eqb (UserBehaviorFetcher.ug_version g) "V2" && v2))
      eqn:Hsel; [|eapply IH; eassumption].
    unfold bind in Hrun.
    destruct (UserBehaviorFetcher._fetch_user_events _) as [rd|];
      [|discriminate].
    destruct (UserBehaviorFetcher._parse_events _ _ _ _ _) as [deposits|]
      eqn:Hd; [|discriminate].
    destruct (UserBehaviorFetcher._fetch_user_events _) as [rr|];
      [|discriminate].
    destruct (UserBehaviorFetcher._parse_events _ _ (returned rr) _ _)
      as [repays|] eqn:Hr; [|discriminate].
    apply parse_events_rows in Hd, Hr.
    assert (Hver : forall row,
               Act.version row = UserBehaviorFetcher.ug_version g ->
               Act.version row = "V3" /\ v3 = true
               \/ Act.version row = "V2" /\ v2 = true).
    { intros row ->. apply orb_true_iff in Hsel.
      destruct Hsel as [H | H]; apply andb_true_iff in H;
        destruct H as [H1 H2]; apply String.eqb_eq in H1; auto. }
    eapply IH; [|exact Hrun]. rewrite !Forall_app. repeat split.
    + exact Hall.
    + eapply Forall_impl; [|exact Hd]. intros row [Hty Hv]. apply HP; auto.
    + eapply Forall_impl; [|exact Hr]. intros row [Hty Hv]. apply HP; auto.
Qed.
End FetchUserActionsFacts.

(** X29: the action table that [fetch_user_actions] returns has unique
    ids and is sorted newest first; every row is a deposit or a repay and
    carries a version the asset is configured for. When the liquidation
    table has rows but none of the minimum size, nothing is fetched and the
    table is empty; an unknown
    asset key fails before anything is fetched. *)
Theorem fetched_actions_are_unique_and_sorted
        (py_int : json -> option Z) (py_float : json -> option Q)
        (endpoint : UserBehaviorFetcher.endpoints)
        (liquidations_df : list Liq.t) (asset_key : string)
        (min_wbtc : Q) (window_hours : Z) :
  (forall df,
     UserBehaviorFetcher.fetch_user_actions
       py_int py_float endpoint liquidations_df asset_key min_wbtc
       window_hours = Some df ->
     exists config,
       Queries.get_asset_config asset_key = Some config
       /\ NoDup (map Act.id df)
       /\ descending Act.timestamp df
       /\ Forall (fun row =>
                    (Act.action_type row = "deposit"
                     \/ Act.action_type row = "repay")
                    /\ In (Act.version row) (Queries.subgraphs config)) df)
  /\ (forall config,
        Queries.get_asset_config asset_key = Some config ->
        liquidations_df <> [] ->
        qualifying min_wbtc liquidations_df = [] ->
        UserBehaviorFetcher.fetch_user_actions
          py_int py_float endpoint liquidations_df asset_key min_wbtc
          window_hours = Some [])
  /\ (Queries.get_asset_config asset_key = None ->
      UserBehaviorFetcher.fetch_user_actions
        py_int py_float endpoint liquidations_df asset_key min_wbtc
        window_hours = None).
Proof.
  unfold UserBehaviorFetcher.fetch_user_actions.
  fold (qualifying min_wbtc liquidations_df).
  split; [|split].
  - intros df Hrun. unfold bind in Hrun.
    destruct (Queries.get_asset_config asset_key) as [config|];
      [|discriminate].
    exists config. split; [reflexivity|].
    destruct (UserBehaviorFetcher.fetch_groups _ _ _ _ _ _ _ _)
      as [all_rows|] eqn:Hloop; [|discriminate].
    apply (fetch_groups_rows _ _ _ _ _ _
             (fun row => (Act.action_type row = "deposit"
                          \/ Act.action_type row = "repay")
                         /\ In (Act.version row) (Queries.subgraphs config)))
      in Hloop; [| |constructor].
    + destruct all_rows as [|r0 rows0].
      * inversion Hrun; subst. repeat split; constructor.
      * inversion Hrun; subst; clear Hrun.
        set (rows := r0 :: rows0) in *.
        assert (Hperm : Permutation
                          (sort_values_desc_Z Act.timestamp
                             (drop_duplicates_last Act.id rows))
                          (drop_duplicates_last Act.id rows))
          by apply stable_sort_perm.
        split; [|split].
        -- apply (Permutation_NoDup
                    (Permutation_map Act.id (Permutation_sym Hperm))).
           apply drop_duplicates_last_NoDup.
        -- apply sort_values_desc_Z_sorted.
        -- apply Forall_forall. intros row Hrow.
           apply (Permutation_in _ Hperm), drop_duplicates_last_incl in Hrow.
           rewrite Forall_forall in Hloop. now apply Hloop.
    + intros row Hty Hver. split; [exact Hty|].
      destruct Hver as [[-> H] | [-> H]]; now apply existsb_eqb_In in H.
  - intros config Hc _ Hq. rewrite Hc, Hq. reflexivity.
  - intros Hc. now rewrite Hc.
Qed.

Lemma fetched_actions_are_unique_and_sorted_witness :
  exists df,
    UserBehaviorFetcher.fetch_user_actions digits_int digits_float
      (fun version action_type account ts_from ts_to =>
         [Json (mk_body false
                  [("deposits",
                    [raw_event "A1" "980" "100000000";
                     raw_event "A1" "980" "100000000"])])])
      [liq_L1] "wbtc" 1 48 = Some df
    /\ map Act.id df = ["A1"]
    /\ NoDup (map Act.id df).
Proof.
  eexists. split; [reflexivity|]. split; [reflexivity|].
  destruct (proj1 (fetched_actions_are_unique_and_sorted
                     digits_int digits_float
                     (fun version action_type account ts_from ts_to =>
                        [Json (mk_body false
                                 [("deposits",
                                   [raw_event "A1" "980" "100000000";
                                    raw_event "A1" "980" "100000000"])])])
                     [liq_L1] "wbtc" 1 48) _ eq_refl)
    as (config & _ & Hnd & _).
  exact Hnd.
Defined.

Lemma deposits_and_repays_split ua :
  (forall a, In a ua ->
             Act.action_type a = "deposit" \/ Act.action_type a = "repay") ->
  (List.length (of_type "deposit" ua) + List.length (of_type "repay" ua)
   = List.length ua)%nat.
Proof.
  intros Hty. unfold of_type. rewrite <- filter_length_disjoint.
  - apply filter_length_all. intros a Ha. apply orb_true_iff.
    rewrite !String.eqb_eq. auto.
  - intros a Ha. apply String.eqb_eq in Ha. now rewrite Ha.
Qed.

(** X30: fetched actions and the classifier fit together: against an
    action table that [fetch_user_actions] returned, the deposit and repay
    counts of a liquidation add up to the number of actions in its window,
    so a liquidation is Passive exactly when its window is empty, that is,
    exactly when [hours_before_last_action] is absent. *)
Theorem classifier_on_fetched_actions
        (py_int : json -> option Z) (py_float : json -> option Q)
        (endpoint : UserBehaviorFetcher.endpoints)
        (liquidations_df : list Liq.t) (asset_key : string)
        (min_wbtc : Q) (window_hours : Z) (actions_df : list Act.t)
        (Hfetch : UserBehaviorFetcher.fetch_user_actions
                    py_int py_float endpoint liquidations_df asset_key
                    min_wbtc window_hours = Some actions_df)
        (target_address : string) (window_seconds : Z) (l : Liq.t) :
  let ua := user_actions actions_df (Liq.liquidatee l)
              (Liq.timestamp l - window_seconds) (Liq.timestamp l) in
  let c := classify_row actions_df target_address window_seconds l in
  (deposit_count c + repay_count c = List.length ua)%nat
  /\ (behavior c = "Passive" <-> ua = [])
  /\ (behavior c = "Passive" <-> hours_before_last_action c = None).
Proof.
  intros ua c.
  assert (Hty : forall a, In a ua ->
                          Act.action_type a = "deposit"
                          \/ Act.action_type a = "repay").
  { unfold UserBehaviorFetcher.fetch_user_actions, bind in Hfetch.
    destruct (Queries.get_asset_config asset_key) as [config|];
      [|discriminate].
    destruct (UserBehaviorFetcher.fetch_groups _ _ _ _ _ _ _ _)
      as [all_rows|] eqn:Hloop; [|discriminate].
    apply (fetch_groups_rows _ _ _ _ _ _
             (fun row => Act.action_type row = "deposit"
                         \/ Act.action_type row = "repay"))
      in Hloop; [|auto|constructor].
    rewrite Forall_forall in Hloop.
    intros a Ha. apply user_actions_In in Ha. destruct Ha as [Ha _].
    destruct all_rows as [|r0 rows0]; inversion Hfetch; subst;
      [destruct Ha|].
    apply Hloop. unfold sort_values_desc_Z in Ha.
    rewrite stable_sort_In in Ha.
    now apply (drop_duplicates_last_incl Act.id (r0 :: rows0)) in Ha. }
  pose proof (deposits_and_repays_split ua Hty) as Hsum.
  subst c. unfold classify_row. fold ua.
  cbn [deposit_count repay_count behavior hours_before_last_action].
  split; [exact Hsum|].
  destruct (of_type "deposit" ua) as [|d ds];
    destruct (of_type "repay" ua) as [|r rs];
    destruct ua as [|a ua']; cbn in Hsum; try lia; cbn;
    repeat split; intros; congruence.
Qed.

Lemma classifier_on_fetched_actions_witness :
  exists actions_df,
    UserBehaviorFetcher.fetch_user_actions digits_int digits_float
      (fun version action_type account ts_from ts_to =>
         [Json (mk_body false
                  [(if String.eqb action_type "deposit"
                    then "deposits" else "repays",
                    [raw_event action_type "980" "100000000"])])])
      [liq_L1] "wbtc" 1 48 = Some actions_df
    /\ map Act.id actions_df = ["deposit"; "repay"]
    /\ (behavior (classify_row actions_df Queries.WBTC_ADDRESS
                               (48 * 3600) liq_L1) = "Passive" <->
        hours_before_last_action
          (classify_row actions_df Queries.WBTC_ADDRESS (48 * 3600) liq_L1)
        = None).
Proof.
  eexists. split; [reflexivity|]. split; [reflexivity|].
  apply (classifier_on_fetched_actions
           digits_int digits_float
           (fun version action_type account ts_from ts_to =>
              [Json (mk_body false
                       [(if String.eqb action_type "deposit"
                         then "deposits" else "repays",
                         [raw_event action_type "980" "100000000"])])])
           [liq_L1] "wbtc" 1 48 _ eq_refl
           Queries.WBTC_ADDRESS (48 * 3600) liq_L1).
Defined.
